(** * devbox-ctl: the container registry and the commands around it

    A shallow embedding of [scripts/devbox-ctl/devbox_ctl.py]: name and
    resource validation, the JSON registry file and its read-modify-write
    helpers, the vault and podman helpers, and the commands [create],
    [list], [start], [stop], [destroy], [status], [logs] and [rotate-key],
    with an interleaving model of concurrent [add_container] calls under the
    advisory file lock. The properties come after the definitions.

    Conventions.
    - A Python [str] is a [string]; every [ascii] stands for one code point
      below 256, so [String.length] is Python's [len]. A [str] with a code
      point above 255 has no counterpart here: what is proved of a function
      is proved of its behaviour on the strings below that bound.
    - A value produced by [json.load] is a [json]; a JSON object is a
      [gmap string json] (Python compares dicts by content, not by order).
      Numbers with a fraction or an exponent are not represented.
    - The keys of the registry and of its records are those of the code:
      [version], [containers], [tailscaleHostname], [tailscaleIP],
      [withSyncthing] and so on.
    - An exception is a constructor of [exn]; of the three texts carried by
      a [DevboxError] only [message] is kept, and of the lines a command
      echoes only the one made of it.
    - The outside world (subprocesses, the clock, the confirmation prompt,
      the process environment) is a deterministic oracle [env] that answers
      from the history of the commands run so far. *)

From stdpp Require Import gmap strings pretty list fin_maps.
From Stdlib Require Import Ascii ZArith Lia.

Set Warnings "-register-all".
Local Open Scope string_scope.
Local Open Scope Z_scope.
Local Open Scope list_scope.

(** ** Characters and strings, as Python sees them *)

Definition code (c : ascii) : Z := Z.of_nat (nat_of_ascii c).

Definition in_range (lo hi : Z) (c : ascii) : bool :=
  (lo <=? code c) && (code c <=? hi).

(** [[a-z]], [[0-9]] (also [\d] below code point 256) and [-]. *)
Definition is_lower (c : ascii) : bool := in_range 97 122 c.
Definition is_digit (c : ascii) : bool := in_range 48 57 c.
Definition is_hyphen (c : ascii) : bool := code c =? 45.

(** [[a-z0-9]] and [[a-z0-9-]]. *)
Definition is_lower_or_digit (c : ascii) : bool := is_lower c || is_digit c.
Definition is_name_char (c : ascii) : bool := is_lower_or_digit c || is_hyphen c.

Definition newline : ascii := "010"%char.

(** [str.isspace] on one code point below 256. *)
Definition is_space (c : ascii) : bool :=
  in_range 9 13 c || in_range 28 32 c || (code c =? 133) || (code c =? 160).

Fixpoint lstrip (s : string) : string :=
  match s with
  | String c r => if is_space c then lstrip r else s
  | EmptyString => EmptyString
  end.

Fixpoint rstrip (s : string) : string :=
  match s with
  | String c r =>
      match rstrip r with
      | EmptyString => if is_space c then EmptyString else String c EmptyString
      | r' => String c r'
      end
  | EmptyString => EmptyString
  end.

(** [s.strip()] *)
Definition strip (s : string) : string := rstrip (lstrip s).

Definition flush_word (word : string) : list string :=
  match word with EmptyString => [] | _ => [word] end.

Fixpoint split_from (word : string) (s : string) : list string :=
  match s with
  | String c r =>
      if is_space c then flush_word word ++ split_from EmptyString r
      else split_from (word +:+ String c EmptyString) r
  | EmptyString => flush_word word
  end.

(** [s.split()]: the maximal runs of non-space characters. *)
Definition split (s : string) : list string := split_from EmptyString s.

(** [s.startswith(p)] *)
Fixpoint startswith (p s : string) : bool :=
  match p, s with
  | EmptyString, _ => true
  | String a p', String b s' => bool_decide (a = b) && startswith p' s'
  | String _ _, EmptyString => false
  end.

(** ["--" in s] *)
Fixpoint has_double_hyphen (s : string) : bool :=
  match s with
  | String a (String b _ as r) => (is_hyphen a && is_hyphen b) || has_double_hyphen r
  | _ => false
  end.

(** The position [$] of a pattern compiled without flags: the end of the
    string, or just before a newline that is the last character. *)
Definition at_dollar (s : string) : bool :=
  match s with
  | EmptyString => true
  | String c EmptyString => bool_decide (c = newline)
  | _ => false
  end.

(** ** Exceptions and results *)

Inductive exn :=
| ValidationError (message : string)
| NotFoundError (message : string)
| DevboxPermissionError (message : string)
| SecretError (message : string)
| PodmanError (message : string)
| CalledProcessError (cmd : list string)
| FileNotFoundError
| JSONDecodeError
| KeyError (key : string)
| TypeError
| AttributeError
| SystemExit (status : Z).

(** The subclasses of [DevboxError], with the message they carry. *)
Definition DevboxError_message (e : exn) : option string :=
  match e with
  | ValidationError m | NotFoundError m | DevboxPermissionError m
  | SecretError m | PodmanError m => Some m
  | _ => None
  end.

Inductive result (A : Type) :=
| Ok (a : A)
| Raise (e : exn).
Arguments Ok {A} a.
Arguments Raise {A} e.

(** ** Validation *)

(** [[a-z0-9-]{1,61}[a-z0-9]$] against [s], [k] characters of the repetition
    being consumed already: either the repetition stops here (it has one
    character at least) and the closing class and [$] follow, or it takes
    one more character (it has fewer than 61). *)
Fixpoint name_tail (k : nat) (s : string) : bool :=
  match s with
  | String c r =>
      ((1 <=? k)%nat && is_lower_or_digit c && at_dollar r)
      || ((k <? 61)%nat && is_name_char c && name_tail (S k) r)
  | EmptyString => false
  end.

(** [NAME_PATTERN.match(name)] for [^[a-z][a-z0-9-]{1,61}[a-z0-9]$]. *)
Definition NAME_PATTERN_match (name : string) : bool :=
  match name with
  | String c r => is_lower c && name_tail 0 r
  | EmptyString => false
  end.

Definition validate_container_name (name : string) : result unit :=
  if (Z.of_nat (String.length name) <? 3) then
    Raise (ValidationError ("Container name too short: " +:+ name))
  else if (Z.of_nat (String.length name) >? 63) then
    Raise (ValidationError ("Container name too long: " +:+ name))
  else if negb (NAME_PATTERN_match name) then
    Raise (ValidationError ("Invalid container name: " +:+ name))
  else if has_double_hyphen name then
    Raise (ValidationError ("Invalid container name: " +:+ name))
  else Ok tt.

(** [\d+[MG]$] against [s]; [seen] tells whether a digit is consumed. Below
    code point 256 the decimal digits, which are what [\d] matches in a
    [str], are [0] to [9]; the digits of other scripts, which [\d] matches
    as well, lie above: [memory_match] further down is the same pattern on
    the code points of any [str]. *)
Fixpoint memory_tail (seen : bool) (s : string) : bool :=
  match s with
  | String c r =>
      (seen && (bool_decide (c = "M"%char) || bool_decide (c = "G"%char)) && at_dollar r)
      || (is_digit c && memory_tail true r)
  | EmptyString => false
  end.

Definition validate_memory (memory : string) : result unit :=
  if negb (memory_tail false memory) then
    Raise (ValidationError ("Invalid memory format: " +:+ memory))
  else Ok tt.

Definition validate_cpu (cpu : Z) : result unit :=
  if (cpu <? 1) || (cpu >? 64) then
    Raise (ValidationError ("Invalid CPU limit: " +:+ pretty cpu))
  else Ok tt.

(** The identifier format in the words of the specification: 3 to 63
    characters, each a lowercase letter, a digit or a hyphen; the first a
    letter; the last a letter or a digit; no two hyphens in a row. *)
Fixpoint all_chars (p : ascii → bool) (s : string) : bool :=
  match s with
  | String c r => p c && all_chars p r
  | EmptyString => true
  end.

Definition first_char (p : ascii → bool) (s : string) : bool :=
  match s with
  | String c _ => p c
  | EmptyString => false
  end.

Fixpoint last_char (p : ascii → bool) (s : string) : bool :=
  match s with
  | String c EmptyString => p c
  | String _ r => last_char p r
  | EmptyString => false
  end.

Definition name_format (name : string) : bool :=
  (3 <=? String.length name)%nat && (String.length name <=? 63)%nat
  && all_chars is_name_char name
  && first_char is_lower name
  && last_char is_lower_or_digit name
  && negb (has_double_hyphen name).

Definition accepted (r : result unit) : bool :=
  match r with Ok _ => true | Raise _ => false end.

(** ** JSON values and the Python operations applied to them *)

Inductive json :=
| JNull
| JBool (b : bool)
| JInt (z : Z)
| JStr (s : string)
| JList (items : list json)
| JDict (d : gmap string json).

(** [v[key]] with a [str] key: only a dict can be subscripted by it. *)
Definition getitem (v : json) (key : string) : result json :=
  match v with
  | JDict d =>
      match d !! key with
      | Some x => Ok x
      | None => Raise (KeyError key)
      end
  | _ => Raise TypeError
  end.

(** [v[key] = x] with a [str] key. *)
Definition setitem (v : json) (key : string) (x : json) : result json :=
  match v with
  | JDict d => Ok (JDict (<[key:=x]> d))
  | _ => Raise TypeError
  end.

(** The elements [for c in v] runs through: the items of a list, the keys
    of a dict, the characters of a string. *)
Definition iterate (v : json) : result (list json) :=
  match v with
  | JList items => Ok items
  | JDict d => Ok (JStr <$> (map_to_list d).*1)
  | JStr s => Ok ((λ c, JStr (String c EmptyString)) <$> String.list_ascii_of_string s)
  | _ => Raise TypeError
  end.

(** [len(v)] *)
Definition len (v : json) : result Z :=
  match v with
  | JList items => Ok (Z.of_nat (length items))
  | JDict d => Ok (Z.of_nat (size d))
  | JStr s => Ok (Z.of_nat (String.length s))
  | _ => Raise TypeError
  end.

(** [v == s] for a [str] [s] *)
Definition eq_str (v : json) (s : string) : bool :=
  match v with
  | JStr t => bool_decide (t = s)
  | _ => false
  end.

(** [bool(v)] *)
Definition truthy (v : json) : bool :=
  match v with
  | JNull => false
  | JBool b => b
  | JInt z => negb (z =? 0)
  | JStr s => negb (String.length s =? 0)%nat
  | JList items => negb (length items =? 0)%nat
  | JDict d => negb (size d =? 0)%nat
  end.

(** [v.append(x)]: only a list has the method. *)
Definition append (v x : json) : result json :=
  match v with
  | JList items => Ok (JList (items ++ [x]))
  | _ => Raise AttributeError
  end.

(** [v.update(updates)] on a dict: the keys of [updates] win. *)
Definition dict_update (v : json) (updates : gmap string json) : result json :=
  match v with
  | JDict d => Ok (JDict (updates ∪ d))
  | _ => Raise AttributeError
  end.

Definition opt_str (o : option string) : json :=
  match o with
  | Some s => JStr s
  | None => JNull
  end.

(** ** The world a command runs in *)

(** The registry file holds text that [json.load] decodes to a document, or
    text that it rejects (an empty file, for one). *)
Inductive content :=
| Document (doc : json)
| Undecodable.

(** What [subprocess.run] does with a command: the program exits with a
    status and its captured output, or there is no such program. *)
Inductive outcome :=
| Exited (returncode : Z) (out err : string)
| NoSuchProgram.

Record CompletedProcess := {
  returncode : Z;
  stdout : string;
  stderr : string
}.

(** [registry_file]: the content of [REGISTRY_FILE], [None] while the file
    does not exist. [calls]: the commands run so far, the latest last.
    [errors]: the lines echoed to the error stream, but for those made of
    the detail or the suggestion of an error. *)
Record world := {
  registry_file : option content;
  calls : list (list string);
  errors : list string
}.

Definition with_file (f : option content) (w : world) : world :=
  {| registry_file := f; calls := calls w; errors := errors w |}.

(** The configuration read from the process environment and the answers of
    everything outside the program. *)
Record env := {
  USER : string;
  OP_SERVICE_ACCOUNT_TOKEN : option string;
  OP_VAULT : string;
  MAX_PER_USER : Z;
  MAX_GLOBAL : Z;
  CONTAINER_IMAGE : string;
  subprocess_run : list (list string) → list string → outcome;
  utcnow : list (list string) → string;
  confirm : list (list string) → bool
}.

(** ** Computations: state passing with exceptions *)

Definition M (A : Type) : Type := world → result A * world.

Definition ret {A} (a : A) : M A := λ w, (Ok a, w).

Definition raise {A} (e : exn) : M A := λ w, (Raise e, w).

Definition bind {A B} (c : M A) (k : A → M B) : M B :=
  λ w, match c w with
       | (Ok a, w') => k a w'
       | (Raise e, w') => (Raise e, w')
       end.

(** [try: c except Exception as e: h e]. The one exception of [exn] that is
    no [Exception], [SystemExit], is raised by the handler that ends a
    command and nowhere inside a [try]. *)
Definition try_except {A} (c : M A) (h : exn → M A) : M A :=
  λ w, match c w with
       | (Ok a, w') => (Ok a, w')
       | (Raise e, w') => h e w'
       end.

Definition lift {A} (r : result A) : M A := λ w, (r, w).

Notation "x <- c ;; k" := (bind c (λ x, k))
  (at level 100, c at next level, right associativity).
Notation "c ;;; k" := (bind c (λ _, k))
  (at level 100, right associativity).

(** [click.echo(..., err=True)] *)
Definition echo_err (line : string) : M unit :=
  λ w, (Ok tt, {| registry_file := registry_file w; calls := calls w;
                  errors := errors w ++ [line] |}).

(** The handler every command ends with: a [DevboxError] is reported and
    turned into exit status 1, anything else propagates. *)
Definition exit_on_DevboxError (body : M unit) : M unit :=
  try_except body (λ e,
    match DevboxError_message e with
    | Some m => echo_err ("Error: " +:+ m) ;;; raise (SystemExit 1)
    | None => raise e
    end).

(** ** Registry records *)

(** The fields [add_container] gives a new record. *)
Definition record_fields (name owner : string) (cpu : Z) (memory : string)
    (with_syncthing : bool) (timestamp : string) : gmap string json :=
  <["name" := JStr name]>
  (<["owner" := JStr owner]>
  (<["state" := JStr "creating"]>
  (<["createdAt" := JStr timestamp]>
  (<["lastActivityAt" := JStr timestamp]>
  (<["cpuLimit" := JInt cpu]>
  (<["memoryLimit" := JStr memory]>
  (<["volumeName" := JStr (name +:+ "-data")]>
  (<["tailscaleHostname" := JStr name]>
  (<["tailscaleIP" := JNull]>
  (<["withSyncthing" := JBool with_syncthing]> ∅)))))))))).

Definition new_record (name owner : string) (cpu : Z) (memory : string)
    (with_syncthing : bool) (timestamp : string) : json :=
  JDict (record_fields name owner cpu memory with_syncthing timestamp).

(** [{"version": 1, "containers": []}] *)
Definition empty_registry : json :=
  JDict (<["version" := JInt 1]> (<["containers" := JList []]> ∅)).

(** The loop of [get_container]. *)
Fixpoint find_container (name : string) (items : list json) : result (option json) :=
  match items with
  | [] => Ok None
  | container :: rest =>
      match getitem container "name" with
      | Raise e => Raise e
      | Ok v => if eq_str v name then Ok (Some container) else find_container name rest
      end
  end.

(** The loop of [update_container]: the first container of that name is
    updated, the search stops there. *)
Fixpoint update_first (name : string) (updates : gmap string json)
    (items : list json) : result (list json) :=
  match items with
  | [] => Ok []
  | container :: rest =>
      match getitem container "name" with
      | Raise e => Raise e
      | Ok v =>
          if eq_str v name then
            match dict_update container updates with
            | Raise e => Raise e
            | Ok container' => Ok (container' :: rest)
            end
          else
            match update_first name updates rest with
            | Raise e => Raise e
            | Ok rest' => Ok (container :: rest')
            end
      end
  end.

(** [[c for c in items if c["name"] != name]] *)
Fixpoint remove_named (name : string) (items : list json) : result (list json) :=
  match items with
  | [] => Ok []
  | c :: rest =>
      match getitem c "name" with
      | Raise e => Raise e
      | Ok v =>
          match remove_named name rest with
          | Raise e => Raise e
          | Ok rest' => Ok (if eq_str v name then rest' else c :: rest')
          end
      end
  end.

(** [sum(1 for c in items if c["owner"] == user)] *)
Fixpoint count_owned (user : string) (items : list json) : result Z :=
  match items with
  | [] => Ok 0
  | c :: rest =>
      match getitem c "owner" with
      | Raise e => Raise e
      | Ok v =>
          match count_owned user rest with
          | Raise e => Raise e
          | Ok n => Ok (if eq_str v user then 1 + n else n)
          end
      end
  end.

(** [[c for c in items if c["owner"] == user]] *)
Fixpoint owned_by (user : string) (items : list json) : result (list json) :=
  match items with
  | [] => Ok []
  | c :: rest =>
      match getitem c "owner" with
      | Raise e => Raise e
      | Ok v =>
          match owned_by user rest with
          | Raise e => Raise e
          | Ok rest' => Ok (if eq_str v user then c :: rest' else rest')
          end
      end
  end.

Section Program.

Variable E : env.

(** ** Utilities *)

Definition get_current_user : string := USER E.

Definition get_timestamp : M string := λ w, (Ok (utcnow E (calls w)), w).

(** [run_command(cmd, check=check)]: the command joins the history whatever
    comes of it. *)
Definition run_command (cmd : list string) (check : bool) : M CompletedProcess :=
  λ w,
    let w' := {| registry_file := registry_file w; calls := calls w ++ [cmd];
                 errors := errors w |} in
    match subprocess_run E (calls w) cmd with
    | NoSuchProgram => (Raise FileNotFoundError, w')
    | Exited rc out err =>
        if check && negb (rc =? 0) then (Raise (CalledProcessError cmd), w')
        else (Ok {| returncode := rc; stdout := out; stderr := err |}, w')
    end.

Definition is_admin (user : string) : M bool :=
  try_except
    (result <- run_command ["groups"; user] false ;;
     let groups := split (strip (stdout result)) in
     ret (bool_decide ("wheel" ∈ groups) || bool_decide ("sudo" ∈ groups)))
    (λ _, ret false).

(** ** Registry management *)

(** Inside one process the exclusive creation and the first write are one
    step; the locks, which only matter between processes, are left to the
    interleaving model further down. *)
Definition init_registry : M unit :=
  λ w, match registry_file w with
       | None => (Ok tt, with_file (Some (Document empty_registry)) w)
       | Some _ => (Ok tt, w)
       end.

(** [json.load(f)] on the open registry file *)
Definition json_load : M json :=
  λ w, match registry_file w with
       | Some (Document doc) => (Ok doc, w)
       | Some Undecodable => (Raise JSONDecodeError, w)
       | None => (Raise FileNotFoundError, w)
       end.

(** The file is emptied and [json.dump(registry, f, indent=2)] fills it. *)
Definition json_dump (registry : json) : M unit :=
  λ w, (Ok tt, with_file (Some (Document registry)) w).

Definition load_registry : M json :=
  init_registry ;;; json_load.

Definition save_registry (registry : json) : M unit :=
  json_dump registry.

Definition get_container (name : string) : M (option json) :=
  registry <- load_registry ;;
  containers <- lift (getitem registry "containers") ;;
  items <- lift (iterate containers) ;;
  lift (find_container name items).

Definition container_exists (name : string) : M bool :=
  found <- get_container name ;;
  ret (match found with Some _ => true | None => false end).

(** The list inside the loaded registry is appended to in place, so the
    registry that is written back holds the longer list. *)
Definition add_container (name owner : string) (cpu : Z) (memory : string)
    (with_syncthing : bool) : M unit :=
  init_registry ;;;
  registry <- json_load ;;
  timestamp <- get_timestamp ;;
  containers <- lift (getitem registry "containers") ;;
  containers' <- lift (append containers
                    (new_record name owner cpu memory with_syncthing timestamp)) ;;
  registry' <- lift (setitem registry "containers" containers') ;;
  json_dump registry'.

(** The matching container is a dict of the loaded list and is updated in
    place; when [containers] is not a list the loop can only run over no
    element at all, and the registry is written back as it was. *)
Definition update_container (name : string) (updates : gmap string json) : M unit :=
  init_registry ;;;
  registry <- json_load ;;
  containers <- lift (getitem registry "containers") ;;
  items <- lift (iterate containers) ;;
  items' <- lift (update_first name updates items) ;;
  registry' <- lift (match containers with
                     | JList _ => setitem registry "containers" (JList items')
                     | _ => Ok registry
                     end) ;;
  json_dump registry'.

Definition remove_container (name : string) : M unit :=
  init_registry ;;;
  registry <- json_load ;;
  containers <- lift (getitem registry "containers") ;;
  items <- lift (iterate containers) ;;
  kept <- lift (remove_named name items) ;;
  registry' <- lift (setitem registry "containers" (JList kept)) ;;
  json_dump registry'.

Definition count_user_containers (user : string) : M Z :=
  registry <- load_registry ;;
  containers <- lift (getitem registry "containers") ;;
  items <- lift (iterate containers) ;;
  lift (count_owned user items).

Definition count_all_containers : M Z :=
  registry <- load_registry ;;
  containers <- lift (getitem registry "containers") ;;
  lift (len containers).

Definition get_user_containers (user : string) : M (list json) :=
  registry <- load_registry ;;
  containers <- lift (getitem registry "containers") ;;
  items <- lift (iterate containers) ;;
  lift (owned_by user items).

Definition get_all_containers : M json :=
  registry <- load_registry ;;
  lift (getitem registry "containers").

(** ** 1Password *)

Definition check_op_cli : M unit :=
  try_except (run_command ["op"; "--version"] true ;;; ret tt)
    (λ e, match e with
          | FileNotFoundError => raise (SecretError "1Password CLI not found")
          | _ => raise e
          end).

Definition check_op_auth : M unit :=
  match OP_SERVICE_ACCOUNT_TOKEN E with
  | None | Some EmptyString =>
      raise (SecretError "1Password Service Account not configured")
  | Some _ =>
      try_except (run_command ["op"; "vault"; "list"; "--format=json"] true ;;; ret tt)
        (λ e, match e with
              | CalledProcessError _ => raise (SecretError "1Password authentication failed")
              | _ => raise e
              end)
  end.

Definition get_tailscale_authkey (username : string) : M string :=
  check_op_cli ;;;
  check_op_auth ;;;
  let item_name := username +:+ "-tailscale-authkey" in
  let reference := "op://" +:+ OP_VAULT E +:+ "/" +:+ item_name +:+ "/password" in
  authkey <- try_except
      (result <- run_command ["op"; "read"; reference; "--no-newline"] true ;;
       ret (stdout result))
      (λ e, match e with
            | CalledProcessError _ => raise (SecretError "Failed to retrieve Tailscale auth key")
            | _ => raise e
            end) ;;
  if (String.length authkey =? 0)%nat then
    raise (SecretError "Tailscale auth key is empty")
  else if negb (startswith "tskey-" authkey) then
    raise (SecretError "Invalid Tailscale auth key format")
  else ret authkey.

Definition get_tailscale_tags (username : string) : string :=
  "tag:devcontainer,tag:" +:+ username +:+ "-container".

(** ** Podman *)

Definition check_podman : M unit :=
  try_except (run_command ["podman"; "--version"] true ;;; ret tt)
    (λ e, match e with
          | FileNotFoundError => raise (PodmanError "Podman not found")
          | _ => raise e
          end).

Definition podman_volume_exists (name : string) : M bool :=
  result <- run_command ["podman"; "volume"; "exists"; name] false ;;
  ret (returncode result =? 0).

Definition podman_create_volume (name : string) : M unit :=
  run_command ["podman"; "volume"; "create"; name] true ;;; ret tt.

Definition podman_remove_volume (name : string) : M unit :=
  run_command ["podman"; "volume"; "rm"; name] false ;;; ret tt.

Definition podman_container_exists (name : string) : M bool :=
  result <- run_command ["podman"; "container"; "exists"; name] false ;;
  ret (returncode result =? 0).

Definition podman_container_state (name : string) : M (option string) :=
  present <- podman_container_exists name ;;
  if negb present then ret None
  else
    result <- run_command ["podman"; "inspect"; "--format"; "{{.State.Status}}"; name] false ;;
    ret (if returncode result =? 0 then Some (strip (stdout result)) else None).

(** A failing podman command becomes a [PodmanError] with this message. *)
Definition podman_or (message : string) (cmd : list string) : M unit :=
  try_except (run_command cmd true ;;; ret tt)
    (λ e, match e with
          | CalledProcessError _ => raise (PodmanError message)
          | _ => raise e
          end).

Definition podman_start_container (name : string) : M unit :=
  podman_or ("Failed to start container: " +:+ name) ["podman"; "start"; name].

Definition podman_stop_container (name : string) : M unit :=
  podman_or ("Failed to stop container: " +:+ name) ["podman"; "stop"; name].

Definition podman_remove_container (name : string) (force : bool) : M unit :=
  podman_or ("Failed to remove container: " +:+ name)
    (["podman"; "rm"] ++ (if force then ["-f"] else []) ++ [name]).

Definition podman_run_container (name volume : string) (cpu : Z)
    (memory authkey tags : string) (with_syncthing : bool) : M unit :=
  podman_or ("Failed to create container: " +:+ name)
    ["podman"; "run"; "-d"; "--name"; name; "--hostname"; name;
     "--cpus"; pretty cpu; "--memory"; memory;
     "-v"; volume +:+ ":/home/dev:Z";
     "-e"; "TS_AUTHKEY=" +:+ authkey;
     "-e"; "TS_TAGS=" +:+ tags;
     "-e"; "CONTAINER_NAME=" +:+ name;
     "-e"; "SYNCTHING_ENABLED=" +:+ (if with_syncthing then "true" else "false");
     "--cap-add=NET_ADMIN"; "--restart=unless-stopped"; CONTAINER_IMAGE E].

(** At most [timeout] polls, one second apart; a poll that raises counts
    as a poll without an address. *)
Fixpoint wait_for_tailscale (name : string) (timeout : nat) : M (option string) :=
  match timeout with
  | O => ret None
  | S timeout' =>
      polled <- try_except
          (result <- run_command ["podman"; "exec"; name; "tailscale"; "ip"; "-4"] false ;;
           ret (if (returncode result =? 0)
                   && negb (String.length (strip (stdout result)) =? 0)%nat
                then Some (strip (stdout result)) else None))
          (λ _, ret None) ;;
      match polled with
      | Some ip => ret (Some ip)
      | None => wait_for_tailscale name timeout'
      end
  end.

(** ** Commands *)

Definition click_confirm : M bool := λ w, (Ok (confirm E (calls w)), w).

(** The lookup every command on an existing container starts with. *)
Definition lookup_or_NotFound (name : string) : M json :=
  container <- get_container name ;;
  match container with
  | Some c =>
      if truthy c then ret c
      else raise (NotFoundError ("Container not found: " +:+ name))
  | None => raise (NotFoundError ("Container not found: " +:+ name))
  end.

(** The owner, or else an administrator, may go on. *)
Definition owner_or_admin (container : json) : M unit :=
  let user := get_current_user in
  owner <- lift (getitem container "owner") ;;
  if eq_str owner user then ret tt
  else
    admin <- is_admin user ;;
    if admin then ret tt else raise (DevboxPermissionError "Permission denied").

(** [create], from the validation to the retrieval of the auth key: what
    runs before the record is added. *)
Definition create_admission (name : string) (cpu : Z) (memory : string)
    : M (string * string) :=
  let user := get_current_user in
  lift (validate_container_name name) ;;;
  lift (validate_cpu cpu) ;;;
  lift (validate_memory memory) ;;;
  present <- container_exists name ;;
  (if present then raise (ValidationError ("Container already exists: " +:+ name))
   else ret tt) ;;;
  user_count <- count_user_containers user ;;
  (if user_count >=? MAX_PER_USER E then raise (ValidationError "Container limit reached")
   else ret tt) ;;;
  global_count <- count_all_containers ;;
  (if global_count >=? MAX_GLOBAL E then
     raise (ValidationError "Global container limit reached")
   else ret tt) ;;;
  check_podman ;;;
  authkey <- get_tailscale_authkey user ;;
  ret (authkey, get_tailscale_tags user).

(** [create], the block guarded by the inner [try]: what runs once the
    record is in the registry. *)
Definition create_provision (name : string) (cpu : Z) (memory : string)
    (no_start with_syncthing : bool) (authkey tags : string) : M unit :=
  let volume_name := name +:+ "-data" in
  present <- podman_volume_exists volume_name ;;
  (if negb present then podman_create_volume volume_name else ret tt) ;;;
  if no_start then update_container name {["state" := JStr "stopped"]}
  else
    podman_run_container name volume_name cpu memory authkey tags with_syncthing ;;;
    ts_ip <- wait_for_tailscale name 60 ;;
    if truthy (opt_str ts_ip) then
      update_container name
        (<["state" := JStr "running"]> {["tailscaleIP" := opt_str ts_ip]})
    else update_container name {["state" := JStr "running"]}.

(** The clause [except Exception] of the inner [try]. *)
Definition create_cleanup (name : string) (e : exn) : M unit :=
  echo_err "Cleaning up after failure..." ;;;
  remove_container name ;;;
  raise e.

(** The body of the outer [try] of [create]. *)
Definition create_body (name : string) (cpu : Z) (memory : string)
    (no_start with_syncthing : bool) : M unit :=
  let user := get_current_user in
  key <- create_admission name cpu memory ;;
  add_container name user cpu memory with_syncthing ;;;
  try_except
    (create_provision name cpu memory no_start with_syncthing key.1 key.2)
    (create_cleanup name).

Definition create (name : string) (cpu : Z) (memory : string)
    (no_start with_syncthing : bool) : M unit :=
  exit_on_DevboxError (create_body name cpu memory no_start with_syncthing).

Definition start_body (name : string) : M unit :=
  container <- lookup_or_NotFound name ;;
  owner_or_admin container ;;;
  state <- lift (getitem container "state") ;;
  if eq_str state "running" then ret tt
  else
    check_podman ;;;
    podman_start_container name ;;;
    ts_ip <- wait_for_tailscale name 30 ;;
    timestamp <- get_timestamp ;;
    update_container name
      (<["state" := JStr "running"]>
       (<["tailscaleIP" := opt_str ts_ip]>
        {["lastActivityAt" := JStr timestamp]})).

Definition start (name : string) : M unit :=
  exit_on_DevboxError (start_body name).

Definition stop_body (name : string) : M unit :=
  container <- lookup_or_NotFound name ;;
  owner_or_admin container ;;;
  state <- lift (getitem container "state") ;;
  if eq_str state "stopped" then ret tt
  else
    check_podman ;;;
    podman_stop_container name ;;;
    timestamp <- get_timestamp ;;
    update_container name
      (<["state" := JStr "stopped"]> {["lastActivityAt" := JStr timestamp]}).

Definition stop (name : string) : M unit :=
  exit_on_DevboxError (stop_body name).

Definition destroy_body (name : string) (force keep_volume : bool) : M unit :=
  container <- lookup_or_NotFound name ;;
  owner_or_admin container ;;;
  go_on <- (if negb force then click_confirm else ret true) ;;
  if negb go_on then ret tt
  else
    check_podman ;;;
    state <- podman_container_state name ;;
    (if bool_decide (state = Some "running") then podman_stop_container name
     else ret tt) ;;;
    present <- podman_container_exists name ;;
    (if present then podman_remove_container name true else ret tt) ;;;
    let volume_name := name +:+ "-data" in
    (if negb keep_volume then podman_remove_volume volume_name else ret tt) ;;;
    remove_container name.

Definition destroy (name : string) (force keep_volume : bool) : M unit :=
  exit_on_DevboxError (destroy_body name force keep_volume).

(** The logout and the login with the new key of [rotate-key]. *)
Definition tailscale_reauth (name authkey tags : string) : M unit :=
  try_except
    (run_command ["podman"; "exec"; name; "tailscale"; "logout"] false ;;;
     run_command ["podman"; "exec"; name; "tailscale"; "up";
                  "--authkey=" +:+ authkey; "--ssh";
                  "--hostname=" +:+ name;
                  "--advertise-tags=" +:+ tags] true ;;;
     ret tt)
    (λ e, match e with
          | CalledProcessError _ => raise (PodmanError "Failed to rotate auth key")
          | _ => raise e
          end).

Definition rotate_key_body (name : string) : M unit :=
  let user := get_current_user in
  container <- lookup_or_NotFound name ;;
  owner_or_admin container ;;;
  state <- lift (getitem container "state") ;;
  (if negb (eq_str state "running") then raise (ValidationError "Container not running")
   else ret tt) ;;;
  check_podman ;;;
  authkey <- get_tailscale_authkey user ;;
  let tags := get_tailscale_tags user in
  tailscale_reauth name authkey tags ;;;
  timestamp <- get_timestamp ;;
  update_container name {["lastActivityAt" := JStr timestamp]}.

Definition rotate_key (name : string) : M unit :=
  exit_on_DevboxError (rotate_key_body name).

End Program.

(** ** Views of the registry used in the statements *)

(** The registry as the next reader finds it: a file that does not exist
    yet is created with the empty registry before it is read. *)
Definition registry_of (w : world) : content :=
  match registry_file w with
  | Some c => c
  | None => Document empty_registry
  end.

(** The world once [init_registry] has run. *)
Definition initialized (w : world) : world :=
  with_file (Some (registry_of w)) w.

(** [c] is a record whose name is [name]. *)
Definition has_name (name : string) (c : json) : bool :=
  match getitem c "name" with
  | Ok v => eq_str v name
  | Raise _ => false
  end.

(** [c] is a record with a name, and the name is not [name]. *)
Definition named_otherwise (name : string) (c : json) : bool :=
  match getitem c "name" with
  | Ok v => negb (eq_str v name)
  | Raise _ => false
  end.

(** Every element of [items] is a record named otherwise than [name]. *)
Definition none_named (name : string) (items : list json) : bool :=
  forallb (named_otherwise name) items.

(** A computation that leaves the registry file as it found it, whatever
    its result. *)
Definition keeps_file {A} (c : M A) : Prop :=
  ∀ w r w', c w = (r, w') → registry_file w' = registry_file w.

(** A computation after which a reader finds the registry it would have
    found before: it may create the missing file, no more. *)
Definition reads_only {A} (c : M A) : Prop :=
  ∀ w r w', c w = (r, w') → registry_of w' = registry_of w.

(** A computation that, when it raises, has not changed the registry. *)
Definition raises_clean {A} (c : M A) : Prop :=
  ∀ w e w', c w = (Raise e, w') → registry_of w' = registry_of w.

Definition is_ValidationError (e : exn) : bool :=
  match e with
  | ValidationError _ => true
  | _ => false
  end.

(** A result, and a computation, that is never a [ValidationError]. *)
Definition not_invalid {A} (x : result A) : Prop :=
  ∀ e, x = Raise e → is_ValidationError e = false.

Definition never_invalid {A} (c : M A) : Prop :=
  ∀ w e w', c w = (Raise e, w') → is_ValidationError e = false.

(** ** Sample data *)

(** A registry file of version [version] holding [items]. *)
Definition registry_doc (version : Z) (items : list json) : gmap string json :=
  <["version" := JInt version]> (<["containers" := JList items]> ∅).

Definition world_with (doc : json) : world :=
  {| registry_file := Some (Document doc); calls := []; errors := [] |}.

Definition sample_fields (name owner : string) : gmap string json :=
  record_fields name owner 2 "4G" false "2025-01-01T00:00:00Z".

(** A host on which the vault hands out a well-formed key and every
    command succeeds, except that [podman volume exists] exits with 1 and
    that the commands picked by [failing] exit with 125. *)
Definition sample_env_with (failing : list string → bool) : env :=
  {| USER := "alice";
     OP_SERVICE_ACCOUNT_TOKEN := Some "ops_sample";
     OP_VAULT := "DevBox";
     MAX_PER_USER := 5;
     MAX_GLOBAL := 7;
     CONTAINER_IMAGE := "localhost/devcontainer:latest";
     subprocess_run := λ _ cmd,
       if failing cmd then Exited 125 "" ""
       else if bool_decide (take 2 cmd = ["op"; "read"]) then
         Exited 0 "tskey-auth-sample" ""
       else if bool_decide (take 3 cmd = ["podman"; "volume"; "exists"]) then
         Exited 1 "" ""
       else Exited 0 "" "";
     utcnow := λ _, "2025-01-01T00:00:00Z";
     confirm := λ _, true |}.

(** The host on which nothing fails, and the one on which [podman run]
    does. *)
Definition sample_env : env := sample_env_with (λ _, false).

Definition failing_run_env : env :=
  sample_env_with (λ cmd, bool_decide (take 2 cmd = ["podman"; "run"])).

(** The host on which the login with the new key fails. *)
Definition failing_up_env : env :=
  sample_env_with (λ cmd, bool_decide (cmd !! 4%nat = Some "up")).

(** The same host, on which the address of a container shows at the
    second poll. *)
Definition poll (name : string) : list string :=
  ["podman"; "exec"; name; "tailscale"; "ip"; "-4"].

Definition polling_env : env :=
  {| USER := "alice";
     OP_SERVICE_ACCOUNT_TOKEN := Some "ops_sample";
     OP_VAULT := "DevBox";
     MAX_PER_USER := 5;
     MAX_GLOBAL := 7;
     CONTAINER_IMAGE := "localhost/devcontainer:latest";
     subprocess_run := λ history cmd,
       if bool_decide (cmd = poll "demo-env") then
         if bool_decide (poll "demo-env" ∈ history)
         then Exited 0 ("100.64.0.5" +:+ String newline EmptyString) ""
         else Exited 1 "" ""
       else subprocess_run sample_env history cmd;
     utcnow := λ _, "2025-01-01T00:00:00Z";
     confirm := λ _, true |}.

(** A registry of version 1 with the records of two owners. *)
Definition sample_world : world :=
  world_with (JDict (registry_doc 1
    [JDict (sample_fields "web" "bob"); JDict (sample_fields "demo-env" "alice")])).

(** A registry in which two records are called ["demo-env"], and updates
    as [start] makes them. *)
Definition twice_doc : gmap string json :=
  registry_doc 1
    ([JDict (sample_fields "web" "bob")]
     ++ JDict (sample_fields "demo-env" "alice")
     :: [JDict (sample_fields "demo-env" "carol")]).

Definition sample_updates : gmap string json :=
  <["state" := JStr "running"]> {["tailscaleIP" := JStr "100.64.0.5"]}.

(** The same registry once ["demo-env"] runs. *)
Definition running_fields : gmap string json :=
  <["state" := JStr "running"]> (sample_fields "demo-env" "alice").

Definition running_world : world :=
  world_with (JDict (registry_doc 1
    [JDict (sample_fields "web" "bob"); JDict running_fields])).

(** An empty registry of version 1, and one where alice is one record
    short of [MAX_PER_USER], or has reached it. *)
Definition empty_world : world := world_with (JDict (registry_doc 1 [])).

Definition alice_records (names : list string) : list json :=
  (λ name, JDict (sample_fields name "alice")) <$> names.

Definition four_world : world :=
  world_with (JDict (registry_doc 1
    (alice_records ["one-env"; "two-env"; "three-env"; "four-env"]))).

Definition five_world : world :=
  world_with (JDict (registry_doc 1
    (alice_records ["one-env"; "two-env"; "three-env"; "four-env"; "five-env"]))).

(** ** Concurrent calls of [add_container]

    Several processes run [add_container] at once. A process is a program
    counter; one step of one process is one system call, with the
    statements that lead to it, and a schedule picks, step after step, the
    process that moves and what its clock reads. [flock(LOCK_EX)] can be
    taken only while no process holds the lock.

    What [json.dump] writes goes to the buffer of the file object: a
    registry is far smaller than the buffer, and only [f.seek], [f.truncate]
    and the closing of the file at the end of the [with] block flush it.
    The file itself is therefore emptied by [f.truncate()], and filled when
    the [with] block is left, which is after the [finally] clause has
    released the lock. *)

(** The arguments of one call. *)
Record request := {
  req_name : string;
  req_owner : string;
  req_cpu : Z;
  req_memory : string;
  req_sync : bool
}.

Inductive pc :=
| AtInit                       (* init_registry: os.open(O_CREAT | O_EXCL) is next *)
| InitOpened                   (* the file is created, empty; flock(LOCK_EX) is next *)
| InitLocked                   (* json.dump of the empty registry is next *)
| InitBuffered                 (* finally: flock(LOCK_UN) is next *)
| InitUnlocked                 (* the end of the with block is next: the file is closed *)
| AtOpen                       (* open(REGISTRY_FILE, "r+") is next *)
| Opened                       (* flock(LOCK_EX) is next *)
| Locked                       (* json.load(f) is next *)
| Loaded (registry : json)     (* get_timestamp, append, f.seek(0), f.truncate() are next *)
| Truncated (registry : json)  (* json.dump(registry, f) is next *)
| Buffered (registry : json)   (* finally: flock(LOCK_UN) is next *)
| Unlocked (registry : json)   (* the end of the with block is next: the file is closed *)
| Failing (e : exn)            (* an exception is raised; finally: flock(LOCK_UN) is next *)
| Done
| Failed (e : exn).

Record system := {
  file : option content;
  lock : option nat;
  procs : list pc
}.

Definition record_of (entry : request * string) : json :=
  new_record (req_name entry.1) (req_owner entry.1) (req_cpu entry.1)
    (req_memory entry.1) (req_sync entry.1) entry.2.

(** The statements between [json.load] and [f.seek(0)]. *)
Definition appended (registry : json) (q : request) (timestamp : string) : result json :=
  match getitem registry "containers" with
  | Raise e => Raise e
  | Ok containers =>
      match append containers (record_of (q, timestamp)) with
      | Raise e => Raise e
      | Ok containers' => setitem registry "containers" containers'
      end
  end.

(** One step of process [i], which runs the call [q] and is at [p]:
    the new program counter, file and lock, or [None] when the process has
    ended or waits for the lock. A buffer is written from the start of the
    file; it always finds the file empty (the emptying process is the only
    writer until it has written), so that the file then holds the buffer and
    nothing else. *)
Definition proc_step (q : request) (timestamp : string) (i : nat) (p : pc)
    (f : option content) (l : option nat) : option (pc * option content * option nat) :=
  match p with
  | AtInit =>
      match f with
      | None => Some (InitOpened, Some Undecodable, l)
      | Some _ => Some (AtOpen, f, l)
      end
  | InitOpened =>
      match l with
      | None => Some (InitLocked, f, Some i)
      | Some _ => None
      end
  | InitLocked => Some (InitBuffered, f, l)
  | InitBuffered => Some (InitUnlocked, f, None)
  | InitUnlocked => Some (AtOpen, Some (Document empty_registry), l)
  | AtOpen =>
      match f with
      | None => Some (Failed FileNotFoundError, f, l)
      | Some _ => Some (Opened, f, l)
      end
  | Opened =>
      match l with
      | None => Some (Locked, f, Some i)
      | Some _ => None
      end
  | Locked =>
      match f with
      | Some (Document registry) => Some (Loaded registry, f, l)
      | _ => Some (Failing JSONDecodeError, f, l)
      end
  | Loaded registry =>
      match appended registry q timestamp with
      | Ok registry' => Some (Truncated registry', Some Undecodable, l)
      | Raise e => Some (Failing e, f, l)
      end
  | Truncated registry => Some (Buffered registry, f, l)
  | Buffered registry => Some (Unlocked registry, f, None)
  | Unlocked registry => Some (Done, Some (Document registry), l)
  | Failing e => Some (Failed e, f, None)
  | Done | Failed _ => None
  end.

(** One step of the system: process [i] moves. *)
Definition system_step (reqs : list request) (i : nat) (timestamp : string)
    (s : system) : option system :=
  match reqs !! i, procs s !! i with
  | Some q, Some p =>
      match proc_step q timestamp i p (file s) (lock s) with
      | Some (p', f', l') =>
          Some {| file := f'; lock := l'; procs := <[i := p']> (procs s) |}
      | None => None
      end
  | _, _ => None
  end.

(** A schedule runs as long as each of its steps can be taken. *)
Fixpoint run (reqs : list request) (schedule : list (nat * string)) (s : system)
    : option system :=
  match schedule with
  | [] => Some s
  | (i, timestamp) :: rest =>
      match system_step reqs i timestamp s with
      | Some s' => run reqs rest s'
      | None => None
      end
  end.

(** All calls are about to start, on a file that holds [registry]. *)
Definition initial (registry : json) (n : nat) : system :=
  {| file := Some (Document registry); lock := None; procs := replicate n AtInit |}.

Definition is_terminated (p : pc) : bool :=
  match p with
  | Done | Failed _ => true
  | _ => false
  end.

Definition finished (s : system) : bool := forallb is_terminated (procs s).

(** ** What the proofs about the interleavings need *)

(** The registry [d0] with the records of [entries] as its containers. *)
Definition stored (d0 : gmap string json) (entries : list (request * string)) : json :=
  JDict (<["containers" := JList (record_of <$> entries)]> d0).

(** The process is between taking and releasing the lock. *)
Definition holding (p : pc) : bool :=
  match p with
  | InitLocked | InitBuffered | Locked | Loaded _ | Truncated _ | Buffered _
  | Failing _ => true
  | _ => false
  end.

(** The process has emptied the file and not yet filled it. *)
Definition pending (p : pc) : bool :=
  match p with
  | Truncated _ | Buffered _ | Unlocked _ => true
  | _ => false
  end.

(** The registry in the buffer of the process. *)
Definition buffer_of (p : pc) : option json :=
  match p with
  | Truncated registry | Buffered registry | Unlocked registry => Some registry
  | _ => None
  end.

(** The record of the call is in the file. *)
Definition is_committed (p : pc) : bool :=
  match p with
  | Done => true
  | _ => false
  end.

(** The program counters of a call that found the file in place and met no
    exception but the one of [json.load]. *)
Definition on_track (p : pc) : bool :=
  match p with
  | AtInit | AtOpen | Opened | Locked | Loaded _ | Truncated _ | Buffered _
  | Unlocked _ | Done | Failing JSONDecodeError | Failed JSONDecodeError => true
  | _ => false
  end.

(** The calls whose record is in the file. *)
Fixpoint committed (reqs : list request) (ps : list pc) : list request :=
  match reqs, ps with
  | q :: reqs', p :: ps' =>
      (if is_committed p then [q] else []) ++ committed reqs' ps'
  | _, _ => []
  end.

(** The steps a process has before it at most. *)
Definition steps_left (p : pc) : nat :=
  match p with
  | AtInit => 12
  | InitOpened => 11
  | InitLocked => 10
  | InitBuffered => 9
  | InitUnlocked => 8
  | AtOpen => 7
  | Opened => 6
  | Locked => 5
  | Loaded _ => 4
  | Truncated _ => 3
  | Buffered _ => 2
  | Unlocked _ => 1
  | Failing _ => 1
  | Done | Failed _ => 0
  end.

Definition total_steps_left (ps : list pc) : nat := sum_list (steps_left <$> ps).

(** [t] names the one process, if any, whose program counter satisfies
    [f]. *)
Definition token (f : pc → bool) (t : option nat) (ps : list pc) : Prop :=
  (∀ j p, ps !! j = Some p → (f p = true ↔ t = Some j))
  ∧ (∀ j, t = Some j → (j < length ps)%nat).

(** The invariant of the interleavings that start from the registry [d0]
    with no container. The lock names the one process between locking and
    unlocking, and [writer] the one process that has emptied the file and
    not yet filled it; without a writer the file holds the records
    [entries] of the calls that are done; a registry that has been loaded
    is the one of the file, and no writer is around while it is held; the
    registry in a buffer is the one of the file with the record of the call
    after it. *)
Definition invariant (reqs : list request) (d0 : gmap string json) (s : system) : Prop :=
  length (procs s) = length reqs
  ∧ forallb on_track (procs s) = true
  ∧ token holding (lock s) (procs s)
  ∧ ∃ (writer : option nat) (entries : list (request * string)),
      token pending writer (procs s)
      ∧ entries.*1 ≡ₚ committed reqs (procs s)
      ∧ (∀ j registry, procs s !! j = Some (Loaded registry) →
           writer = None ∧ registry = stored d0 entries)
      ∧ (∀ j p registry q, procs s !! j = Some p → buffer_of p = Some registry →
           reqs !! j = Some q →
           ∃ timestamp, registry = stored d0 (entries ++ [(q, timestamp)]))
      ∧ file s = match writer with
                 | Some _ => Some Undecodable
                 | None => Some (Document (stored d0 entries))
                 end.

(** Three calls, and a schedule in which the second takes the lock first
    and each of the others takes it once the file is written. *)
Definition sample_requests : list request :=
  [ {| req_name := "one-env"; req_owner := "alice"; req_cpu := 2;
       req_memory := "4G"; req_sync := false |};
    {| req_name := "two-env"; req_owner := "bob"; req_cpu := 4;
       req_memory := "8G"; req_sync := true |};
    {| req_name := "three-env"; req_owner := "alice"; req_cpu := 1;
       req_memory := "512M"; req_sync := false |} ].

Definition at_noon (order : list nat) : list (nat * string) :=
  (λ i, (i, "2025-01-01T12:00:00Z")) <$> order.

Definition sample_schedule : list (nat * string) :=
  at_noon [1; 1; 1; 0; 1; 2; 1; 0; 2; 1; 1; 1;
           2; 2; 2; 2; 2; 2;
           0; 0; 0; 0; 0; 0]%nat.

(** Where the sample schedule leaves the three calls. *)
Definition sample_final : system :=
  default (initial JNull 0)
    (run sample_requests sample_schedule (initial (JDict (registry_doc 1 [])) 3)).

(** Two calls, and a schedule in which the second takes the lock after the
    first has released it and before the first has closed the file. *)
Definition racing_requests : list request := take 2 sample_requests.

Definition racing_schedule : list (nat * string) :=
  at_noon [0; 0; 0; 0; 0; 0; 0;
           1; 1; 1; 1; 1;
           0]%nat.

Definition racing_final : system :=
  default (initial JNull 0)
    (run racing_requests racing_schedule (initial (JDict (registry_doc 1 [])) 2)).

(** Names at the edges of the format: ["abc"] followed by a newline, and
    names of 63 and 64 letters. *)
Definition abc_newline : string := "abc" +:+ String newline EmptyString.

Definition letters (n : nat) : string :=
  String.string_of_list_ascii (replicate n "a"%char).

(** Two calls on a path where the registry file does not exist yet: the
    first creates the file, the second finds it and takes the lock before
    the first has written anything. *)
Definition fresh_schedule : list (nat * string) :=
  at_noon [0; 1; 1; 1; 1; 1; 0; 0; 0; 0; 0; 0; 0; 0; 0; 0; 0]%nat.

Definition fresh_final : system :=
  default (initial JNull 0)
    (run racing_requests fresh_schedule
       {| file := None; lock := None; procs := [AtInit; AtInit] |}).


(** ** The memory pattern on any string *)

(** The code points of a string of the model. *)
Definition points (s : string) : list Z := code <$> String.list_ascii_of_string s.

(** [$] on a list of code points. *)
Definition at_dollar_points (s : list Z) : bool :=
  match s with
  | [] => true
  | [c] => c =? 10
  | _ => false
  end.

(** [\d+[MG]$] against the code points [s] of any [str]: [is_decimal] tells
    the code points [\d] matches, which are the decimal digits of all
    scripts; [seen] tells whether a digit is consumed. *)
Fixpoint memory_tail_points (is_decimal : Z → bool) (seen : bool) (s : list Z) : bool :=
  match s with
  | c :: r =>
      (seen && ((c =? 77) || (c =? 71)) && at_dollar_points r)
      || (is_decimal c && memory_tail_points is_decimal true r)
  | [] => false
  end.

(** [re.match(r"^\d+[MG]$", memory)] finds a match. *)
Definition memory_match (is_decimal : Z → bool) (memory : list Z) : bool :=
  memory_tail_points is_decimal false memory.

(** The digits [0] to [9] and the Arabic-Indic digits, U+0660 to U+0669:
    some of the code points [\d] matches. *)
Definition sample_decimal (c : Z) : bool :=
  ((48 <=? c) && (c <=? 57)) || ((1632 <=? c) && (c <=? 1641)).

(** ** The commands that only read *)

(** [[c for c in items if c["state"] == state]] *)
Fixpoint in_state (state : string) (items : list json) : result (list json) :=
  match items with
  | [] => Ok []
  | c :: rest =>
      match getitem c "state" with
      | Raise e => Raise e
      | Ok v =>
          match in_state state rest with
          | Raise e => Raise e
          | Ok rest' => Ok (if eq_str v state then c :: rest' else rest')
          end
      end
  end.

Section Readers.

Variable E : env.

(** The command [list], up to the point where the containers to show are
    chosen: the rest of the command prints them. (Its own name is the one
    of the type of lists here.) The command has no handler of its own. *)
Definition list_selection (show_all : bool) (state : string) : M json :=
  let user := get_current_user E in
  containers <-
    (if show_all then
       admin <- is_admin E user ;;
       (if negb admin then
          echo_err "Error: --all requires admin privileges" ;;; raise (SystemExit 1)
        else ret tt) ;;;
       get_all_containers
     else
       items <- get_user_containers user ;; ret (JList items)) ;;
  if negb (bool_decide (state = "all")) then
    items <- lift (iterate containers) ;;
    kept <- lift (in_state state items) ;;
    ret (JList kept)
  else ret containers.

(** [podman_logs]: the command is run with the terminal as its output and
    its exit status is not looked at. *)
Definition podman_logs (name : string) (follow : bool) (tail : Z) : M unit :=
  run_command E (["podman"; "logs"] ++ (if follow then ["-f"] else [])
                 ++ ["--tail"; pretty tail] ++ [name]) false ;;;
  ret tt.

Definition logs_body (name : string) (follow : bool) (tail : Z) : M unit :=
  container <- lookup_or_NotFound name ;;
  owner_or_admin E container ;;;
  check_podman E ;;;
  podman_logs name follow tail.

Definition logs (name : string) (follow : bool) (tail : Z) : M unit :=
  exit_on_DevboxError (logs_body name follow tail).

(** [status]: of what it prints, the two fields it subscripts can be
    missing; the others are read with [get]. *)
Definition status_body (name : string) : M unit :=
  container <- lookup_or_NotFound name ;;
  owner_or_admin E container ;;;
  podman_container_state E name ;;;
  lift (getitem container "state") ;;;
  lift (getitem container "owner") ;;;
  ret tt.

Definition status (name : string) : M unit :=
  exit_on_DevboxError (status_body name).

End Readers.

(** ** Further views used in the statements *)

(** A computation that runs no command. *)
Definition silent {A} (c : M A) : Prop :=
  ∀ w r w', c w = (r, w') → calls w' = calls w.

(** A computation that runs commands of the kind [P] only. *)
Definition runs_only {A} (P : list string → bool) (c : M A) : Prop :=
  ∀ w r w', c w = (r, w') →
    ∃ new, calls w' = calls w ++ new ∧ forallb P new = true.

(** The two commands of the re-authentication of [rotate-key]. *)
Definition logout_command (name : string) : list string :=
  ["podman"; "exec"; name; "tailscale"; "logout"].

Definition up_command (name authkey tags : string) : list string :=
  ["podman"; "exec"; name; "tailscale"; "up";
   "--authkey=" +:+ authkey; "--ssh";
   "--hostname=" +:+ name;
   "--advertise-tags=" +:+ tags].

(** A command whose fifth word is [up], and any command that is not one. *)
Definition is_up (cmd : list string) : bool :=
  bool_decide (cmd !! 4%nat = Some "up").

Definition is_not_up (cmd : list string) : bool := negb (is_up cmd).

Definition any_command (cmd : list string) : bool := true.

(** What one poll of the address tells: the address printed, when the
    command exits with 0 and prints more than blanks. *)
Definition answer (o : outcome) : option string :=
  match o with
  | Exited rc out _ =>
      if (rc =? 0) && negb (String.length (strip out) =? 0)%nat
      then Some (strip out) else None
  | NoSuchProgram => None
  end.

(** The outcome of the [j]-th poll (from 0) made after [history]. *)
Definition poll_outcome (E : env) (name : string) (history : list (list string))
    (j : nat) : outcome :=
  subprocess_run E (history ++ replicate j (poll name)) (poll name).

(** [k] polls made after [history], with a limit of [timeout], have found
    [ts_ip]: no poll before the last has an answer; an address is the
    answer of the last poll; and no address means that all [timeout] polls
    were made and none has an answer. *)
Definition polled (E : env) (name : string) (history : list (list string))
    (timeout k : nat) (ts_ip : option string) : Prop :=
  (k ≤ timeout)%nat
  ∧ (∀ j, (S j < k)%nat → answer (poll_outcome E name history j) = None)
  ∧ match ts_ip with
    | Some ip => ∃ k', k = S k' ∧ answer (poll_outcome E name history k') = Some ip
    | None => k = timeout
              ∧ ∀ j, (j < timeout)%nat → answer (poll_outcome E name history j) = None
    end.

(** [c] is a record with a name. *)
Definition has_a_name (c : json) : bool :=
  match getitem c "name" with
  | Ok _ => true
  | Raise _ => false
  end.

(** [c] is a record owned by [user], and a record in state [state]. *)
Definition has_owner (user : string) (c : json) : bool :=
  match getitem c "owner" with
  | Ok v => eq_str v user
  | Raise _ => false
  end.

Definition has_state (state : string) (c : json) : bool :=
  match getitem c "state" with
  | Ok v => eq_str v state
  | Raise _ => false
  end.

(** The names of the stored records, as a lookup reads them: the list is
    empty when the registry holds no list of containers. *)
Definition names_of (c : content) : list (result json) :=
  match c with
  | Document (JDict d) =>
      match d !! "containers" with
      | Some (JList items) => (λ c, getitem c "name") <$> items
      | _ => []
      end
  | _ => []
  end.

(** No two stored records have the same name. *)
Definition unique_names (w : world) : Prop := NoDup (names_of (registry_of w)).

(** A computation that keeps the names of the registry unique. *)
Definition keeps_unique {A} (c : M A) : Prop :=
  ∀ w r w', c w = (r, w') → unique_names w → unique_names w'.

(** The commands that change nothing on the host: the lookups of groups,
    versions, containers and volumes, and the reading of logs. *)
Definition is_inspection (cmd : list string) : bool :=
  bool_decide (take 1 cmd = ["groups"])
  || bool_decide (cmd = ["podman"; "--version"])
  || bool_decide (take 3 cmd = ["podman"; "container"; "exists"])
  || bool_decide (take 2 cmd = ["podman"; "inspect"])
  || bool_decide (take 2 cmd = ["podman"; "logs"]).

(** The commands [rotate-key] may run: the inspections, the reading of the
    vault, and [tailscale] inside the container. *)
Definition is_reauthentication (name : string) (cmd : list string) : bool :=
  is_inspection cmd
  || bool_decide (take 1 cmd = ["op"])
  || bool_decide (take 4 cmd = ["podman"; "exec"; name; "tailscale"]).

(** [podman volume rm], and the commands that start a container or run
    something inside one. *)
Definition is_volume_rm (cmd : list string) : bool :=
  bool_decide (take 3 cmd = ["podman"; "volume"; "rm"]).

Definition is_launch (cmd : list string) : bool :=
  bool_decide (take 2 cmd = ["podman"; "run"])
  || bool_decide (take 2 cmd = ["podman"; "start"])
  || bool_decide (take 2 cmd = ["podman"; "exec"]).

(** The commands that leave the volumes alone, and those that launch
    nothing. *)
Definition is_not_volume_rm (cmd : list string) : bool := negb (is_volume_rm cmd).

Definition is_not_launch (cmd : list string) : bool := negb (is_launch cmd).

(** ** Further sample data *)

(** A registry file without a list of containers. *)
Definition broken_world : world := world_with (JDict {["version" := JInt 1]}).

(** A registry in which two records are called ["demo-env"]. *)
Definition twice_world : world := world_with (JDict twice_doc).

(** A registry at the global limit of the sample host, in which alice
    owns three containers of seven. *)
Definition full_world : world :=
  world_with (JDict (registry_doc 1
    (alice_records ["one-env"; "two-env"; "three-env"]
     ++ ((λ name, JDict (sample_fields name "bob")) <$>
           ["four-env"; "five-env"; "six-env"; "seven-env"])))).

(** The sample host without a service account token, the one where the
    prompt of [destroy] is declined, the one where [podman rm] fails, the
    one where bob is logged in, and the one where alice is an
    administrator. *)
Definition tokenless_env : env :=
  {| USER := "alice";
     OP_SERVICE_ACCOUNT_TOKEN := None;
     OP_VAULT := "DevBox";
     MAX_PER_USER := 5;
     MAX_GLOBAL := 7;
     CONTAINER_IMAGE := "localhost/devcontainer:latest";
     subprocess_run := subprocess_run sample_env;
     utcnow := utcnow sample_env;
     confirm := confirm sample_env |}.

Definition declining_env : env :=
  {| USER := "alice";
     OP_SERVICE_ACCOUNT_TOKEN := Some "ops_sample";
     OP_VAULT := "DevBox";
     MAX_PER_USER := 5;
     MAX_GLOBAL := 7;
     CONTAINER_IMAGE := "localhost/devcontainer:latest";
     subprocess_run := subprocess_run sample_env;
     utcnow := utcnow sample_env;
     confirm := λ _, false |}.

Definition failing_rm_env : env :=
  sample_env_with (λ cmd, bool_decide (take 2 cmd = ["podman"; "rm"])).

Definition failing_stop_env : env :=
  sample_env_with (λ cmd, bool_decide (take 2 cmd = ["podman"; "stop"])).

Definition failing_start_env : env :=
  sample_env_with (λ cmd, bool_decide (take 2 cmd = ["podman"; "start"])).

(** The sample host some months later: the clock no longer reads what
    the sample records hold; and the same host when the login with the new
    key fails. *)
Definition later_env_with (failing : list string → bool) : env :=
  {| USER := "alice";
     OP_SERVICE_ACCOUNT_TOKEN := Some "ops_sample";
     OP_VAULT := "DevBox";
     MAX_PER_USER := 5;
     MAX_GLOBAL := 7;
     CONTAINER_IMAGE := "localhost/devcontainer:latest";
     subprocess_run := subprocess_run (sample_env_with failing);
     utcnow := λ _, "2025-06-01T12:00:00Z";
     confirm := confirm sample_env |}.

Definition later_env : env := later_env_with (λ _, false).

Definition later_failing_up_env : env := later_env_with is_up.

(** The commands [rotate-key] runs for alice on the sample host before the
    login with the new key. *)
Definition before_up : list (list string) :=
  [ ["podman"; "--version"];
    ["op"; "--version"];
    ["op"; "vault"; "list"; "--format=json"];
    ["op"; "read"; "op://DevBox/alice-tailscale-authkey/password"; "--no-newline"];
    logout_command "demo-env" ].

Definition bob_env : env :=
  {| USER := "bob";
     OP_SERVICE_ACCOUNT_TOKEN := Some "ops_sample";
     OP_VAULT := "DevBox";
     MAX_PER_USER := 5;
     MAX_GLOBAL := 7;
     CONTAINER_IMAGE := "localhost/devcontainer:latest";
     subprocess_run := subprocess_run sample_env;
     utcnow := utcnow sample_env;
     confirm := confirm sample_env |}.

Definition admin_env : env :=
  {| USER := "alice";
     OP_SERVICE_ACCOUNT_TOKEN := Some "ops_sample";
     OP_VAULT := "DevBox";
     MAX_PER_USER := 5;
     MAX_GLOBAL := 7;
     CONTAINER_IMAGE := "localhost/devcontainer:latest";
     subprocess_run := λ history cmd,
       if bool_decide (take 1 cmd = ["groups"]) then
         Exited 0 ("alice : users wheel" +:+ String newline EmptyString) ""
       else subprocess_run sample_env history cmd;
     utcnow := utcnow sample_env;
     confirm := confirm sample_env |}.

(** One call that runs alone on the empty registry, from its first step to
    its last. *)
Definition solo_request : request :=
  {| req_name := "one-env"; req_owner := "alice"; req_cpu := 2;
     req_memory := "4G"; req_sync := false |}.

Definition solo_final : system :=
  default (initial JNull 0)
    (run [solo_request] ((λ _, (0%nat, "2025-01-01T00:00:00Z")) <$> seq 0 8)
       {| file := registry_file empty_world; lock := None; procs := [AtInit] |}).

(** Where the two racing calls are once the first has released the lock
    and the second has taken it. *)
Definition racing_midway : system :=
  default (initial JNull 0)
    (run racing_requests (take 10 racing_schedule) (initial (JDict (registry_doc 1 [])) 2)).


(** * Properties *)

(** ** Names *)

Example name_ab : validate_container_name "ab"
  = Raise (ValidationError "Container name too short: ab").
Proof. reflexivity. Qed.

Example name_My_App : validate_container_name "My-App"
  = Raise (ValidationError "Invalid container name: My-App").
Proof. reflexivity. Qed.

Example name_a__b : validate_container_name "a--b"
  = Raise (ValidationError "Invalid container name: a--b").
Proof. reflexivity. Qed.

Example name_abc : validate_container_name "abc" = Ok tt.
Proof. reflexivity. Qed.

Example name_63 : validate_container_name (letters 63) = Ok tt.
Proof. reflexivity. Qed.

Example name_64 : accepted (validate_container_name (letters 64)) = false.
Proof. reflexivity. Qed.

(** C4 fails on the code at a name that ends in a newline: [$] in
    [NAME_PATTERN] also matches just before a final newline, so ["abc"]
    followed by a newline passes every check of [validate_container_name],
    although its last character is neither a letter nor a digit. *)
Theorem validate_container_name_trailing_newline :
  validate_container_name abc_newline = Ok tt
  ∧ name_format abc_newline = false
  ∧ last_char is_lower_or_digit abc_newline = false
  ∧ all_chars is_name_char abc_newline = false.
Proof. by repeat split. Qed.

Lemma at_dollar_true r :
  at_dollar r = true ↔ r = EmptyString ∨ r = String newline EmptyString.
Proof.
  destruct r as [|c [|c' r]]; simpl.
  - split; [by left | done].
  - rewrite bool_decide_eq_true. split; [intros ->; by right | by intros [|[= ->]]].
  - split; [done | by intros [|]].
Qed.

Lemma last_char_cons p c s :
  s ≠ EmptyString → last_char p (String c s) = last_char p s.
Proof. by destruct s. Qed.

Lemma last_char_nonempty p s : last_char p s = true → s ≠ EmptyString.
Proof. by destruct s. Qed.

(** What [name_tail] accepts: a stem of name characters that ends in a
    letter or a digit, of the right length, and then the end of the string
    or one newline. *)
Lemma name_tail_true k s :
  (k ≤ 61)%nat →
  name_tail k s = true ↔
  ∃ stem, (s = stem ∨ s = stem +:+ String newline EmptyString)
    ∧ all_chars is_name_char stem = true
    ∧ last_char is_lower_or_digit stem = true
    ∧ (2 ≤ k + String.length stem ≤ 62)%nat.
Proof.
  intros Hk. split.
  - revert k Hk. induction s as [|c r IH]; intros k Hk; [discriminate|].
    cbn [name_tail].
    intros [[[Hk1 Hc]%andb_true_iff Hr]%andb_true_iff
           |[[Hk1 Hc]%andb_true_iff Hr]%andb_true_iff]%orb_true_iff.
    + exists (String c EmptyString). apply Nat.leb_le in Hk1. simpl.
      apply at_dollar_true in Hr as [-> | ->]; repeat split; auto;
        unfold is_name_char; rewrite ?Hc; try done; lia.
    + apply Nat.ltb_lt in Hk1.
      destruct (IH (S k)) as (stem & Hs & Hall & Hlast & Hlen); [lia | done |].
      exists (String c stem). split; [|split; [|split]].
      * destruct Hs as [-> | ->]; auto.
      * simpl. by rewrite Hc.
      * rewrite last_char_cons; [done|]. by eapply last_char_nonempty.
      * simpl. lia.
  - intros (stem & Hs & Hall & Hlast & Hlen). revert k s Hk Hs Hlen.
    induction stem as [|c stem IH]; intros k s Hk Hs Hlen; [discriminate|].
    simpl in Hall. apply andb_true_iff in Hall as [Hc Hall].
    destruct stem as [|c' stem'].
    + simpl in Hlast, Hlen.
      destruct k as [|k']; [lia|].
      by destruct Hs as [-> | ->]; simpl; rewrite Hlast.
    + simpl in Hlen.
      assert (∃ r, s = String c r
                   ∧ (r = String c' stem'
                      ∨ r = String c' stem' +:+ String newline EmptyString))
        as (r & -> & Hr) by (destruct Hs as [-> | ->]; eauto).
      cbn [name_tail]. apply orb_true_iff. right. rewrite Hc.
      replace (k <? 61)%nat with true by (symmetry; apply Nat.ltb_lt; lia). simpl.
      apply IH; try done; simpl; lia.
Qed.

Lemma length_append_char s c :
  String.length (s +:+ String c EmptyString) = S (String.length s).
Proof. induction s as [|a s IH]; simpl; [done | by rewrite IH]. Qed.

Lemma has_double_hyphen_append_newline s :
  has_double_hyphen (s +:+ String newline EmptyString) = has_double_hyphen s.
Proof.
  induction s as [|a s IH]; [done|]. destruct s as [|b s].
  - simpl. by rewrite andb_false_r.
  - change (is_hyphen a && is_hyphen b
            || has_double_hyphen (String b s +:+ String newline EmptyString)
            = is_hyphen a && is_hyphen b || has_double_hyphen (String b s)).
    by rewrite IH.
Qed.

Lemma validate_container_name_Ok name :
  validate_container_name name = Ok tt ↔
  (3 ≤ String.length name ≤ 63)%nat
  ∧ NAME_PATTERN_match name = true
  ∧ has_double_hyphen name = false.
Proof.
  unfold validate_container_name.
  destruct (Z.ltb_spec (Z.of_nat (String.length name)) 3);
    [split; [discriminate | lia]|].
  destruct (Z.gtb_spec (Z.of_nat (String.length name)) 63);
    [split; [discriminate | lia]|].
  destruct (NAME_PATTERN_match name); simpl; [|split; [discriminate | by intros (_ & ? & _)]].
  destruct (has_double_hyphen name); [split; [discriminate | by intros (_ & _ & ?)]|].
  split; [|done]. intros _. repeat split; lia.
Qed.

Lemma NAME_PATTERN_match_true name :
  NAME_PATTERN_match name = true ↔
  ∃ body, (name = body ∨ name = body +:+ String newline EmptyString)
    ∧ all_chars is_name_char body = true
    ∧ first_char is_lower body = true
    ∧ last_char is_lower_or_digit body = true
    ∧ (3 ≤ String.length body ≤ 63)%nat.
Proof.
  split.
  - destruct name as [|c r]; [discriminate|]. simpl.
    intros [Hc (stem & Hs & Hall & Hlast & Hlen)%name_tail_true]%andb_true_iff; [|lia].
    exists (String c stem). split; [|split; [|split; [|split]]].
    + destruct Hs as [-> | ->]; auto.
    + simpl. unfold is_name_char, is_lower_or_digit. by rewrite Hc.
    + done.
    + rewrite last_char_cons; [done|]. by eapply last_char_nonempty.
    + simpl. lia.
  - intros (body & Hname & Hall & Hfirst & Hlast & Hlen).
    destruct body as [|c stem]; [discriminate|].
    simpl in Hall, Hfirst, Hlen. apply andb_true_iff in Hall as [_ Hall].
    assert (stem ≠ EmptyString) as Hne by (intros ->; simpl in Hlen; lia).
    rewrite last_char_cons in Hlast by done.
    assert (∃ r, name = String c r
                 ∧ (r = stem ∨ r = stem +:+ String newline EmptyString))
      as (r & -> & Hr) by (destruct Hname as [-> | ->]; eauto).
    simpl. rewrite Hfirst. simpl. apply name_tail_true; [lia|].
    exists stem. repeat split; try done; lia.
Qed.

Lemma name_format_true name :
  name_format name = true ↔
  (3 ≤ String.length name ≤ 63)%nat
  ∧ all_chars is_name_char name = true
  ∧ first_char is_lower name = true
  ∧ last_char is_lower_or_digit name = true
  ∧ has_double_hyphen name = false.
Proof.
  unfold name_format. rewrite !andb_true_iff, !Nat.leb_le, negb_true_iff. tauto.
Qed.

(** X1: the names [validate_container_name] accepts are those of the
    format, and those of the format followed by one newline. *)
Lemma validate_container_name_accepts name :
  validate_container_name name = Ok tt ↔
  name_format name = true
  ∨ ∃ stem, name = stem +:+ String newline EmptyString
      ∧ name_format stem = true ∧ (String.length stem ≤ 62)%nat.
Proof.
  rewrite validate_container_name_Ok, NAME_PATTERN_match_true. split.
  - intros (Hlen & (body & [-> | ->] & Hall & Hfirst & Hlast & Hblen) & Hdh).
    + left. by apply name_format_true.
    + right. exists body. rewrite length_append_char in Hlen.
      rewrite has_double_hyphen_append_newline in Hdh.
      split; [done|]. split; [by apply name_format_true | lia].
  - intros [H | (stem & -> & H & Hlen)];
      apply name_format_true in H as (Hflen & Hall & Hfirst & Hlast & Hdh).
    + split; [done|]. split; [|done]. exists name. auto.
    + rewrite length_append_char, has_double_hyphen_append_newline.
      split; [lia|]. split; [|done]. exists stem. auto.
Qed.

(** ** The monad *)

Lemma bind_Ok {A B} (c : M A) (k : A → M B) w a w1 :
  c w = (Ok a, w1) → bind c k w = k a w1.
Proof. intros H. unfold bind. by rewrite H. Qed.

Lemma bind_Raise {A B} (c : M A) (k : A → M B) w e w1 :
  c w = (Raise e, w1) → bind c k w = (Raise e, w1).
Proof. intros H. unfold bind. by rewrite H. Qed.

Lemma bind_inv {A B} (c : M A) (k : A → M B) w r w' :
  bind c k w = (r, w') →
  (∃ a w1, c w = (Ok a, w1) ∧ k a w1 = (r, w'))
  ∨ (∃ e, c w = (Raise e, w') ∧ r = Raise e).
Proof.
  unfold bind. destruct (c w) as [[a|e] w1]; intros H.
  - left. eauto.
  - right. inversion H; subst. eauto.
Qed.

Lemma bind_Ok_inv {A B} (c : M A) (k : A → M B) w b w' :
  bind c k w = (Ok b, w') →
  ∃ a w1, c w = (Ok a, w1) ∧ k a w1 = (Ok b, w').
Proof.
  intros H. apply bind_inv in H as [H|(e & _ & H)]; [done | discriminate].
Qed.

Lemma try_except_Raise {A} (c : M A) h w e w1 :
  c w = (Raise e, w1) → try_except c h w = h e w1.
Proof. intros H. unfold try_except. by rewrite H. Qed.

(** ** Computations that do not touch the registry file *)

Create HintDb keeps discriminated.

Lemma keeps_ret {A} (a : A) : keeps_file (ret a).
Proof. intros w r w' H. by inversion H. Qed.

Lemma keeps_raise {A} e : keeps_file (@raise A e).
Proof. intros w r w' H. by inversion H. Qed.

Lemma keeps_lift {A} (x : result A) : keeps_file (lift x).
Proof. intros w r w' H. by inversion H. Qed.

Lemma keeps_bind {A B} (c : M A) (k : A → M B) :
  keeps_file c → (∀ a, keeps_file (k a)) → keeps_file (bind c k).
Proof.
  intros Hc Hk w r w' H. apply bind_inv in H as [(a & w1 & H1 & H2)|(e & H1 & _)].
  - rewrite (Hk _ _ _ _ H2). eauto.
  - eauto.
Qed.

Lemma keeps_try_except {A} (c : M A) h :
  keeps_file c → (∀ e, keeps_file (h e)) → keeps_file (try_except c h).
Proof.
  intros Hc Hh w r w'. unfold try_except.
  destruct (c w) as [[a|e] w1] eqn:Hcw; intros H.
  - inversion H; subst. eauto.
  - rewrite (Hh _ _ _ _ H). eauto.
Qed.

Lemma keeps_echo_err line : keeps_file (echo_err line).
Proof. intros w r w' H. by inversion H. Qed.

Lemma keeps_get_timestamp E : keeps_file (get_timestamp E).
Proof. intros w r w' H. by inversion H. Qed.

Lemma keeps_click_confirm E : keeps_file (click_confirm E).
Proof. intros w r w' H. by inversion H. Qed.

Lemma keeps_run_command E cmd check : keeps_file (run_command E cmd check).
Proof.
  intros w r w'. unfold run_command.
  destruct (subprocess_run E (calls w) cmd) as [rc out err|];
    [destruct (check && negb (rc =? 0))|]; intros H; by inversion H.
Qed.

Lemma keeps_if {A} (b : bool) (c1 c2 : M A) :
  keeps_file c1 → keeps_file c2 → keeps_file (if b then c1 else c2).
Proof. by destruct b. Qed.

#[local] Hint Resolve keeps_ret keeps_raise keeps_lift keeps_echo_err
  keeps_get_timestamp keeps_click_confirm keeps_run_command : keeps.
#[local] Hint Extern 2 (keeps_file (bind _ _)) => apply keeps_bind; [|intros] : keeps.
#[local] Hint Extern 2 (keeps_file (try_except _ _)) =>
  apply keeps_try_except; [|intros] : keeps.
#[local] Hint Extern 2 (keeps_file (if _ then _ else _)) => apply keeps_if : keeps.
#[local] Hint Extern 3 (keeps_file (match ?x with _ => _ end)) => destruct x : keeps.

Ltac keeps := eauto 30 with keeps.

Lemma keeps_is_admin E user : keeps_file (is_admin E user).
Proof. unfold is_admin. keeps. Qed.

Lemma keeps_check_podman E : keeps_file (check_podman E).
Proof. unfold check_podman. keeps. Qed.

Lemma keeps_check_op_cli E : keeps_file (check_op_cli E).
Proof. unfold check_op_cli. keeps. Qed.

Lemma keeps_check_op_auth E : keeps_file (check_op_auth E).
Proof. unfold check_op_auth. keeps. Qed.

#[local] Hint Resolve keeps_is_admin keeps_check_podman keeps_check_op_cli
  keeps_check_op_auth : keeps.

Lemma keeps_get_tailscale_authkey E user : keeps_file (get_tailscale_authkey E user).
Proof. unfold get_tailscale_authkey. keeps. Qed.

Lemma keeps_podman_or E message cmd : keeps_file (podman_or E message cmd).
Proof. unfold podman_or. keeps. Qed.

Lemma keeps_podman_volume_exists E name : keeps_file (podman_volume_exists E name).
Proof. unfold podman_volume_exists. keeps. Qed.

Lemma keeps_podman_create_volume E name : keeps_file (podman_create_volume E name).
Proof. unfold podman_create_volume. keeps. Qed.

Lemma keeps_podman_remove_volume E name : keeps_file (podman_remove_volume E name).
Proof. unfold podman_remove_volume. keeps. Qed.

Lemma keeps_podman_container_exists E name : keeps_file (podman_container_exists E name).
Proof. unfold podman_container_exists. keeps. Qed.

#[local] Hint Resolve keeps_get_tailscale_authkey keeps_podman_or
  keeps_podman_volume_exists keeps_podman_create_volume keeps_podman_remove_volume
  keeps_podman_container_exists : keeps.

Lemma keeps_podman_container_state E name : keeps_file (podman_container_state E name).
Proof. unfold podman_container_state. keeps. Qed.

Lemma keeps_podman_run_container E name volume cpu memory authkey tags sync :
  keeps_file (podman_run_container E name volume cpu memory authkey tags sync).
Proof. unfold podman_run_container. keeps. Qed.

Lemma keeps_wait_for_tailscale E name timeout :
  keeps_file (wait_for_tailscale E name timeout).
Proof. induction timeout as [|n IH]; simpl; keeps. Qed.

Lemma keeps_tailscale_reauth E name authkey tags :
  keeps_file (tailscale_reauth E name authkey tags).
Proof. unfold tailscale_reauth. keeps. Qed.

#[local] Hint Resolve keeps_podman_container_state keeps_podman_run_container
  keeps_wait_for_tailscale keeps_tailscale_reauth : keeps.

(** ** Searching, updating and filtering the list of records *)

Lemma eq_str_true v s : eq_str v s = true ↔ v = JStr s.
Proof.
  destruct v; simpl; try (split; [discriminate | intros [=]]).
  rewrite bool_decide_eq_true. split; [by intros -> | by intros [= ->]].
Qed.

Lemma named_otherwise_getitem name c :
  named_otherwise name c = true →
  ∃ v, getitem c "name" = Ok v ∧ eq_str v name = false.
Proof.
  unfold named_otherwise. destruct (getitem c "name") as [v|]; [|discriminate].
  intros H%negb_true_iff. eauto.
Qed.

Lemma named_otherwise_has_name name c :
  named_otherwise name c = true → has_name name c = false.
Proof.
  intros H. apply named_otherwise_getitem in H as (v & Hg & Hv).
  unfold has_name. by rewrite Hg.
Qed.

Lemma getitem_Ok c key v :
  getitem c key = Ok v → ∃ d, c = JDict d ∧ d !! key = Some v.
Proof.
  destruct c; simpl; try discriminate.
  destruct (d !! key) eqn:Hd; intros [= <-]. eauto.
Qed.

Lemma none_named_cons name c rest :
  none_named name (c :: rest) = true ↔
  named_otherwise name c = true ∧ none_named name rest = true.
Proof. unfold none_named. simpl. apply andb_true_iff. Qed.

Lemma find_container_None name items :
  find_container name items = Ok None ↔ none_named name items = true.
Proof.
  induction items as [|c rest IH]; [done|].
  rewrite none_named_cons. simpl. unfold named_otherwise.
  destruct (getitem c "name") as [v|e]; [|by split; [|intros []]].
  destruct (eq_str v name); simpl; [by split; [|intros []]|].
  rewrite IH. tauto.
Qed.

Lemma find_container_Some name items c :
  find_container name items = Ok (Some c) →
  ∃ pre post dc, items = pre ++ c :: post ∧ c = JDict dc
    ∧ dc !! "name" = Some (JStr name) ∧ none_named name pre = true.
Proof.
  induction items as [|x rest IH]; simpl; [discriminate|].
  destruct (getitem x "name") as [v|e] eqn:Hg; [|discriminate].
  destruct (eq_str v name) eqn:Hv.
  - intros [= ->]. apply eq_str_true in Hv as ->.
    apply getitem_Ok in Hg as (d & -> & Hd).
    exists [], rest, d. by repeat split.
  - intros H. destruct (IH H) as (pre & post & dc & -> & -> & Hdc & Hpre).
    exists (x :: pre), post, dc. repeat split; [done|].
    apply none_named_cons. split; [|done].
    unfold named_otherwise. by rewrite Hg, Hv.
Qed.

Lemma update_first_no_match name updates items :
  none_named name items = true → update_first name updates items = Ok items.
Proof.
  induction items as [|c rest IH]; [done|].
  intros [Hc Hrest]%none_named_cons. simpl.
  apply named_otherwise_getitem in Hc as (v & -> & ->). by rewrite IH.
Qed.

Lemma update_first_match name updates pre dc post :
  none_named name pre = true → dc !! "name" = Some (JStr name) →
  update_first name updates (pre ++ JDict dc :: post)
  = Ok (pre ++ JDict (updates ∪ dc) :: post).
Proof.
  intros Hpre Hdc. induction pre as [|c rest IH]; simpl.
  - rewrite Hdc. simpl. by rewrite bool_decide_eq_true_2.
  - apply none_named_cons in Hpre as [Hc Hrest].
    apply named_otherwise_getitem in Hc as (v & -> & ->). by rewrite IH.
Qed.

Lemma remove_named_last name items dc :
  none_named name items = true → dc !! "name" = Some (JStr name) →
  remove_named name (items ++ [JDict dc]) = Ok items.
Proof.
  intros Hitems Hdc. induction items as [|c rest IH]; simpl.
  - rewrite Hdc. simpl. by rewrite bool_decide_eq_true_2.
  - apply none_named_cons in Hitems as [Hc Hrest].
    apply named_otherwise_getitem in Hc as (v & -> & ->). by rewrite IH.
Qed.

(** Whatever [remove_named] returns holds no record of that name. *)
Lemma remove_named_none_left name items kept :
  remove_named name items = Ok kept → none_named name kept = true.
Proof.
  revert kept. induction items as [|c rest IH]; simpl; intros kept.
  - by intros [= <-].
  - destruct (getitem c "name") as [v|e] eqn:Hg; [|discriminate].
    destruct (remove_named name rest) as [rest'|e]; [|discriminate].
    intros [= <-]. destruct (eq_str v name) eqn:Hv; [by apply IH|].
    apply none_named_cons. split; [|by apply IH].
    unfold named_otherwise. by rewrite Hg, Hv.
Qed.

Lemma filter_has_name_none name items :
  none_named name items = true → filter (λ c, has_name name c) items = [].
Proof.
  induction items as [|c rest IH]; [done|].
  intros [Hc Hrest]%none_named_cons.
  rewrite filter_cons_False; [by apply IH|].
  rewrite (named_otherwise_has_name _ _ Hc). by intros [].
Qed.

Lemma new_record_name name owner cpu memory sync ts :
  ∃ d, new_record name owner cpu memory sync ts = JDict d
       ∧ d !! "name" = Some (JStr name).
Proof.
  eexists. split; [reflexivity|]. unfold record_fields. by rewrite lookup_insert_eq.
Qed.

(** ** The registry file under the registry helpers *)

Lemma with_file_same w : with_file (registry_file w) w = w.
Proof. by destruct w. Qed.

Lemma initialized_stored w c : registry_file w = Some c → initialized w = w.
Proof.
  intros H. unfold initialized, registry_of. rewrite H, <- H. apply with_file_same.
Qed.

Lemma registry_file_initialized w :
  registry_file (initialized w) = Some (registry_of w).
Proof. done. Qed.

Lemma registry_of_initialized w : registry_of (initialized w) = registry_of w.
Proof. done. Qed.

Lemma initialized_idem w : initialized (initialized w) = initialized w.
Proof. done. Qed.

Lemma registry_of_stored w c : registry_file w = Some c → registry_of w = c.
Proof. intros H. unfold registry_of. by rewrite H. Qed.

Lemma init_registry_eq w : init_registry w = (Ok tt, initialized w).
Proof.
  unfold init_registry, initialized, registry_of.
  destruct (registry_file w) eqn:H; [|done]. by rewrite <- H, with_file_same.
Qed.

Lemma load_registry_eq w :
  load_registry w
  = (match registry_of w with
     | Document doc => Ok doc
     | Undecodable => Raise JSONDecodeError
     end, initialized w).
Proof.
  unfold load_registry. rewrite (bind_Ok _ _ _ _ _ (init_registry_eq w)).
  unfold json_load. rewrite registry_file_initialized.
  by destruct (registry_of w).
Qed.

(** What a reader computes from the document it loads. *)
Lemma get_container_eq name w :
  get_container name w
  = (match registry_of w with
     | Document doc =>
         match getitem doc "containers" with
         | Ok containers =>
             match iterate containers with
             | Ok items => find_container name items
             | Raise e => Raise e
             end
         | Raise e => Raise e
         end
     | Undecodable => Raise JSONDecodeError
     end, initialized w).
Proof.
  unfold get_container, bind. rewrite load_registry_eq.
  destruct (registry_of w) as [doc|]; [|done]. unfold lift.
  destruct (getitem doc "containers") as [cs|]; [|done].
  by destruct (iterate cs).
Qed.

Lemma count_user_containers_eq user w :
  count_user_containers user w
  = (match registry_of w with
     | Document doc =>
         match getitem doc "containers" with
         | Ok containers =>
             match iterate containers with
             | Ok items => count_owned user items
             | Raise e => Raise e
             end
         | Raise e => Raise e
         end
     | Undecodable => Raise JSONDecodeError
     end, initialized w).
Proof.
  unfold count_user_containers, bind. rewrite load_registry_eq.
  destruct (registry_of w) as [doc|]; [|done]. unfold lift.
  destruct (getitem doc "containers") as [cs|]; [|done].
  by destruct (iterate cs).
Qed.

Lemma count_all_containers_eq w :
  count_all_containers w
  = (match registry_of w with
     | Document doc =>
         match getitem doc "containers" with
         | Ok containers => len containers
         | Raise e => Raise e
         end
     | Undecodable => Raise JSONDecodeError
     end, initialized w).
Proof.
  unfold count_all_containers, bind. rewrite load_registry_eq.
  destruct (registry_of w) as [doc|]; [|done]. unfold lift.
  by destruct (getitem doc "containers").
Qed.

(** What the three writers compute and store. *)
Lemma add_container_eq E name owner cpu memory sync w :
  add_container E name owner cpu memory sync w
  = match registry_of w with
    | Document doc =>
        match getitem doc "containers" with
        | Ok containers =>
            match append containers
                    (new_record name owner cpu memory sync (utcnow E (calls w))) with
            | Ok containers' =>
                match setitem doc "containers" containers' with
                | Ok doc' => (Ok tt, with_file (Some (Document doc')) w)
                | Raise e => (Raise e, initialized w)
                end
            | Raise e => (Raise e, initialized w)
            end
        | Raise e => (Raise e, initialized w)
        end
    | Undecodable => (Raise JSONDecodeError, initialized w)
    end.
Proof.
  unfold add_container, bind. rewrite init_registry_eq.
  unfold json_load. rewrite registry_file_initialized.
  destruct (registry_of w) as [doc|]; [|done]. unfold get_timestamp, lift. simpl.
  destruct (getitem doc "containers") as [cs|]; [|done].
  destruct (append cs _) as [cs'|]; [|done].
  by destruct (setitem doc "containers" cs').
Qed.

Lemma update_container_eq name updates w :
  update_container name updates w
  = match registry_of w with
    | Document doc =>
        match getitem doc "containers" with
        | Ok containers =>
            match iterate containers with
            | Ok items =>
                match update_first name updates items with
                | Ok items' =>
                    match (match containers with
                           | JList _ => setitem doc "containers" (JList items')
                           | _ => Ok doc
                           end) with
                    | Ok doc' => (Ok tt, with_file (Some (Document doc')) w)
                    | Raise e => (Raise e, initialized w)
                    end
                | Raise e => (Raise e, initialized w)
                end
            | Raise e => (Raise e, initialized w)
            end
        | Raise e => (Raise e, initialized w)
        end
    | Undecodable => (Raise JSONDecodeError, initialized w)
    end.
Proof.
  unfold update_container, bind. rewrite init_registry_eq.
  unfold json_load. rewrite registry_file_initialized.
  destruct (registry_of w) as [doc|]; [|done]. unfold lift.
  destruct (getitem doc "containers") as [cs|]; [|done].
  destruct (iterate cs) as [items|]; [|done].
  destruct (update_first name updates items) as [items'|]; [|done].
  by destruct (match cs with JList _ => _ | _ => _ end).
Qed.

Lemma remove_container_eq name w :
  remove_container name w
  = match registry_of w with
    | Document doc =>
        match getitem doc "containers" with
        | Ok containers =>
            match iterate containers with
            | Ok items =>
                match remove_named name items with
                | Ok kept =>
                    match setitem doc "containers" (JList kept) with
                    | Ok doc' => (Ok tt, with_file (Some (Document doc')) w)
                    | Raise e => (Raise e, initialized w)
                    end
                | Raise e => (Raise e, initialized w)
                end
            | Raise e => (Raise e, initialized w)
            end
        | Raise e => (Raise e, initialized w)
        end
    | Undecodable => (Raise JSONDecodeError, initialized w)
    end.
Proof.
  unfold remove_container, bind. rewrite init_registry_eq.
  unfold json_load. rewrite registry_file_initialized.
  destruct (registry_of w) as [doc|]; [|done]. unfold lift.
  destruct (getitem doc "containers") as [cs|]; [|done].
  destruct (iterate cs) as [items|]; [|done].
  destruct (remove_named name items) as [kept|]; [|done].
  by destruct (setitem doc "containers" (JList kept)).
Qed.

(** A writer that raises has written nothing. *)
Lemma update_container_Raise name updates w e w' :
  update_container name updates w = (Raise e, w') → w' = initialized w.
Proof.
  rewrite update_container_eq. intros H.
  repeat match type of H with
         | context [match ?x with _ => _ end] => destruct x
         end; by inversion H.
Qed.

Lemma add_container_Ok E name owner cpu memory sync w w' :
  add_container E name owner cpu memory sync w = (Ok tt, w') →
  ∃ d items,
    registry_of w = Document (JDict d) ∧ d !! "containers" = Some (JList items)
    ∧ w' = with_file (Some (Document (JDict (<["containers" :=
             JList (items ++ [new_record name owner cpu memory sync (utcnow E (calls w))])]> d)))) w.
Proof.
  rewrite add_container_eq.
  destruct (registry_of w) as [doc|]; [|discriminate].
  destruct (getitem doc "containers") as [cs|] eqn:Hg; [|discriminate].
  apply getitem_Ok in Hg as (d & -> & Hd).
  destruct cs; simpl; try discriminate.
  intros [= <-]. by exists d, items.
Qed.

(** Stored registries: the document is a dict whose ["containers"] is the
    list [items]. *)
Lemma update_container_stored name updates w d items items' :
  registry_of w = Document (JDict d) → d !! "containers" = Some (JList items) →
  update_first name updates items = Ok items' →
  update_container name updates w
  = (Ok tt, with_file (Some (Document (JDict (<["containers" := JList items']> d)))) w).
Proof.
  intros Hw Hd Hu. rewrite update_container_eq, Hw. simpl. rewrite Hd. simpl.
  by rewrite Hu.
Qed.

Lemma remove_container_stored name w d items kept :
  registry_of w = Document (JDict d) → d !! "containers" = Some (JList items) →
  remove_named name items = Ok kept →
  remove_container name w
  = (Ok tt, with_file (Some (Document (JDict (<["containers" := JList kept]> d)))) w).
Proof.
  intros Hw Hd Hu. rewrite remove_container_eq, Hw. simpl. rewrite Hd. simpl.
  by rewrite Hu.
Qed.

(** ** Readers, and writers that fail *)

Lemma keeps_reads_only {A} (c : M A) : keeps_file c → reads_only c.
Proof. intros H w r w' Hc. unfold registry_of. by rewrite (H _ _ _ Hc). Qed.

Lemma reads_only_bind {A B} (c : M A) (k : A → M B) :
  reads_only c → (∀ a, reads_only (k a)) → reads_only (bind c k).
Proof.
  intros Hc Hk w r w' H. apply bind_inv in H as [(a & w1 & H1 & H2)|(e & H1 & _)].
  - rewrite (Hk _ _ _ _ H2). eauto.
  - eauto.
Qed.

Lemma raises_clean_bind {A B} (c : M A) (k : A → M B) :
  reads_only c → (∀ a, raises_clean (k a)) → raises_clean (bind c k).
Proof.
  intros Hc Hk w e w' H. apply bind_inv in H as [(a & w1 & H1 & H2)|(e' & H1 & _)].
  - rewrite (Hk _ _ _ _ H2). eauto.
  - eauto.
Qed.

Lemma reads_only_get_container name : reads_only (get_container name).
Proof. intros w r w'. rewrite get_container_eq. by intros [= _ <-]. Qed.

Lemma reads_only_count_user_containers user : reads_only (count_user_containers user).
Proof. intros w r w'. rewrite count_user_containers_eq. by intros [= _ <-]. Qed.

Lemma reads_only_count_all_containers : reads_only count_all_containers.
Proof. intros w r w'. rewrite count_all_containers_eq. by intros [= _ <-]. Qed.

Lemma raises_clean_update_container name updates :
  raises_clean (update_container name updates).
Proof. intros w e w' H. by rewrite (update_container_Raise _ _ _ _ _ H). Qed.

(** ** Reading the registry *)

(** C3, as the code has it: [load_registry] hands back whatever document
    the file decodes to, with no look at its version or its shape; it
    raises only when the content is not JSON at all (the decoder's own
    error), and a file that does not exist is first created with the empty
    registry. *)
Theorem load_registry_returns_any_document w :
  load_registry w
  = (match registry_file w with
     | Some (Document doc) => Ok doc
     | Some Undecodable => Raise JSONDecodeError
     | None => Ok empty_registry
     end, initialized w).
Proof.
  rewrite load_registry_eq. unfold registry_of. by destruct (registry_file w).
Qed.

(** C3, as stated, fails: a stored document of version 2 is returned to the
    caller, and no exception is raised. *)
Lemma load_registry_accepts_version_2 :
  let doc := JDict (registry_doc 2 []) in
  getitem doc "version" = Ok (JInt 2)
  ∧ load_registry (world_with doc) = (Ok doc, world_with doc)
  ∧ ∀ e, (load_registry (world_with doc)).1 ≠ Raise e.
Proof. by repeat split. Qed.

(** ** Updating a record *)

(** C9: on a registry none of whose records is called [name],
    [update_container] returns without an exception and the file holds what
    it held (nothing else of the world changes either). *)
Theorem update_container_without_match name updates w d items :
  registry_file w = Some (Document (JDict d)) →
  d !! "containers" = Some (JList items) →
  none_named name items = true →
  update_container name updates w = (Ok tt, w).
Proof.
  intros Hw Hd Hnone.
  rewrite (update_container_stored name updates w d items items);
    [|by apply registry_of_stored|done|by apply update_first_no_match].
  by rewrite insert_id, <- Hw, with_file_same.
Qed.

Lemma update_container_without_match_witness :
  update_container "other" {["state" := JStr "stopped"]} sample_world
  = (Ok tt, sample_world).
Proof.
  apply (update_container_without_match "other" {["state" := JStr "stopped"]}
           sample_world
           (registry_doc 1 [JDict (sample_fields "web" "bob");
                            JDict (sample_fields "demo-env" "alice")])
           [JDict (sample_fields "web" "bob"); JDict (sample_fields "demo-env" "alice")]);
    reflexivity.
Defined.

(** C10: when the first record called [name] is [dc], after the records
    [pre] and before the records [post], [update_container] stores a
    registry whose list is [pre], the updated record, [post], in that
    order; every key of the registry other than ["containers"] (the version
    among them) keeps its value; the updated record has the value of
    [updates] at every key of [updates] and the value of [dc] at every
    other key. *)
Theorem update_container_frame name updates w d pre dc post :
  registry_file w = Some (Document (JDict d)) →
  d !! "containers" = Some (JList (pre ++ JDict dc :: post)) →
  none_named name pre = true →
  dc !! "name" = Some (JStr name) →
  ∃ d' dc',
    update_container name updates w
    = (Ok tt, with_file (Some (Document (JDict d'))) w)
    ∧ d' !! "containers" = Some (JList (pre ++ JDict dc' :: post))
    ∧ (∀ k, k ≠ "containers" → d' !! k = d !! k)
    ∧ (∀ k v, updates !! k = Some v → dc' !! k = Some v)
    ∧ (∀ k, updates !! k = None → dc' !! k = dc !! k).
Proof.
  intros Hw Hd Hpre Hdc.
  exists (<["containers" := JList (pre ++ JDict (updates ∪ dc) :: post)]> d),
    (updates ∪ dc).
  split; [|split; [|split; [|split]]].
  - apply update_container_stored with (items := pre ++ JDict dc :: post);
      [by apply registry_of_stored|done|by apply update_first_match].
  - apply lookup_insert_eq.
  - intros k Hk. by rewrite lookup_insert_ne.
  - intros k v Hk. by apply lookup_union_Some_l.
  - intros k Hk. by apply lookup_union_r.
Qed.

Lemma update_container_frame_witness :
  ∃ d' dc',
    update_container "demo-env" sample_updates (world_with (JDict twice_doc))
    = (Ok tt, with_file (Some (Document (JDict d'))) (world_with (JDict twice_doc)))
    ∧ d' !! "containers"
      = Some (JList ([JDict (sample_fields "web" "bob")] ++ JDict dc'
                     :: [JDict (sample_fields "demo-env" "carol")]))
    ∧ (∀ k, k ≠ "containers" → d' !! k = twice_doc !! k)
    ∧ (∀ k v, sample_updates !! k = Some v → dc' !! k = Some v)
    ∧ (∀ k, sample_updates !! k = None →
         dc' !! k = sample_fields "demo-env" "alice" !! k).
Proof.
  apply (update_container_frame "demo-env" sample_updates (world_with (JDict twice_doc))
           twice_doc [JDict (sample_fields "web" "bob")]
           (sample_fields "demo-env" "alice")
           [JDict (sample_fields "demo-env" "carol")]);
    reflexivity.
Defined.

(** ** Commands on a container that is not there *)

Lemma lookup_or_NotFound_eq name w :
  lookup_or_NotFound name w
  = (match (get_container name w).1 with
     | Ok (Some c) =>
         if truthy c then Ok c
         else Raise (NotFoundError ("Container not found: " +:+ name))
     | Ok None => Raise (NotFoundError ("Container not found: " +:+ name))
     | Raise e => Raise e
     end, initialized w).
Proof.
  unfold lookup_or_NotFound, bind. rewrite get_container_eq. simpl.
  match goal with |- context [match ?x with Ok _ => _ | Raise _ => _ end] =>
    destruct x as [[c|]|] end; try done.
  by destruct (truthy c).
Qed.

(** C7: [destroy] on a name without a record raises [NotFoundError], which
    the command reports and turns into exit status 1; no command has been
    run and the registry reads as before. *)
Theorem destroy_absent E name force keep_volume w :
  (get_container name w).1 = Ok None →
  destroy_body E name force keep_volume w
  = (Raise (NotFoundError ("Container not found: " +:+ name)), initialized w)
  ∧ destroy E name force keep_volume w
    = (Raise (SystemExit 1),
       {| registry_file := Some (registry_of w);
          calls := calls w;
          errors := errors w ++ ["Error: Container not found: " +:+ name] |}).
Proof.
  intros Hnone.
  assert (destroy_body E name force keep_volume w
          = (Raise (NotFoundError ("Container not found: " +:+ name)), initialized w))
    as Hbody.
  { unfold destroy_body. apply bind_Raise. by rewrite lookup_or_NotFound_eq, Hnone. }
  split; [done|].
  unfold destroy, exit_on_DevboxError. by rewrite (try_except_Raise _ _ _ _ _ Hbody).
Qed.

Lemma destroy_absent_witness :
  destroy_body sample_env "gone" true false sample_world
  = (Raise (NotFoundError ("Container not found: " +:+ "gone")), initialized sample_world)
  ∧ destroy sample_env "gone" true false sample_world
    = (Raise (SystemExit 1),
       {| registry_file := Some (registry_of sample_world);
          calls := calls sample_world;
          errors := errors sample_world ++ ["Error: Container not found: " +:+ "gone"] |}).
Proof. apply (destroy_absent sample_env "gone" true false sample_world). reflexivity. Defined.

(** ** Commands on a container that is there *)

(** A dict among the elements iterated over: they are those of a list. *)
Lemma iterate_dict_element containers items dc :
  iterate containers = Ok items → JDict dc ∈ items → containers = JList items.
Proof.
  destruct containers; simpl; try discriminate; intros [= <-] Hin; [| done |].
  - apply list_elem_of_fmap in Hin as (x & Hx & _). discriminate.
  - apply list_elem_of_fmap in Hin as (x & Hx & _). discriminate.
Qed.

Lemma get_container_Some name w c :
  (get_container name w).1 = Ok (Some c) →
  ∃ d pre dc post,
    registry_file w = Some (Document (JDict d))
    ∧ d !! "containers" = Some (JList (pre ++ JDict dc :: post))
    ∧ c = JDict dc ∧ dc !! "name" = Some (JStr name)
    ∧ none_named name pre = true.
Proof.
  rewrite get_container_eq. simpl. unfold registry_of.
  destruct (registry_file w) as [[doc|]|] eqn:Hw; [| discriminate | discriminate].
  destruct (getitem doc "containers") as [cs|] eqn:Hg; [|discriminate].
  apply getitem_Ok in Hg as (d & -> & Hd).
  destruct (iterate cs) as [items|] eqn:Hi; [|discriminate].
  intros (pre & post & dc & -> & -> & Hdc & Hpre)%find_container_Some.
  exists d, pre, dc, post. repeat split; try done.
  rewrite Hd. f_equal. apply (iterate_dict_element _ _ dc Hi).
  apply elem_of_app. right. by apply elem_of_cons; left.
Qed.

Lemma get_container_None name w :
  (get_container name w).1 = Ok None →
  ∃ d containers items,
    registry_of w = Document (JDict d) ∧ d !! "containers" = Some containers
    ∧ iterate containers = Ok items ∧ none_named name items = true.
Proof.
  rewrite get_container_eq. simpl.
  destruct (registry_of w) as [doc|]; [|discriminate].
  destruct (getitem doc "containers") as [cs|] eqn:Hg; [|discriminate].
  apply getitem_Ok in Hg as (d & -> & Hd).
  destruct (iterate cs) as [items|] eqn:Hi; [|discriminate].
  intros H%find_container_None. by exists d, cs, items.
Qed.

Lemma truthy_record dc key v : dc !! key = Some v → truthy (JDict dc) = true.
Proof.
  intros H. simpl. apply negb_true_iff, Nat.eqb_neq.
  intros Hsize%map_size_empty_iff. by rewrite Hsize, lookup_empty in H.
Qed.

Lemma lookup_or_NotFound_Some name w c :
  (get_container name w).1 = Ok (Some c) → lookup_or_NotFound name w = (Ok c, w).
Proof.
  intros H. rewrite lookup_or_NotFound_eq, H.
  apply get_container_Some in H as (d & pre & dc & post & Hw & _ & -> & Hdc & _).
  by rewrite (truthy_record _ _ _ Hdc), (initialized_stored _ _ Hw).
Qed.

Lemma reads_only_lookup_or_NotFound name : reads_only (lookup_or_NotFound name).
Proof. intros w r w'. rewrite lookup_or_NotFound_eq. by intros [= _ <-]. Qed.

Lemma run_command_calls E cmd check w r w' :
  run_command E cmd check w = (r, w') → calls w' = calls w ++ [cmd].
Proof.
  unfold run_command.
  destruct (subprocess_run E (calls w) cmd) as [rc out err|];
    [destruct (check && negb (rc =? 0))|]; intros H; by inversion H.
Qed.

Lemma is_admin_calls E user w r w' :
  is_admin E user w = (r, w') → calls w' = calls w ++ [["groups"; user]].
Proof.
  unfold is_admin, try_except, bind.
  destruct (run_command E ["groups"; user] false w) as [[res|e] w1] eqn:Hrun;
    apply run_command_calls in Hrun; intros H; by inversion H; subst.
Qed.

Lemma owner_or_admin_calls E container w r w' :
  owner_or_admin E container w = (r, w') →
  calls w' = calls w ∨ calls w' = calls w ++ [["groups"; USER E]].
Proof.
  unfold owner_or_admin, bind, lift.
  destruct (getitem container "owner") as [owner|]; [|intros [= _ <-]; by left].
  destruct (eq_str owner (get_current_user E)); [intros [= _ <-]; by left|].
  destruct (is_admin E (get_current_user E) w) as [[admin|e] w1] eqn:Hadm;
    apply is_admin_calls in Hadm; [destruct admin|]; intros [= _ <-]; by right.
Qed.

Lemma keeps_owner_or_admin E container : keeps_file (owner_or_admin E container).
Proof. unfold owner_or_admin. keeps. Qed.

#[local] Hint Resolve keeps_owner_or_admin : keeps.

Lemma raises_clean_rotate_key_body E name : raises_clean (rotate_key_body E name).
Proof.
  unfold rotate_key_body.
  apply raises_clean_bind; [apply reads_only_lookup_or_NotFound | intros c].
  repeat lazymatch goal with
         | |- raises_clean (bind _ _) =>
             apply raises_clean_bind; [apply keeps_reads_only; keeps | intros]
         end.
  apply raises_clean_update_container.
Qed.

Lemma bind_Ok_keeps {A B} (c : M A) (k : A → M B) w b w' :
  keeps_file c → bind c k w = (Ok b, w') →
  ∃ a w1, registry_file w1 = registry_file w ∧ c w = (Ok a, w1) ∧ k a w1 = (Ok b, w').
Proof.
  intros Hc (a & w1 & H1 & H2)%bind_Ok_inv. exists a, w1. eauto.
Qed.

(** When the new key is refused, [rotate-key] fails with a [PodmanError]
    and the registry is the one it found. *)
Example rotate_key_refused :
  ∃ w', rotate_key_body failing_up_env "demo-env" running_world
        = (Raise (PodmanError "Failed to rotate auth key"), w')
        ∧ registry_file w' = registry_file running_world.
Proof. eexists. split; vm_compute; reflexivity. Qed.

(** ** Creating a container *)

Lemma lift_Ok_inv {A B} (x : result A) (k : A → M B) w b w' :
  bind (lift x) k w = (Ok b, w') → ∃ a, x = Ok a ∧ k a w = (Ok b, w').
Proof.
  intros (a & w1 & H1 & H2)%bind_Ok_inv. injection H1 as -> <-. eauto.
Qed.

Lemma container_exists_eq name w :
  container_exists name w
  = (match (get_container name w).1 with
     | Ok (Some _) => Ok true
     | Ok None => Ok false
     | Raise e => Raise e
     end, initialized w).
Proof.
  unfold container_exists, bind. rewrite get_container_eq. simpl.
  match goal with |- context [match ?x with Ok _ => _ | Raise _ => _ end] =>
    destruct x as [[c|]|] end; done.
Qed.

Lemma guard_Ok_inv {B} (b : bool) e (k : unit → M B) w r w' :
  bind (if b then raise e else ret tt) k w = (Ok r, w') →
  b = false ∧ k tt w = (Ok r, w').
Proof.
  destruct b; intros (a & w1 & H1 & H2)%bind_Ok_inv; [discriminate|].
  by injection H1 as <- <-.
Qed.

(** What has been checked when the admission of [create] lets the request
    through, and where it leaves the registry file. *)
Lemma create_admission_Ok E name cpu memory w key w1 :
  create_admission E name cpu memory w = (Ok key, w1) →
  validate_container_name name = Ok tt
  ∧ validate_cpu cpu = Ok tt
  ∧ validate_memory memory = Ok tt
  ∧ (get_container name w).1 = Ok None
  ∧ (∃ n, (count_user_containers (USER E) w).1 = Ok n ∧ n < MAX_PER_USER E)
  ∧ (∃ g, (count_all_containers w).1 = Ok g ∧ g < MAX_GLOBAL E)
  ∧ registry_file w1 = Some (registry_of w).
Proof.
  unfold create_admission. intros H.
  apply lift_Ok_inv in H as ([] & Hname & H).
  apply lift_Ok_inv in H as ([] & Hcpu & H).
  apply lift_Ok_inv in H as ([] & Hmem & H).
  apply bind_Ok_inv in H as (present & w2 & Hex & H).
  apply guard_Ok_inv in H as [-> H].
  rewrite container_exists_eq in Hex.
  destruct (get_container name w).1 as [[c|]|] eqn:Hget; try discriminate.
  injection Hex as <-.
  apply bind_Ok_inv in H as (n & w3 & Hcount & H).
  rewrite count_user_containers_eq, registry_of_initialized, initialized_idem in Hcount.
  injection Hcount as Hn <-.
  apply guard_Ok_inv in H as [Hquota H].
  apply bind_Ok_inv in H as (g & w4 & Hall & H).
  rewrite count_all_containers_eq, registry_of_initialized, initialized_idem in Hall.
  injection Hall as Hg <-.
  apply guard_Ok_inv in H as [Hglobal H].
  apply bind_Ok_keeps in H as (a5 & w5 & Hf5 & _ & H); [|keeps].
  apply bind_Ok_keeps in H as (authkey & w6 & Hf6 & _ & H); [|keeps].
  injection H as _ <-.
  repeat split; try done.
  - exists n. split; [by rewrite count_user_containers_eq|].
    rewrite Z.geb_leb in Hquota. by apply Z.leb_gt in Hquota.
  - exists g. split; [by rewrite count_all_containers_eq|].
    rewrite Z.geb_leb in Hglobal. by apply Z.leb_gt in Hglobal.
  - by rewrite Hf6, Hf5.
Qed.

Lemma raises_clean_create_provision E name cpu memory no_start sync authkey tags :
  raises_clean (create_provision E name cpu memory no_start sync authkey tags).
Proof.
  unfold create_provision.
  repeat lazymatch goal with
         | |- raises_clean (bind _ _) =>
             apply raises_clean_bind; [apply keeps_reads_only; keeps | intros]
         | |- raises_clean (if ?b then _ else _) => destruct b
         end; apply raises_clean_update_container.
Qed.

(** The state of the registry between [add_container] and the guarded
    block of [create]: the old records, none of them called [name], and
    the new one after them. *)
Lemma create_inserted E name cpu memory sync w key w1 w2 :
  create_admission E name cpu memory w = (Ok key, w1) →
  add_container E name (USER E) cpu memory sync w1 = (Ok tt, w2) →
  ∃ d items,
    registry_of w = Document (JDict d)
    ∧ d !! "containers" = Some (JList items)
    ∧ none_named name items = true
    ∧ calls w2 = calls w1
    ∧ registry_of w2 = Document (JDict (<["containers" := JList (items ++
        [new_record name (USER E) cpu memory sync (utcnow E (calls w1))])]> d)).
Proof.
  intros Hadm Hadd.
  apply create_admission_Ok in Hadm as (_ & _ & _ & Hget & _ & _ & Hw1).
  apply get_container_None in Hget as (d & cs & items & Hw & Hd & Hi & Hnone).
  apply add_container_Ok in Hadd as (d' & items' & Hw1' & Hd' & ->).
  rewrite (registry_of_stored _ _ Hw1), Hw in Hw1'. injection Hw1' as <-.
  rewrite Hd in Hd'. injection Hd' as ->. injection Hi as <-.
  by exists d, items'.
Qed.

(** C1: when [create] has passed the admission and has added the record,
    and the guarded block then raises [e] (at the volume, at the launch, or
    at the update that follows), [create] ends by raising that same [e],
    and the registry it leaves holds no record called [name]: it reads
    exactly as it did before the command. *)
Theorem create_rollback E name cpu memory no_start sync w key w1 w2 e w3 :
  create_admission E name cpu memory w = (Ok key, w1) →
  add_container E name (USER E) cpu memory sync w1 = (Ok tt, w2) →
  create_provision E name cpu memory no_start sync key.1 key.2 w2 = (Raise e, w3) →
  ∃ w' d items,
    create_body E name cpu memory no_start sync w = (Raise e, w')
    ∧ registry_of w' = Document (JDict d)
    ∧ d !! "containers" = Some (JList items)
    ∧ none_named name items = true
    ∧ registry_of w' = registry_of w.
Proof.
  intros Hadm Hadd Hprov.
  destruct (create_inserted _ _ _ _ _ _ _ _ _ Hadm Hadd)
    as (d & items & Hw & Hd & Hnone & _ & Hw2).
  pose proof (raises_clean_create_provision _ _ _ _ _ _ _ _ _ _ _ Hprov) as Hw3.
  rewrite Hw2 in Hw3.
  destruct (new_record_name name (USER E) cpu memory sync (utcnow E (calls w1)))
    as (dn & Hnew & Hname).
  rewrite Hnew in Hw3.
  set (w3' := {| registry_file := registry_file w3; calls := calls w3;
                 errors := errors w3 ++ ["Cleaning up after failure..."] |}).
  assert (remove_container name w3'
          = (Ok tt, with_file (Some (Document (JDict (<["containers" := JList items]>
               (<["containers" := JList (items ++ [JDict dn])]> d))))) w3')) as Hrm.
  { apply remove_container_stored with (items := items ++ [JDict dn]).
    - exact Hw3.
    - apply lookup_insert_eq.
    - by apply remove_named_last. }
  rewrite insert_insert_eq, (insert_id _ _ _ Hd) in Hrm.
  exists (with_file (Some (Document (JDict d))) w3'), d, items.
  split; [|by rewrite Hw].
  unfold create_body. rewrite (bind_Ok _ _ _ _ _ Hadm).
  rewrite (bind_Ok _ _ _ _ _ Hadd).
  rewrite (try_except_Raise _ _ _ _ _ Hprov).
  unfold create_cleanup.
  rewrite (bind_Ok _ _ w3 tt w3') by done.
  by rewrite (bind_Ok _ _ _ _ _ Hrm).
Qed.

Lemma create_rollback_witness :
  ∃ w' d items,
    create_body failing_run_env "new-env" 2 "4G" false false sample_world
    = (Raise (PodmanError "Failed to create container: new-env"), w')
    ∧ registry_of w' = Document (JDict d)
    ∧ d !! "containers" = Some (JList items)
    ∧ none_named "new-env" items = true
    ∧ registry_of w' = registry_of sample_world.
Proof.
  apply (create_rollback failing_run_env "new-env" 2 "4G" false false sample_world
           ("tskey-auth-sample", "tag:devcontainer,tag:alice-container")
           (create_admission failing_run_env "new-env" 2 "4G" sample_world).2
           (add_container failing_run_env "new-env" "alice" 2 "4G" false
              (create_admission failing_run_env "new-env" 2 "4G" sample_world).2).2
           (PodmanError "Failed to create container: new-env")
           (create_provision failing_run_env "new-env" 2 "4G" false false
              "tskey-auth-sample" "tag:devcontainer,tag:alice-container"
              (add_container failing_run_env "new-env" "alice" 2 "4G" false
                 (create_admission failing_run_env "new-env" 2 "4G" sample_world).2).2).2);
    vm_compute; reflexivity.
Defined.

(** ** Which steps can raise a [ValidationError] *)

Lemma not_invalid_getitem v key : not_invalid (getitem v key).
Proof.
  intros e. destruct v; simpl; try by intros [= <-].
  destruct (d !! key); [discriminate | by intros [= <-]].
Qed.

Lemma not_invalid_setitem v key x : not_invalid (setitem v key x).
Proof. intros e. destruct v; simpl; (discriminate || by intros [= <-]). Qed.

Lemma not_invalid_iterate v : not_invalid (iterate v).
Proof. intros e. destruct v; simpl; (discriminate || by intros [= <-]). Qed.

Lemma not_invalid_len v : not_invalid (len v).
Proof. intros e. destruct v; simpl; (discriminate || by intros [= <-]). Qed.

Lemma not_invalid_append v x : not_invalid (append v x).
Proof. intros e. destruct v; simpl; (discriminate || by intros [= <-]). Qed.

Lemma not_invalid_dict_update v updates : not_invalid (dict_update v updates).
Proof. intros e. destruct v; simpl; (discriminate || by intros [= <-]). Qed.

Lemma not_invalid_find_container name items : not_invalid (find_container name items).
Proof.
  intros e. induction items as [|c rest IH]; simpl; [discriminate|].
  destruct (getitem c "name") as [v|e'] eqn:Hg.
  - by destruct (eq_str v name).
  - intros [= <-]. by apply (not_invalid_getitem _ _ _ Hg).
Qed.

Lemma not_invalid_update_first name updates items :
  not_invalid (update_first name updates items).
Proof.
  intros e. induction items as [|c rest IH]; simpl; [discriminate|].
  destruct (getitem c "name") as [v|e'] eqn:Hg.
  - destruct (eq_str v name).
    + destruct (dict_update c updates) as [c'|e'] eqn:Hu; [discriminate|].
      intros [= <-]. by apply (not_invalid_dict_update _ _ _ Hu).
    + destruct (update_first name updates rest); [discriminate|].
      intros [= <-]. by apply IH.
  - intros [= <-]. by apply (not_invalid_getitem _ _ _ Hg).
Qed.

Lemma not_invalid_remove_named name items : not_invalid (remove_named name items).
Proof.
  intros e. induction items as [|c rest IH]; simpl; [discriminate|].
  destruct (getitem c "name") as [v|e'] eqn:Hg.
  - destruct (remove_named name rest); [discriminate|].
    intros [= <-]. by apply IH.
  - intros [= <-]. by apply (not_invalid_getitem _ _ _ Hg).
Qed.

Lemma not_invalid_count_owned user items : not_invalid (count_owned user items).
Proof.
  intros e. induction items as [|c rest IH]; simpl; [discriminate|].
  destruct (getitem c "owner") as [v|e'] eqn:Hg.
  - destruct (count_owned user rest); [discriminate|].
    intros [= <-]. by apply IH.
  - intros [= <-]. by apply (not_invalid_getitem _ _ _ Hg).
Qed.

Lemma not_invalid_get_container name w : not_invalid (get_container name w).1.
Proof.
  intros e. rewrite get_container_eq. simpl.
  destruct (registry_of w) as [doc|]; [|by intros [= <-]].
  destruct (getitem doc "containers") as [cs|] eqn:H1;
    [|intros [= <-]; by eapply not_invalid_getitem].
  destruct (iterate cs) as [items|] eqn:H2;
    [|intros [= <-]; by eapply not_invalid_iterate].
  apply not_invalid_find_container.
Qed.

Lemma not_invalid_count_all_containers w : not_invalid (count_all_containers w).1.
Proof.
  intros e. rewrite count_all_containers_eq. simpl.
  destruct (registry_of w) as [doc|]; [|by intros [= <-]].
  destruct (getitem doc "containers") as [cs|] eqn:H1;
    [|intros [= <-]; by eapply not_invalid_getitem].
  apply not_invalid_len.
Qed.

Lemma never_invalid_add_container E name owner cpu memory sync :
  never_invalid (add_container E name owner cpu memory sync).
Proof.
  intros w e w'. rewrite add_container_eq. intros H.
  destruct (registry_of w) as [doc|]; [|by injection H as <- _].
  destruct (getitem doc "containers") as [cs|] eqn:H1;
    [|injection H as <- _; by eapply not_invalid_getitem].
  destruct (append cs _) as [cs'|] eqn:H2;
    [|injection H as <- _; by eapply not_invalid_append].
  destruct (setitem doc "containers" cs') eqn:H3; [discriminate|].
  injection H as <- _. by eapply not_invalid_setitem.
Qed.

Lemma never_invalid_update_container name updates :
  never_invalid (update_container name updates).
Proof.
  intros w e w'. rewrite update_container_eq. intros H.
  destruct (registry_of w) as [doc|]; [|by injection H as <- _].
  destruct (getitem doc "containers") as [cs|] eqn:H1;
    [|injection H as <- _; by eapply not_invalid_getitem].
  destruct (iterate cs) as [items|] eqn:H2;
    [|injection H as <- _; by eapply not_invalid_iterate].
  destruct (update_first name updates items) as [items'|] eqn:H3;
    [|injection H as <- _; by eapply not_invalid_update_first].
  destruct cs; try discriminate.
  destruct (setitem doc "containers" (JList items')) eqn:H4; [discriminate|].
  injection H as <- _. by eapply not_invalid_setitem.
Qed.

Lemma never_invalid_remove_container name : never_invalid (remove_container name).
Proof.
  intros w e w'. rewrite remove_container_eq. intros H.
  destruct (registry_of w) as [doc|]; [|by injection H as <- _].
  destruct (getitem doc "containers") as [cs|] eqn:H1;
    [|injection H as <- _; by eapply not_invalid_getitem].
  destruct (iterate cs) as [items|] eqn:H2;
    [|injection H as <- _; by eapply not_invalid_iterate].
  destruct (remove_named name items) as [kept|] eqn:H3;
    [|injection H as <- _; by eapply not_invalid_remove_named].
  destruct (setitem doc "containers" (JList kept)) eqn:H4; [discriminate|].
  injection H as <- _. by eapply not_invalid_setitem.
Qed.

Lemma never_invalid_ret {A} (a : A) : never_invalid (ret a).
Proof. intros w e w'. discriminate. Qed.

Lemma never_invalid_raise {A} e :
  is_ValidationError e = false → never_invalid (@raise A e).
Proof. intros He w e' w'. by intros [= <- _]. Qed.

Lemma never_invalid_bind {A B} (c : M A) (k : A → M B) :
  never_invalid c → (∀ a, never_invalid (k a)) → never_invalid (bind c k).
Proof.
  intros Hc Hk w e w' H. apply bind_inv in H as [(a & w1 & H1 & H2)|(e' & H1 & [= ->])].
  - by apply (Hk _ _ _ _ H2).
  - by apply (Hc _ _ _ H1).
Qed.

Lemma never_invalid_try_except {A} (c : M A) h :
  never_invalid c → (∀ e, is_ValidationError e = false → never_invalid (h e)) →
  never_invalid (try_except c h).
Proof.
  intros Hc Hh w e w'. unfold try_except.
  destruct (c w) as [[a|e'] w1] eqn:Hcw; [discriminate|].
  apply Hh. by apply (Hc _ _ _ Hcw).
Qed.

Lemma never_invalid_echo_err line : never_invalid (echo_err line).
Proof. intros w e w'. discriminate. Qed.

Lemma never_invalid_get_timestamp E : never_invalid (get_timestamp E).
Proof. intros w e w'. discriminate. Qed.

Lemma never_invalid_run_command E cmd check : never_invalid (run_command E cmd check).
Proof.
  intros w e w'. unfold run_command.
  destruct (subprocess_run E (calls w) cmd) as [rc out err|];
    [destruct (check && negb (rc =? 0))|]; intros H; by inversion H.
Qed.

Lemma never_invalid_if {A} (b : bool) (c1 c2 : M A) :
  never_invalid c1 → never_invalid c2 → never_invalid (if b then c1 else c2).
Proof. by destruct b. Qed.

Create HintDb invalid discriminated.

#[local] Hint Resolve never_invalid_ret never_invalid_echo_err
  never_invalid_get_timestamp never_invalid_run_command
  never_invalid_update_container never_invalid_remove_container
  never_invalid_add_container : invalid.
#[local] Hint Extern 1 (never_invalid (raise _)) =>
  apply never_invalid_raise; first [done | by destruct_all exn] : invalid.
#[local] Hint Extern 2 (never_invalid (bind _ _)) =>
  apply never_invalid_bind; [|intros] : invalid.
#[local] Hint Extern 2 (never_invalid (try_except _ _)) =>
  apply never_invalid_try_except; [|intros] : invalid.
#[local] Hint Extern 2 (never_invalid (if _ then _ else _)) =>
  apply never_invalid_if : invalid.
#[local] Hint Extern 3 (never_invalid (match ?x with _ => _ end)) =>
  destruct x : invalid.

Ltac invalid := eauto 30 with invalid.

Lemma never_invalid_check_podman E : never_invalid (check_podman E).
Proof. unfold check_podman. invalid. Qed.

Lemma never_invalid_check_op_cli E : never_invalid (check_op_cli E).
Proof. unfold check_op_cli. invalid. Qed.

Lemma never_invalid_check_op_auth E : never_invalid (check_op_auth E).
Proof. unfold check_op_auth. invalid. Qed.

#[local] Hint Resolve never_invalid_check_podman never_invalid_check_op_cli
  never_invalid_check_op_auth : invalid.

Lemma never_invalid_get_tailscale_authkey E user :
  never_invalid (get_tailscale_authkey E user).
Proof. unfold get_tailscale_authkey. invalid. Qed.

Lemma never_invalid_podman_or E message cmd : never_invalid (podman_or E message cmd).
Proof. unfold podman_or. invalid. Qed.

#[local] Hint Resolve never_invalid_get_tailscale_authkey never_invalid_podman_or
  : invalid.

Lemma never_invalid_wait_for_tailscale E name timeout :
  never_invalid (wait_for_tailscale E name timeout).
Proof. induction timeout as [|n IH]; simpl; invalid. Qed.

#[local] Hint Resolve never_invalid_wait_for_tailscale : invalid.

Lemma never_invalid_create_provision E name cpu memory no_start sync authkey tags :
  never_invalid (create_provision E name cpu memory no_start sync authkey tags).
Proof.
  unfold create_provision, podman_volume_exists, podman_create_volume,
    podman_run_container.
  invalid.
Qed.

Lemma never_invalid_create_cleanup name e :
  is_ValidationError e = false → never_invalid (create_cleanup name e).
Proof. intros He. unfold create_cleanup. invalid. Qed.

Lemma count_user_containers_initialized user w :
  count_user_containers user (initialized w)
  = ((count_user_containers user w).1, initialized w).
Proof. by rewrite !count_user_containers_eq. Qed.

Lemma count_all_containers_initialized w :
  count_all_containers (initialized w) = ((count_all_containers w).1, initialized w).
Proof. by rewrite !count_all_containers_eq. Qed.

(** The admission of [create], check by check. *)
Lemma create_admission_eq E name cpu memory w :
  create_admission E name cpu memory w
  = match validate_container_name name with
    | Raise e => (Raise e, w)
    | Ok _ =>
    match validate_cpu cpu with
    | Raise e => (Raise e, w)
    | Ok _ =>
    match validate_memory memory with
    | Raise e => (Raise e, w)
    | Ok _ =>
    match (get_container name w).1 with
    | Raise e => (Raise e, initialized w)
    | Ok (Some _) =>
        (Raise (ValidationError ("Container already exists: " +:+ name)), initialized w)
    | Ok None =>
    match (count_user_containers (USER E) w).1 with
    | Raise e => (Raise e, initialized w)
    | Ok user_count =>
    if user_count >=? MAX_PER_USER E then
      (Raise (ValidationError "Container limit reached"), initialized w)
    else
    match (count_all_containers w).1 with
    | Raise e => (Raise e, initialized w)
    | Ok global_count =>
    if global_count >=? MAX_GLOBAL E then
      (Raise (ValidationError "Global container limit reached"), initialized w)
    else
      (check_podman E ;;;
       authkey <- get_tailscale_authkey E (USER E) ;;
       ret (authkey, get_tailscale_tags (USER E))) (initialized w)
    end end end end end end.
Proof.
  unfold create_admission.
  unfold bind at 1, lift at 1. destruct (validate_container_name name); [|done].
  unfold bind at 1, lift at 1. destruct (validate_cpu cpu); [|done].
  unfold bind at 1, lift at 1. destruct (validate_memory memory); [|done].
  unfold bind at 1. rewrite container_exists_eq.
  destruct (get_container name w).1 as [[c|]|]; [done | | done].
  unfold bind at 1, ret at 1.
  unfold bind at 1. rewrite count_user_containers_initialized.
  unfold get_current_user.
  destruct (count_user_containers (USER E) w).1 as [n|]; [|done].
  unfold bind at 1. destruct (n >=? MAX_PER_USER E); [done|]. unfold ret at 1.
  unfold bind at 1. rewrite count_all_containers_initialized.
  destruct (count_all_containers w).1 as [g|]; [|done].
  unfold bind at 1. by destruct (g >=? MAX_GLOBAL E).
Qed.

Lemma bind_Ok_reads {A B} (c : M A) (k : A → M B) w b w' :
  keeps_file c → bind c k w = (Ok b, w') →
  ∃ a w1, registry_of w1 = registry_of w ∧ k a w1 = (Ok b, w').
Proof.
  intros Hc (a & w1 & H1 & H2)%bind_Ok_inv. exists a, w1. split; [|done].
  by apply (keeps_reads_only _ Hc _ _ _ H1).
Qed.

(** An update of the record added last. *)
Lemma update_container_last name updates w d items dn w' :
  registry_of w = Document (JDict d) →
  d !! "containers" = Some (JList (items ++ [JDict dn])) →
  none_named name items = true → dn !! "name" = Some (JStr name) →
  update_container name updates w = (Ok tt, w') →
  registry_of w'
  = Document (JDict (<["containers" := JList (items ++ [JDict (updates ∪ dn)])]> d)).
Proof.
  intros Hw Hd Hnone Hname.
  rewrite (update_container_stored name updates w d _ _ Hw Hd
             (update_first_match name updates items dn [] Hnone Hname)).
  by intros [= <-].
Qed.

(** The guarded block of [create], when it succeeds, has updated the new
    record, and only in its state and its address. *)
Lemma create_provision_Ok E name cpu memory no_start sync authkey tags w d items dn w' :
  registry_of w = Document (JDict d) →
  d !! "containers" = Some (JList (items ++ [JDict dn])) →
  none_named name items = true → dn !! "name" = Some (JStr name) →
  create_provision E name cpu memory no_start sync authkey tags w = (Ok tt, w') →
  ∃ updates : gmap string json,
    (no_start = true → updates = {["state" := JStr "stopped"]})
    ∧ (∀ k, k ≠ "state" → k ≠ "tailscaleIP" → updates !! k = None)
    ∧ registry_of w'
      = Document (JDict (<["containers" := JList (items ++ [JDict (updates ∪ dn)])]> d)).
Proof.
  intros Hw Hd Hnone Hname H. unfold create_provision in H.
  apply bind_Ok_reads in H as (present & w1 & Hw1 & H); [|keeps].
  apply bind_Ok_reads in H as (a2 & w2 & Hw2 & H); [|keeps].
  assert (registry_of w2 = Document (JDict d)) as Hw2' by congruence.
  destruct no_start.
  - exists {["state" := JStr "stopped"]}. split; [done|]. split.
    + intros k Hk _. by apply lookup_singleton_ne.
    + by apply (update_container_last name _ w2).
  - apply bind_Ok_reads in H as (a3 & w3 & Hw3 & H); [|keeps].
    apply bind_Ok_reads in H as (ts_ip & w4 & Hw4 & H); [|keeps].
    assert (registry_of w4 = Document (JDict d)) as Hw4' by congruence.
    destruct (truthy (opt_str ts_ip)).
    + exists (<["state" := JStr "running"]> {["tailscaleIP" := opt_str ts_ip]}).
      split; [done|]. split.
      * intros k Hk1 Hk2. rewrite lookup_insert_ne by done.
        by apply lookup_singleton_ne.
      * by apply (update_container_last name _ w4).
    + exists {["state" := JStr "running"]}. split; [done|]. split.
      * intros k Hk _. by apply lookup_singleton_ne.
      * by apply (update_container_last name _ w4).
Qed.

Lemma exit_on_DevboxError_Ok body w w' :
  exit_on_DevboxError body w = (Ok tt, w') → body w = (Ok tt, w').
Proof.
  unfold exit_on_DevboxError, try_except.
  destruct (body w) as [[[]|e] w1]; [done|].
  destruct (DevboxError_message e); [|discriminate].
  unfold bind, echo_err, raise. discriminate.
Qed.

(** A successful [create] has passed the admission, added the record, and
    updated it at the end of the guarded block. *)
Lemma create_body_Ok E name cpu memory no_start sync w w' :
  create_body E name cpu memory no_start sync w = (Ok tt, w') →
  ∃ d items timestamp (updates : gmap string json),
    validate_container_name name = Ok tt
    ∧ registry_of w = Document (JDict d)
    ∧ d !! "containers" = Some (JList items)
    ∧ none_named name items = true
    ∧ (no_start = true → updates = {["state" := JStr "stopped"]})
    ∧ (∀ k, k ≠ "state" → k ≠ "tailscaleIP" → updates !! k = None)
    ∧ registry_of w'
      = Document (JDict (<["containers" := JList (items ++
          [JDict (updates ∪ record_fields name (USER E) cpu memory sync timestamp)])]> d)).
Proof.
  unfold create_body. intros H.
  apply bind_Ok_inv in H as (key & w1 & Hadm & H).
  apply bind_Ok_inv in H as ([] & w2 & Hadd & H).
  destruct (create_inserted _ _ _ _ _ _ _ _ _ Hadm Hadd)
    as (d & items & Hw & Hd & Hnone & _ & Hw2).
  apply create_admission_Ok in Hadm as (Hname & _).
  unfold try_except in H.
  destruct (create_provision E name cpu memory no_start sync key.1 key.2 w2)
    as [[[]|e] w3] eqn:Hprov.
  - injection H as <-.
    eapply create_provision_Ok in Hprov as (updates & Hstop & Hkeys & Hw');
      [| exact Hw2 | apply lookup_insert_eq | exact Hnone
       | unfold record_fields; apply lookup_insert_eq ].
    rewrite insert_insert_eq in Hw'.
    by exists d, items, (utcnow E (calls w1)), updates.
  - unfold create_cleanup, bind, echo_err in H.
    destruct (remove_container name _) as [[?|?] ?]; discriminate.
Qed.

Lemma has_name_record name dn :
  dn !! "name" = Some (JStr name) → has_name name (JDict dn) = true.
Proof. intros H. unfold has_name. simpl. rewrite H. simpl. by apply bool_decide_eq_true_2. Qed.

(** C6: after a successful [create] with [--no-start], the stored list
    holds exactly one record called [name]: the record [add_container]
    made, with its state set to ["stopped"]; its volume is [name-data], its
    host name is [name], its owner is the caller, its limits are the ones
    given, and it has no address. *)
Theorem create_no_start E name cpu memory sync w w' :
  create E name cpu memory true sync w = (Ok tt, w') →
  ∃ d items timestamp,
    let record := <["state" := JStr "stopped"]>
                    (record_fields name (USER E) cpu memory sync timestamp) in
    registry_of w' = Document (JDict d)
    ∧ d !! "containers" = Some (JList items)
    ∧ filter (λ c, has_name name c) items = [JDict record]
    ∧ record !! "state" = Some (JStr "stopped")
    ∧ record !! "volumeName" = Some (JStr (name +:+ "-data"))
    ∧ record !! "tailscaleHostname" = Some (JStr name)
    ∧ record !! "owner" = Some (JStr (USER E))
    ∧ record !! "cpuLimit" = Some (JInt cpu)
    ∧ record !! "memoryLimit" = Some (JStr memory)
    ∧ record !! "tailscaleIP" = Some JNull.
Proof.
  intros H%exit_on_DevboxError_Ok.
  apply create_body_Ok in H
    as (d & items & timestamp & updates & _ & _ & Hd & Hnone & Hstop & _ & Hw').
  rewrite (Hstop eq_refl), <- insert_union_singleton_l in Hw'.
  eexists _, _, timestamp. simpl.
  split; [exact Hw'|]. split; [apply lookup_insert_eq|]. split.
  - rewrite filter_app, (filter_has_name_none _ _ Hnone). simpl.
    rewrite filter_cons_True; [done|].
    apply Is_true_true, has_name_record. by rewrite lookup_insert_ne.
  - by repeat split.
Qed.

Lemma create_no_start_witness :
  ∃ d items timestamp,
    let record := <["state" := JStr "stopped"]>
                    (record_fields "demo-env" "alice" 2 "4G" false timestamp) in
    registry_of (create sample_env "demo-env" 2 "4G" true false empty_world).2
    = Document (JDict d)
    ∧ d !! "containers" = Some (JList items)
    ∧ filter (λ c, has_name "demo-env" c) items = [JDict record]
    ∧ record !! "state" = Some (JStr "stopped")
    ∧ record !! "volumeName" = Some (JStr ("demo-env" +:+ "-data"))
    ∧ record !! "tailscaleHostname" = Some (JStr "demo-env")
    ∧ record !! "owner" = Some (JStr "alice")
    ∧ record !! "cpuLimit" = Some (JInt 2)
    ∧ record !! "memoryLimit" = Some (JStr "4G")
    ∧ record !! "tailscaleIP" = Some JNull.
Proof.
  apply (create_no_start sample_env "demo-env" 2 "4G" false empty_world
           (create sample_env "demo-env" 2 "4G" true false empty_world).2).
  vm_compute. reflexivity.
Defined.

(** ** The per-owner quota *)

Lemma count_owned_snoc user items c n :
  count_owned user items = Ok n → getitem c "owner" = Ok (JStr user) →
  count_owned user (items ++ [c]) = Ok (1 + n).
Proof.
  intros Hn Hc. revert n Hn. induction items as [|x rest IH]; simpl; intros n.
  - intros [= <-]. rewrite Hc. simpl. by rewrite bool_decide_eq_true_2.
  - destruct (getitem x "owner") as [v|]; [|discriminate].
    destruct (count_owned user rest) as [m|]; [|discriminate].
    intros [= <-]. rewrite (IH m eq_refl). f_equal. destruct (eq_str v user); lia.
Qed.

Lemma validate_container_name_message name e :
  validate_container_name name = Raise e → e ≠ ValidationError "Container limit reached".
Proof.
  unfold validate_container_name.
  repeat match goal with |- context [if ?b then _ else _] => destruct b end;
    intros [= <-]; simpl; discriminate.
Qed.

Lemma validate_cpu_message cpu e :
  validate_cpu cpu = Raise e → e ≠ ValidationError "Container limit reached".
Proof.
  unfold validate_cpu.
  repeat match goal with |- context [if ?b then _ else _] => destruct b end;
    intros [= <-]; simpl; discriminate.
Qed.

Lemma validate_memory_message memory e :
  validate_memory memory = Raise e → e ≠ ValidationError "Container limit reached".
Proof.
  unfold validate_memory.
  repeat match goal with |- context [if ?b then _ else _] => destruct b end;
    intros [= <-]; simpl; discriminate.
Qed.

(** C5: let the caller own [n] containers. At the limit and above,
    [create] fails, the registry reads as before and no command has been
    run; when the arguments are valid and the name is free, the failure is
    the one of the per-owner limit. One below the limit, [create] never
    fails on the per-owner limit, and when it succeeds the caller owns
    [MAX_PER_USER] containers. *)
Theorem create_owner_quota E name cpu memory no_start sync w n r w' :
  (count_user_containers (USER E) w).1 = Ok n →
  create_body E name cpu memory no_start sync w = (r, w') →
  (MAX_PER_USER E ≤ n →
     (∃ e, r = Raise e)
     ∧ registry_of w' = registry_of w
     ∧ calls w' = calls w
     ∧ (validate_container_name name = Ok tt → validate_cpu cpu = Ok tt →
        validate_memory memory = Ok tt → (get_container name w).1 = Ok None →
        r = Raise (ValidationError "Container limit reached")))
  ∧ (n = MAX_PER_USER E - 1 →
     r ≠ Raise (ValidationError "Container limit reached")
     ∧ (r = Ok tt → (count_user_containers (USER E) w').1 = Ok (MAX_PER_USER E))).
Proof.
  intros Hn H. split.
  - intros Hmax. apply Z.geb_le in Hmax as Hgeb.
    unfold create_body in H. unfold bind at 1 in H.
    rewrite create_admission_eq, Hn, Hgeb in H.
    destruct (validate_container_name name) as [[]|];
      [|injection H as <- <-; by repeat split; eauto].
    destruct (validate_cpu cpu) as [[]|];
      [|injection H as <- <-; by repeat split; eauto].
    destruct (validate_memory memory) as [[]|];
      [|injection H as <- <-; by repeat split; eauto].
    destruct (get_container name w).1 as [[c|]|];
      injection H as <- <-; by repeat split; eauto.
  - intros ->. split.
    + intros ->. unfold create_body in H.
      apply bind_inv in H as [(key & w1 & Hadm & H)|(e & Hadm & [= <-])].
      * apply bind_inv in H as [([] & w2 & Hadd & H)|(e & Hadd & [= <-])];
          [|by apply never_invalid_add_container in Hadd].
        unfold try_except in H.
        destruct (create_provision E name cpu memory no_start sync key.1 key.2 w2)
          as [[[]|e] w3] eqn:Hprov; [discriminate|].
        apply never_invalid_create_provision in Hprov.
        by apply (never_invalid_create_cleanup name e Hprov) in H.
      * rewrite create_admission_eq, Hn in Hadm.
        assert ((MAX_PER_USER E - 1 >=? MAX_PER_USER E) = false) as Hgeb
          by (rewrite Z.geb_leb; apply Z.leb_gt; lia).
        rewrite Hgeb in Hadm.
        destruct (validate_container_name name) as [[]|] eqn:H1;
          [|injection Hadm as -> _; by apply validate_container_name_message in H1].
        destruct (validate_cpu cpu) as [[]|] eqn:H2;
          [|injection Hadm as -> _; by apply validate_cpu_message in H2].
        destruct (validate_memory memory) as [[]|] eqn:H3;
          [|injection Hadm as -> _; by apply validate_memory_message in H3].
        destruct (get_container name w).1 as [[c|]|] eqn:H4;
          [discriminate Hadm | |
           injection Hadm as -> _; by apply not_invalid_get_container in H4].
        destruct (count_all_containers w).1 as [g|] eqn:H5;
          [|injection Hadm as -> _; by apply not_invalid_count_all_containers in H5].
        destruct (g >=? MAX_GLOBAL E); [discriminate Hadm|].
        assert (never_invalid
                  (check_podman E ;;;
                   authkey <- get_tailscale_authkey E (USER E) ;;
                   ret (authkey, get_tailscale_tags (USER E)))) as Hrest by invalid.
        by apply Hrest in Hadm.
    + intros ->.
      apply create_body_Ok in H
        as (d & items & ts & updates & _ & Hw & Hd & _ & _ & Hkeys & Hw').
      revert Hn. rewrite !count_user_containers_eq, Hw, Hw'. simpl.
      rewrite Hd, lookup_insert_eq. simpl. intros Hn.
      rewrite (count_owned_snoc _ _ _ _ Hn); [f_equal; lia|].
      simpl. by rewrite lookup_union_r by (by apply Hkeys).
Qed.

Lemma create_owner_quota_witness :
  ((create_body sample_env "six-env" 2 "4G" true false five_world).1
     = Raise (ValidationError "Container limit reached")
   ∧ registry_of (create_body sample_env "six-env" 2 "4G" true false five_world).2
     = registry_of five_world
   ∧ calls (create_body sample_env "six-env" 2 "4G" true false five_world).2
     = calls five_world)
  ∧ ((create_body sample_env "five-env" 2 "4G" true false four_world).1 = Ok tt
     ∧ (count_user_containers "alice"
          (create_body sample_env "five-env" 2 "4G" true false four_world).2).1
       = Ok 5).
Proof.
  split.
  - destruct (create_owner_quota sample_env "six-env" 2 "4G" true false five_world 5
                (create_body sample_env "six-env" 2 "4G" true false five_world).1
                (create_body sample_env "six-env" 2 "4G" true false five_world).2)
      as [Hlimit _]; [vm_compute; reflexivity | vm_compute; reflexivity |].
    destruct Hlimit as (_ & Hreg & Hcalls & Hquota); [vm_compute; discriminate|].
    split; [apply Hquota; vm_compute; reflexivity | split; [exact Hreg | exact Hcalls]].
  - destruct (create_owner_quota sample_env "five-env" 2 "4G" true false four_world 4
                (Ok tt)
                (create_body sample_env "five-env" 2 "4G" true false four_world).2)
      as [_ Hbelow]; [vm_compute; reflexivity | vm_compute; reflexivity |].
    destruct Hbelow as [_ Hcount]; [vm_compute; reflexivity|].
    split; [vm_compute; reflexivity|]. by apply Hcount.
Defined.

(** ** Scenarios *)

(** The scenario of the specification: ["demo-env"] is created with two
    cores and 4G and not started, then started on a host where the address
    shows at the second poll. *)
Example create_then_start :
  ∃ w1 w2 timestamp,
    create polling_env "demo-env" 2 "4G" true false empty_world = (Ok tt, w1)
    ∧ start polling_env "demo-env" w1 = (Ok tt, w2)
    ∧ registry_of w1
      = Document (JDict (registry_doc 1
          [JDict (<["state" := JStr "stopped"]>
                    (record_fields "demo-env" "alice" 2 "4G" false timestamp))]))
    ∧ registry_of w2
      = Document (JDict (registry_doc 1
          [JDict (<["state" := JStr "running"]>
                 (<["tailscaleIP" := JStr "100.64.0.5"]>
                    (record_fields "demo-env" "alice" 2 "4G" false timestamp)))]))
    ∧ filter (λ cmd, bool_decide (cmd = poll "demo-env")) (calls w2)
      = [poll "demo-env"; poll "demo-env"].
Proof.
  eexists _, _, "2025-01-01T00:00:00Z".
  split; [vm_compute; reflexivity|]. split; [vm_compute; reflexivity|].
  repeat split; vm_compute; reflexivity.
Qed.

(** After a [destroy] that went through, the record is gone: a second
    [destroy] of the same name finds no record. *)
Lemma destroy_then_absent E name keep_volume w w1 :
  destroy_body E name true keep_volume w = (Ok tt, w1) →
  (get_container name w1).1 = Ok None.
Proof.
  unfold destroy_body. intros H.
  apply bind_Ok_inv in H as (c & w2 & _ & H).
  apply bind_Ok_inv in H as (a & w3 & _ & H).
  apply bind_Ok_inv in H as (go_on & w4 & Hgo & H).
  injection Hgo as <- <-. simpl in H.
  do 6 (apply bind_Ok_inv in H as (? & ? & _ & H)).
  revert H. rewrite remove_container_eq, get_container_eq. simpl.
  destruct (registry_of _) as [doc|]; [|discriminate].
  destruct (getitem doc "containers") as [cs|] eqn:Hg; [|discriminate].
  apply getitem_Ok in Hg as (d & -> & Hd).
  destruct (iterate cs) as [items|]; [|discriminate].
  destruct (remove_named name items) as [kept|] eqn:Hkept; [|discriminate].
  simpl. intros [= <-]. simpl. rewrite lookup_insert_eq. simpl.
  apply find_container_None. by eapply remove_named_none_left.
Qed.

(** ** Interleavings of [add_container] *)

Lemma insert_lookup_cases (ps : list pc) i p' j x :
  <[i:=p']> ps !! j = Some x → (j = i ∧ x = p') ∨ (j ≠ i ∧ ps !! j = Some x).
Proof.
  intros H. apply list_lookup_insert_Some in H as [(-> & -> & _)|[Hne H]]; auto.
Qed.

Lemma forallb_lookup {A} (f : A → bool) (l : list A) i x :
  forallb f l = true → l !! i = Some x → f x = true.
Proof.
  intros H Hx. eapply forallb_forall in H; [done|].
  apply list_elem_of_In. by eapply list_elem_of_lookup_2.
Qed.

Lemma forallb_insert {A} (f : A → bool) (l : list A) i x :
  forallb f l = true → f x = true → forallb f (<[i:=x]> l) = true.
Proof.
  revert i. induction l as [|y l IH]; intros i; [done|].
  simpl. intros [Hy Hl]%andb_true_iff Hx.
  destruct i; simpl; apply andb_true_iff; auto.
Qed.

Lemma forallb_false_lookup {A} (f : A → bool) (l : list A) :
  forallb f l = false → ∃ i x, l !! i = Some x ∧ f x = false.
Proof.
  induction l as [|y l IH]; [discriminate|]. simpl.
  destruct (f y) eqn:Hy.
  - intros (i & x & Hx & Hfx)%IH. by exists (S i), x.
  - intros _. by exists 0%nat, y.
Qed.

Lemma committed_insert_same reqs ps i p p' :
  ps !! i = Some p → is_committed p' = is_committed p →
  committed reqs (<[i:=p']> ps) = committed reqs ps.
Proof.
  revert reqs i. induction ps as [|x ps IH]; intros reqs i; [done|].
  destruct reqs as [|q reqs]; [by destruct i|].
  destruct i; simpl.
  - intros [= ->] ->. done.
  - intros Hp Hc. by rewrite (IH reqs i Hp Hc).
Qed.

Lemma committed_insert_new reqs ps i q p p' :
  reqs !! i = Some q → ps !! i = Some p →
  is_committed p = false → is_committed p' = true →
  committed reqs (<[i:=p']> ps) ≡ₚ q :: committed reqs ps.
Proof.
  revert reqs i. induction ps as [|x ps IH]; intros reqs i; [done|].
  destruct reqs as [|q0 reqs]; [done|].
  destruct i; simpl.
  - intros [= ->] [= ->] -> ->. done.
  - intros Hq Hp Hc Hc'. rewrite (IH reqs i Hq Hp Hc Hc').
    destruct (is_committed x); simpl; [apply Permutation_swap | done].
Qed.

Lemma committed_sublist reqs ps : committed reqs ps `sublist_of` reqs.
Proof.
  revert ps. induction reqs as [|q reqs IH]; intros [|p ps]; simpl;
    try apply sublist_nil_l.
  destruct (is_committed p); simpl; [apply sublist_skip | apply sublist_cons]; apply IH.
Qed.

Lemma terminated_on_track ps :
  forallb is_terminated ps = true → forallb on_track ps = true →
  Forall (λ p, p = Done ∨ p = Failed JSONDecodeError) ps.
Proof.
  induction ps as [|p ps IH]; simpl; [constructor|].
  intros [Hp Hps]%andb_true_iff [Hp' Hps']%andb_true_iff.
  constructor; [|by apply IH].
  destruct p; try discriminate; [by left|]. destruct e; try discriminate. by right.
Qed.

(** Every step brings its process nearer to its end. *)
Lemma proc_step_steps_left q timestamp i p f l p' f' l' :
  proc_step q timestamp i p f l = Some (p', f', l') →
  (steps_left p' < steps_left p)%nat.
Proof.
  destruct p; simpl;
    repeat match goal with
           | |- context [match ?x with _ => _ end] => destruct x
           end; try discriminate; intros [= <- <- <-]; simpl; lia.
Qed.

Lemma total_steps_left_insert ps i p p' :
  ps !! i = Some p → (steps_left p' < steps_left p)%nat →
  (total_steps_left (<[i:=p']> ps) < total_steps_left ps)%nat.
Proof.
  unfold total_steps_left. revert i. induction ps as [|x ps IH]; intros i; [done|].
  destruct i.
  - intros [= ->] ?. simpl. lia.
  - intros Hp Hlt. simpl. apply Nat.add_lt_mono_l. by apply IH.
Qed.

Lemma system_step_steps_left reqs i timestamp s s' :
  system_step reqs i timestamp s = Some s' →
  (total_steps_left (procs s') < total_steps_left (procs s))%nat.
Proof.
  unfold system_step.
  destruct (reqs !! i) as [q|]; [|discriminate].
  destruct (procs s !! i) as [p|] eqn:Hp; [|discriminate].
  destruct (proc_step q timestamp i p (file s) (lock s)) as [[[p' f'] l']|] eqn:Hstep;
    [|discriminate].
  intros [= <-]. simpl.
  apply (total_steps_left_insert _ _ p); [done|].
  by apply proc_step_steps_left in Hstep.
Qed.

(** A schedule that runs is no longer than the steps its processes had
    before them. *)
Lemma run_length reqs schedule s s' :
  run reqs schedule s = Some s' →
  (length schedule + total_steps_left (procs s') ≤ total_steps_left (procs s))%nat.
Proof.
  revert s. induction schedule as [|[i timestamp] rest IH]; intros s; simpl.
  - intros [= ->]. lia.
  - destruct (system_step reqs i timestamp s) as [s1|] eqn:Hstep; [|discriminate].
    intros H%IH. apply system_step_steps_left in Hstep. lia.
Qed.

Lemma total_steps_left_initial n : total_steps_left (replicate n AtInit) = (12 * n)%nat.
Proof.
  unfold total_steps_left. induction n as [|n IH]; [done|].
  transitivity (12 + sum_list (steps_left <$> replicate n AtInit))%nat;
    [reflexivity | rewrite IH; lia].
Qed.

(** *** Tokens *)

Lemma token_holder f t ps i p :
  token f t ps → ps !! i = Some p → f p = true → t = Some i.
Proof. intros [H _] Hp Hf. by apply (H i p Hp). Qed.

Lemma token_other f t ps i j p :
  token f t ps → t = Some i → ps !! j = Some p → j ≠ i → f p = false.
Proof.
  intros [H _] -> Hp Hne. destruct (f p) eqn:Hf; [|done].
  apply (H j p Hp) in Hf. congruence.
Qed.

Lemma token_free f ps j p : token f None ps → ps !! j = Some p → f p = false.
Proof.
  intros [H _] Hp. destruct (f p) eqn:Hf; [|done]. by apply (H j p Hp) in Hf.
Qed.

Lemma token_same f t ps i p p' :
  token f t ps → ps !! i = Some p → f p' = f p → token f t (<[i:=p']> ps).
Proof.
  intros [H Hlt] Hp Hf. split; [|by intros j; rewrite length_insert; apply Hlt].
  intros j x [[-> ->]|[Hne Hj]]%insert_lookup_cases; [|by apply H].
  rewrite Hf. by apply H.
Qed.

Lemma token_acquire f ps i p p' :
  token f None ps → ps !! i = Some p → f p' = true → token f (Some i) (<[i:=p']> ps).
Proof.
  intros Ht Hp Hf. split.
  - intros j x [[-> ->]|[Hne Hj]]%insert_lookup_cases; [by rewrite Hf|].
    rewrite (token_free _ _ _ _ Ht Hj). split; [done | congruence].
  - intros j [= <-]. rewrite length_insert. by eapply lookup_lt_Some.
Qed.

Lemma token_release f t ps i p p' :
  token f t ps → ps !! i = Some p → f p = true → f p' = false →
  token f None (<[i:=p']> ps).
Proof.
  intros Ht Hp Hf Hf'. pose proof (token_holder _ _ _ _ _ Ht Hp Hf) as Hi.
  split; [|done].
  intros j x [[-> ->]|[Hne Hj]]%insert_lookup_cases; [by rewrite Hf'|].
  by rewrite (token_other _ _ _ _ _ _ Ht Hi Hj Hne).
Qed.

(** *** The invariant *)

Lemma stored_nothing d0 :
  d0 !! "containers" = Some (JList []) → stored d0 [] = JDict d0.
Proof. intros H. unfold stored. simpl. by rewrite insert_id. Qed.

Lemma appended_stored d0 entries q timestamp :
  appended (stored d0 entries) q timestamp
  = Ok (stored d0 (entries ++ [(q, timestamp)])).
Proof.
  unfold appended, stored. simpl. rewrite lookup_insert_eq. simpl.
  by rewrite insert_insert_eq, fmap_app.
Qed.

Lemma token_initial f n : f AtInit = false → token f None (replicate n AtInit).
Proof.
  intros Hf. split; [|done]. intros j p [-> _]%lookup_replicate.
  rewrite Hf. by split.
Qed.

Lemma invariant_initial reqs d0 :
  d0 !! "containers" = Some (JList []) →
  invariant reqs d0 (initial (JDict d0) (length reqs)).
Proof.
  intros Hd0. unfold invariant, initial. simpl.
  split; [apply length_replicate|]. split.
  { induction (length reqs) as [|n IH]; [done|]. simpl. by rewrite IH. }
  split; [by apply token_initial|].
  exists None, []. split; [by apply token_initial|]. split.
  { clear Hd0. generalize (length reqs).
    induction reqs as [|q reqs IH]; intros [|n]; try done. simpl. apply IH. }
  split; [by intros j registry [? _]%lookup_replicate|].
  split; [by intros j p registry q [-> _]%lookup_replicate|].
  by rewrite stored_nothing.
Qed.

(** The invariant after a step of process [i], from what holds of the new
    program counter and of the processes that did not move. *)
Lemma invariant_update reqs d0 s i q p p' f' l' writer' entries' :
  length (procs s) = length reqs → forallb on_track (procs s) = true →
  reqs !! i = Some q → procs s !! i = Some p →
  on_track p' = true →
  token holding l' (<[i:=p']> (procs s)) →
  token pending writer' (<[i:=p']> (procs s)) →
  entries'.*1 ≡ₚ committed reqs (<[i:=p']> (procs s)) →
  (∀ j registry, j ≠ i → procs s !! j = Some (Loaded registry) →
     writer' = None ∧ registry = stored d0 entries') →
  (∀ registry, p' = Loaded registry → writer' = None ∧ registry = stored d0 entries') →
  (∀ j pj registry qj, j ≠ i → procs s !! j = Some pj →
     buffer_of pj = Some registry → reqs !! j = Some qj →
     ∃ timestamp, registry = stored d0 (entries' ++ [(qj, timestamp)])) →
  (∀ registry, buffer_of p' = Some registry →
     ∃ timestamp, registry = stored d0 (entries' ++ [(q, timestamp)])) →
  f' = match writer' with
       | Some _ => Some Undecodable
       | None => Some (Document (stored d0 entries'))
       end →
  invariant reqs d0 {| file := f'; lock := l'; procs := <[i:=p']> (procs s) |}.
Proof.
  intros Hlen Htrack Hq Hp Ht' Hlock Hwriter Hperm Hloaded Hloaded' Hbuf Hbuf' ->.
  unfold invariant. simpl.
  split; [by rewrite length_insert|]. split; [by apply forallb_insert|].
  split; [done|]. exists writer', entries'.
  split; [done|]. split; [done|]. split.
  { intros j registry [[-> Heq]|[Hji Hj]]%insert_lookup_cases; eauto. }
  split; [|done].
  intros j pj registry qj [[-> ->]|[Hji Hj]]%insert_lookup_cases Hb Hqj; [|eauto].
  assert (qj = q) as -> by congruence. eauto.
Qed.

Lemma invariant_step reqs d0 i timestamp s s' :
  invariant reqs d0 s → system_step reqs i timestamp s = Some s' →
  invariant reqs d0 s'.
Proof.
  intros (Hlen & Htrack & Hlock & writer & entries & Hwriter & Hperm & Hloaded
          & Hbuf & Hfile).
  unfold system_step.
  destruct (reqs !! i) as [q|] eqn:Hq; [|discriminate].
  destruct (procs s !! i) as [p|] eqn:Hp; [|discriminate].
  destruct (proc_step q timestamp i p (file s) (lock s)) as [[[p' f'] l']|] eqn:Hstep;
    [|discriminate].
  intros [= <-].
  pose proof (forallb_lookup _ _ _ _ Htrack Hp) as Hp_track.
  assert (file s ≠ None) as Hsome by (rewrite Hfile; by destruct writer).
  destruct p; try discriminate Hp_track; simpl in Hstep.
  - (* os.open(O_CREAT | O_EXCL): the file exists *)
    destruct (file s) eqn:Hf; [|done]. injection Hstep as <- <- <-.
    apply (invariant_update reqs d0 s i q AtInit AtOpen _ _ writer entries);
      try done; eauto using token_same.
    by rewrite (committed_insert_same _ _ _ AtInit).
  - (* open(REGISTRY_FILE, "r+") *)
    destruct (file s) eqn:Hf; [|done]. injection Hstep as <- <- <-.
    apply (invariant_update reqs d0 s i q AtOpen Opened _ _ writer entries);
      try done; eauto using token_same.
    by rewrite (committed_insert_same _ _ _ AtOpen).
  - (* flock(LOCK_EX) *)
    destruct (lock s) eqn:Hl; [discriminate|]. injection Hstep as <- <- <-.
    apply (invariant_update reqs d0 s i q Opened Locked _ _ writer entries);
      try done; eauto using token_same, token_acquire.
    by rewrite (committed_insert_same _ _ _ Opened).
  - (* json.load(f) *)
    rewrite Hfile in Hstep. destruct writer as [k|]; injection Hstep as <- <- <-.
    + apply (invariant_update reqs d0 s i q Locked (Failing JSONDecodeError) _ _
               (Some k) entries); try done; eauto using token_same.
      by rewrite (committed_insert_same _ _ _ Locked).
    + apply (invariant_update reqs d0 s i q Locked (Loaded (stored d0 entries)) _ _
               None entries); try done; eauto using token_same.
      * by rewrite (committed_insert_same _ _ _ Locked).
      * by intros registry [= <-].
  - (* get_timestamp, append, f.seek(0), f.truncate() *)
    destruct (Hloaded _ _ Hp) as [-> ->].
    rewrite appended_stored in Hstep. injection Hstep as <- <- <-.
    pose proof (token_holder _ _ _ _ _ Hlock Hp eq_refl) as Hl.
    apply (invariant_update reqs d0 s i q (Loaded (stored d0 entries))
             (Truncated (stored d0 (entries ++ [(q, timestamp)]))) _ _
             (Some i) entries); try done; eauto using token_same, token_acquire.
    + by rewrite (committed_insert_same _ _ _ (Loaded (stored d0 entries))).
    + intros j registry Hji Hj.
      discriminate (token_other _ _ _ _ _ _ Hlock Hl Hj Hji).
    + intros registry [= <-]. eauto.
  - (* json.dump(registry, f): into the buffer *)
    injection Hstep as <- <- <-.
    apply (invariant_update reqs d0 s i q (Truncated registry) (Buffered registry) _ _
             writer entries); try done; eauto using token_same;
      try (by rewrite (committed_insert_same _ _ _ (Truncated registry)));
      try (intros r [= <-]; by apply (Hbuf i (Truncated registry))).
  - (* finally: flock(LOCK_UN) *)
    injection Hstep as <- <- <-.
    apply (invariant_update reqs d0 s i q (Buffered registry) (Unlocked registry) _ _
             writer entries); try done; eauto using token_same, token_release;
      try (by rewrite (committed_insert_same _ _ _ (Buffered registry)));
      try (intros r [= <-]; by apply (Hbuf i (Buffered registry))).
  - (* the file is closed: the buffer reaches the file *)
    injection Hstep as <- <- <-.
    destruct (Hbuf i _ registry q Hp eq_refl Hq) as (ts & ->).
    pose proof (token_holder _ _ _ _ _ Hwriter Hp eq_refl) as Hw.
    apply (invariant_update reqs d0 s i q (Unlocked (stored d0 (entries ++ [(q, ts)])))
             Done _ _ None (entries ++ [(q, ts)]));
      try done; eauto using token_same, token_release.
    + rewrite (committed_insert_new _ _ _ q
                 (Unlocked (stored d0 (entries ++ [(q, ts)])))); try done.
      rewrite fmap_app. simpl. rewrite Hperm. symmetry. apply Permutation_cons_append.
    + intros j registry Hji Hj. destruct (Hloaded _ _ Hj) as [Hnone _]. congruence.
    + intros j pj registry qj Hji Hj Hb.
      pose proof (token_other _ _ _ _ _ _ Hwriter Hw Hj Hji) as Hpend.
      destruct pj; discriminate.
  - (* finally: flock(LOCK_UN), the exception goes on *)
    injection Hstep as <- <- <-.
    apply (invariant_update reqs d0 s i q (Failing e) (Failed e) _ _ writer entries);
      try done; eauto using token_same, token_release.
    by rewrite (committed_insert_same _ _ _ (Failing e)).
  - (* the call has returned *)
    discriminate.
  - (* the call has raised *)
    discriminate.
Qed.

Lemma invariant_run reqs d0 schedule s s' :
  invariant reqs d0 s → run reqs schedule s = Some s' → invariant reqs d0 s'.
Proof.
  revert s. induction schedule as [|[i timestamp] rest IH]; intros s Hinv; simpl.
  - by intros [= <-].
  - destruct (system_step reqs i timestamp s) as [s1|] eqn:Hstep; [|discriminate].
    apply IH. by eapply invariant_step.
Qed.

(** No deadlock: while a call is unfinished, some process can move. *)
Lemma invariant_progress reqs d0 s :
  invariant reqs d0 s → finished s = false →
  ∃ i timestamp s', system_step reqs i timestamp s = Some s'.
Proof.
  intros (Hlen & Htrack & Hlock & _) Hfin.
  assert (∀ j p, procs s !! j = Some p → ∃ q, reqs !! j = Some q) as Hreq.
  { intros j p Hj. apply lookup_lt_is_Some. rewrite <- Hlen. by eapply lookup_lt_Some. }
  destruct (lock s) as [j|] eqn:Hl.
  - destruct Hlock as [Hholds Hlt].
    destruct (lookup_lt_is_Some_2 _ _ (Hlt j eq_refl)) as [p Hp].
    destruct (Hreq _ _ Hp) as [q Hq].
    assert (holding p = true) as Hh by (by apply (Hholds j p Hp)).
    exists j, "". unfold system_step. rewrite Hq, Hp.
    destruct p; try discriminate; simpl; eauto.
    + destruct (file s) as [[?|]|]; eauto.
    + destruct (appended registry q ""); eauto.
  - apply forallb_false_lookup in Hfin as (i & p & Hp & Hterm).
    destruct (Hreq _ _ Hp) as [q Hq].
    pose proof (forallb_lookup _ _ _ _ Htrack Hp) as Ht.
    pose proof (token_free _ _ _ _ Hlock Hp) as Hh.
    exists i, "". unfold system_step. rewrite Hq, Hp, Hl.
    destruct p; try discriminate; simpl; eauto; destruct (file s); eauto.
Qed.

Lemma record_of_name entry :
  getitem (record_of entry) "name" = Ok (JStr (req_name entry.1)).
Proof. unfold record_of, new_record, record_fields. simpl. by rewrite lookup_insert_eq. Qed.

(** X24: what concurrent calls of [add_container] with distinct names do to
    a registry without containers, in any interleaving of their steps. Every
    schedule is bounded by the number of calls; in a state where some call
    is unfinished some process can take a step; and once all calls are
    finished, each call has returned or has raised the error of
    [json.load], and the file holds exactly one record for each call that
    has returned, and none for the others. *)
Lemma concurrent_add_container_outcomes reqs d0 schedule s :
  NoDup (req_name <$> reqs) →
  d0 !! "containers" = Some (JList []) →
  run reqs schedule (initial (JDict d0) (length reqs)) = Some s →
  (length schedule ≤ 12 * length reqs)%nat
  ∧ (finished s = false → ∃ i timestamp s', system_step reqs i timestamp s = Some s')
  ∧ (finished s = true →
       Forall (λ p, p = Done ∨ p = Failed JSONDecodeError) (procs s)
       ∧ ∃ (entries : list (request * string)) (items : list json),
           file s = Some (Document (JDict (<["containers" := JList items]> d0)))
           ∧ items = record_of <$> entries
           ∧ entries.*1 ≡ₚ committed reqs (procs s)
           ∧ NoDup ((λ c, getitem c "name") <$> items)).
Proof.
  intros Hnames Hd0 Hrun.
  pose proof (invariant_run _ _ _ _ _ (invariant_initial reqs d0 Hd0) Hrun) as Hinv.
  split.
  { apply run_length in Hrun. simpl in Hrun. rewrite total_steps_left_initial in Hrun.
    lia. }
  split; [by apply (invariant_progress reqs d0)|].
  intros Hfin.
  destruct Hinv as (Hlen & Htrack & Hlock & writer & entries & Hwriter & Hperm & _
                    & _ & Hfile).
  split; [by apply terminated_on_track|].
  exists entries, (record_of <$> entries).
  assert (writer = None) as ->.
  { destruct writer as [j|]; [|done]. destruct Hwriter as [Hpend Hlt].
    destruct (lookup_lt_is_Some_2 _ _ (Hlt j eq_refl)) as [p Hp].
    pose proof (forallb_lookup _ _ _ _ Hfin Hp) as Hterm.
    assert (pending p = true) as Hp' by (by apply (Hpend j p Hp)).
    destruct p; discriminate. }
  split; [done|]. split; [done|]. split; [done|].
  rewrite <- list_fmap_compose.
  rewrite (list_fmap_ext _ (λ e, Ok (JStr (req_name e.1))) entries)
    by (intros i e _; apply record_of_name).
  assert (NoDup (req_name <$> entries.*1)) as Hnd.
  { rewrite Hperm. apply (sublist_NoDup _ (req_name <$> reqs)); [done|].
    apply fmap_sublist, committed_sublist. }
  rewrite <- list_fmap_compose in Hnd.
  assert ((λ e : request * string, Ok (JStr (req_name e.1)) : result json) <$> entries
          = (λ n, Ok (JStr n)) <$> (req_name ∘ fst <$> entries)) as ->
    by (by rewrite <- list_fmap_compose).
  apply NoDup_fmap_2; [|done]. by intros x y [= ->].
Qed.

(** C2 fails on the code. Two calls start on an empty registry. The first
    goes as far as releasing the lock; its registry is still in the buffer
    of its file object and the file is empty. The second then takes the
    lock, and [json.load] raises on the empty file. When both calls have
    ended the registry holds one record, not two. *)
Theorem concurrent_add_container_loses_a_call :
  run racing_requests racing_schedule (initial (JDict (registry_doc 1 [])) 2)
  = Some racing_final
  ∧ finished racing_final = true
  ∧ procs racing_final = [Done; Failed JSONDecodeError]
  ∧ length racing_requests = 2%nat
  ∧ ∃ items,
      file racing_final
      = Some (Document (JDict (<["containers" := JList items]> (registry_doc 1 []))))
      ∧ length items = 1%nat.
Proof.
  split; [vm_compute; reflexivity|]. split; [vm_compute; reflexivity|].
  split; [vm_compute; reflexivity|]. split; [reflexivity|].
  eexists. split; [vm_compute; reflexivity | reflexivity].
Qed.

(** When each call takes the lock only once the file is written, all three
    records are stored, in the order in which the calls took the lock. *)
Example sample_final_order :
  finished sample_final = true
  ∧ procs sample_final = [Done; Done; Done]
  ∧ file sample_final
    = Some (Document (stored (registry_doc 1 [])
        ((λ q, (q, "2025-01-01T12:00:00Z")) <$>
           [ {| req_name := "two-env"; req_owner := "bob"; req_cpu := 4;
                req_memory := "8G"; req_sync := true |};
             {| req_name := "three-env"; req_owner := "alice"; req_cpu := 1;
                req_memory := "512M"; req_sync := false |};
             {| req_name := "one-env"; req_owner := "alice"; req_cpu := 2;
                req_memory := "4G"; req_sync := false |} ]))).
Proof. repeat split; vm_compute; reflexivity. Qed.

(** X25: a call that runs alone, from start to end, leaves in the file
    what [add_container] leaves in the sequential model. *)
Lemma solo_run_is_add_container E q doc timestamp w s :
  registry_file w = Some (Document doc) → utcnow E (calls w) = timestamp →
  run [q] ((λ _, (0%nat, timestamp)) <$> seq 0 8)
      {| file := registry_file w; lock := None; procs := [AtInit] |} = Some s →
  procs s = [Done] ∧ lock s = None
  ∧ add_container E (req_name q) (req_owner q) (req_cpu q) (req_memory q) (req_sync q) w
    = (Ok tt, with_file (file s) w).
Proof.
  intros Hw <-. rewrite add_container_eq, (registry_of_stored _ _ Hw), Hw.
  destruct (appended doc q (utcnow E (calls w))) as [doc'|e] eqn:Happ;
    cbn -[appended]; rewrite Happ; cbn; [|discriminate].
  intros [= <-]. repeat split.
  revert Happ. unfold appended, record_of. simpl.
  destruct (getitem doc "containers") as [cs|]; [|discriminate].
  destruct (append cs _) as [cs'|]; [|discriminate].
  by intros ->.
Qed.

(** On a path without a registry file the same loss shows one step
    earlier: the call that finds the file just created by the other reads
    it before anything is written to it. *)
Example fresh_file_race :
  finished fresh_final = true
  ∧ procs fresh_final = [Done; Failed JSONDecodeError]
  ∧ file fresh_final
    = Some (Document (JDict (<["containers" :=
        JList [record_of ({| req_name := "one-env"; req_owner := "alice"; req_cpu := 2;
                             req_memory := "4G"; req_sync := false |},
                          "2025-01-01T12:00:00Z")]]> (registry_doc 1 [])))).
Proof. repeat split; vm_compute; reflexivity. Qed.


(** * Further properties *)

(** ** The memory format *)

(** What [memory_tail_points] accepts: digits, at least one unless one is
    seen already, then [M] or [G], then the end of the string or one
    newline. *)
Lemma memory_tail_points_true is_decimal seen s :
  memory_tail_points is_decimal seen s = true ↔
  ∃ digits unit rest,
    s = digits ++ unit :: rest
    ∧ forallb is_decimal digits = true
    ∧ (seen = true ∨ digits ≠ [])
    ∧ (unit = 77 ∨ unit = 71)
    ∧ at_dollar_points rest = true.
Proof.
  revert seen. induction s as [|c r IH]; intros seen.
  - split; [discriminate|]. intros (ds & u & rest & Hs & _). by destruct ds.
  - cbn [memory_tail_points]. rewrite orb_true_iff, !andb_true_iff, orb_true_iff,
      !Z.eqb_eq, IH. split.
    + intros [[[-> Hu] Hr] | [Hc (ds & u & rest & -> & Hds & _ & Hu & Hr)]].
      * exists [], c, r. auto.
      * exists (c :: ds), u, rest. simpl. rewrite Hc, Hds. auto.
    + intros (ds & u & rest & Hs & Hds & Hseen & Hu & Hr).
      destruct ds as [|c' ds]; simpl in Hs; injection Hs as -> ->.
      * left. by destruct Hseen.
      * right. simpl in Hds. apply andb_true_iff in Hds as [Hc Hds].
        split; [done|]. exists ds, u, rest. auto.
Qed.

Lemma at_dollar_points_true rest :
  at_dollar_points rest = true ↔ rest = [] ∨ rest = [10].
Proof.
  destruct rest as [|c [|c' rest]]; simpl.
  - split; [by left | done].
  - rewrite Z.eqb_eq. split; [intros ->; by right | by intros [|[= ->]]].
  - split; [done | by intros [|]].
Qed.

Lemma code_range c : 0 ≤ code c < 256.
Proof.
  unfold code. pose proof (nat_ascii_bounded c) as Hc. lia.
Qed.

Lemma code_eqb c c' : (code c =? code c') = bool_decide (c = c').
Proof.
  case_bool_decide as Heq; [subst; apply Z.eqb_refl|].
  apply Z.eqb_neq. intros Hcode. apply Heq.
  unfold code in Hcode. apply Nat2Z.inj in Hcode.
  by rewrite <- (ascii_nat_embedding c), <- (ascii_nat_embedding c'), Hcode.
Qed.

Lemma at_dollar_points_of_string s : at_dollar_points (points s) = at_dollar s.
Proof.
  destruct s as [|c [|c' s]]; [done | | done].
  unfold points. simpl. apply (code_eqb c newline).
Qed.

(** On the strings of the model the two readings of the pattern agree. *)
Lemma memory_tail_points_of_string is_decimal seen s :
  (∀ c, 0 ≤ c < 256 → is_decimal c = (48 <=? c) && (c <=? 57)) →
  memory_tail_points is_decimal seen (points s) = memory_tail seen s.
Proof.
  intros Hdec. revert seen. induction s as [|c r IH]; intros seen; [done|].
  change (points (String c r)) with (code c :: points r).
  cbn [memory_tail_points memory_tail].
  rewrite IH, at_dollar_points_of_string, (Hdec _ (code_range c)).
  change 77 with (code "M"%char). change 71 with (code "G"%char).
  by rewrite !code_eqb.
Qed.

(** X2: [validate_memory] accepts exactly the strings made of one decimal
    digit or more followed by [M] or [G], and those followed by one newline
    (the [$] of the pattern matches before it). The digits are the code
    points [\d] matches, those of other scripts than [0] to [9] among them:
    the first part is about the pattern on the code points of any string.
    The second part says that on the strings of the model, where the only
    decimal digits are [0] to [9], [validate_memory] accepts what the
    pattern matches. *)
Theorem validate_memory_accepts (is_decimal : Z → bool) :
  (∀ memory : list Z,
     memory_match is_decimal memory = true ↔
     ∃ digits unit,
       digits ≠ []
       ∧ forallb is_decimal digits = true
       ∧ (unit = 77 ∨ unit = 71)
       ∧ (memory = digits ++ [unit] ∨ memory = digits ++ [unit; 10]))
  ∧ ((∀ c, 0 ≤ c < 256 → is_decimal c = (48 <=? c) && (c <=? 57)) →
     ∀ memory : string,
       validate_memory memory = Ok tt ↔ memory_match is_decimal (points memory) = true).
Proof.
  split.
  - intros memory. unfold memory_match. rewrite memory_tail_points_true. split.
    + intros (ds & u & rest & -> & Hds & [|Hne] & Hu & Hr); [done|].
      apply at_dollar_points_true in Hr.
      exists ds, u. split; [done|]. split; [done|]. split; [done|].
      destruct Hr as [-> | ->]; auto.
    + intros (ds & u & Hne & Hds & Hu & [-> | ->]).
      * exists ds, u, []. auto.
      * exists ds, u, [10]. auto 6.
  - intros Hdec memory. unfold validate_memory, memory_match.
    rewrite (memory_tail_points_of_string _ _ _ Hdec).
    by destruct (memory_tail false memory).
Qed.

Lemma validate_memory_accepts_witness :
  memory_match sample_decimal [1635; 71] = true
  ∧ validate_memory "512M" = Ok tt.
Proof.
  split.
  - apply (proj1 (validate_memory_accepts sample_decimal) [1635; 71]).
    exists [1635], 71. split; [discriminate|]. split; [reflexivity|].
    split; [by right | by left].
  - assert (∀ c, 0 ≤ c < 256 → sample_decimal c = (48 <=? c) && (c <=? 57)) as Hdec.
    { intros c Hc. unfold sample_decimal.
      destruct ((48 <=? c) && (c <=? 57)); [done|]. simpl.
      apply andb_false_iff. left. apply Z.leb_gt. lia. }
    apply (proj2 (validate_memory_accepts sample_decimal) Hdec "512M").
    vm_compute. reflexivity.
Defined.

Lemma validate_container_name_accepts_witness :
  validate_container_name "demo-env" = Ok tt
  ∧ (name_format abc_newline = true
     ∨ ∃ stem, abc_newline = stem +:+ String newline EmptyString
         ∧ name_format stem = true ∧ (String.length stem ≤ 62)%nat).
Proof.
  split.
  - apply (proj2 (validate_container_name_accepts "demo-env")). left.
    vm_compute. reflexivity.
  - apply (proj1 (validate_container_name_accepts abc_newline)).
    vm_compute. reflexivity.
Defined.

(** ** The list of records under the registry helpers *)

Lemma remove_named_filter name items :
  forallb has_a_name items = true →
  remove_named name items = Ok (filter (λ c, negb (has_name name c)) items).
Proof.
  induction items as [|c rest IH]; [done|].
  cbn [forallb remove_named]. unfold has_a_name at 1.
  destruct (getitem c "name") as [v|e] eqn:Hg; [|done]. cbn [andb].
  intros Hrest. rewrite (IH Hrest).
  assert (has_name name c = eq_str v name) as Hn by (unfold has_name; by rewrite Hg).
  destruct (eq_str v name) eqn:Hv.
  - rewrite filter_cons_False; [done|]. rewrite Hn. by intros [].
  - rewrite filter_cons_True; [done|]. by rewrite Hn.
Qed.

Lemma remove_named_Ok name items kept :
  remove_named name items = Ok kept →
  forallb has_a_name items = true ∧ kept = filter (λ c, negb (has_name name c)) items.
Proof.
  revert kept. induction items as [|c rest IH]; intros kept; simpl.
  - by intros [= <-].
  - unfold has_a_name at 1.
    destruct (getitem c "name") as [v|e] eqn:Hg; [|discriminate].
    destruct (remove_named name rest) as [rest'|e]; [|discriminate].
    destruct (IH rest' eq_refl) as [Hall ->]. intros [= <-]. split; [done|].
    assert (has_name name c = eq_str v name) as Hn by (unfold has_name; by rewrite Hg).
    destruct (eq_str v name) eqn:Hv.
    + rewrite filter_cons_False; [done|]. rewrite Hn. by intros [].
    + rewrite filter_cons_True; [done|]. by rewrite Hn.
Qed.

Lemma find_container_app_Some name items more c :
  find_container name items = Ok (Some c) →
  find_container name (items ++ more) = Ok (Some c).
Proof.
  induction items as [|x rest IH]; simpl; [discriminate|].
  destruct (getitem x "name") as [v|e]; [|discriminate].
  by destruct (eq_str v name).
Qed.

Lemma find_container_app_None name items more :
  find_container name items = Ok None →
  find_container name (items ++ more) = find_container name more.
Proof.
  induction items as [|x rest IH]; simpl; [done|].
  destruct (getitem x "name") as [v|e]; [|discriminate].
  by destruct (eq_str v name).
Qed.

Lemma get_container_stored name w d items :
  registry_of w = Document (JDict d) → d !! "containers" = Some (JList items) →
  (get_container name w).1 = find_container name items.
Proof. intros Hw Hd. rewrite get_container_eq, Hw. simpl. by rewrite Hd. Qed.

Lemma count_all_containers_stored w d items :
  registry_of w = Document (JDict d) → d !! "containers" = Some (JList items) →
  (count_all_containers w).1 = Ok (Z.of_nat (length items)).
Proof. intros Hw Hd. rewrite count_all_containers_eq, Hw. simpl. by rewrite Hd. Qed.

Lemma registry_of_with_file c w : registry_of (with_file (Some c) w) = c.
Proof. done. Qed.

(** X3: on a stored registry whose records all have a name,
    [remove_container] succeeds and stores the list without the records of
    that name, every one of them, the others in their order and the other
    keys of the registry as they were. A lookup of the name then finds
    nothing, and a second removal changes nothing more. *)
Theorem remove_container_removes name w d items :
  registry_of w = Document (JDict d) → d !! "containers" = Some (JList items) →
  forallb has_a_name items = true →
  ∃ w',
    remove_container name w = (Ok tt, w')
    ∧ registry_of w'
      = Document (JDict (<["containers" :=
          JList (filter (λ c, negb (has_name name c)) items)]> d))
    ∧ calls w' = calls w
    ∧ (get_container name w').1 = Ok None
    ∧ remove_container name w' = (Ok tt, w').
Proof.
  intros Hw Hd Hall.
  pose proof (remove_named_filter name items Hall) as Hrm.
  set (kept := filter (λ c, negb (has_name name c)) items) in *.
  rewrite (remove_container_stored name w d items kept Hw Hd Hrm).
  eexists. split; [done|]. split; [done|]. split; [done|].
  assert (remove_named name kept = Ok kept) as Hagain.
  { destruct (remove_named_Ok _ _ _ Hrm) as [_ Hk].
    pose proof (remove_named_none_left _ _ _ Hrm) as Hnone.
    clear -Hnone. induction kept as [|c rest IH]; [done|].
    apply none_named_cons in Hnone as [Hc Hrest]. simpl.
    apply named_otherwise_getitem in Hc as (v & -> & ->). by rewrite IH. }
  split.
  - rewrite (get_container_stored name _ (<["containers" := JList kept]> d) kept);
      [| done | apply lookup_insert_eq].
    apply find_container_None. by apply (remove_named_none_left _ items).
  - rewrite (remove_container_stored name _ (<["containers" := JList kept]> d) kept kept);
      [| done | apply lookup_insert_eq | done].
    by rewrite insert_insert_eq.
Qed.

Lemma remove_container_removes_witness :
  ∃ w',
    remove_container "demo-env" twice_world = (Ok tt, w')
    ∧ registry_of w'
      = Document (JDict (<["containers" :=
          JList (filter (λ c, negb (has_name "demo-env" c))
                   ([JDict (sample_fields "web" "bob")]
                    ++ JDict (sample_fields "demo-env" "alice")
                    :: [JDict (sample_fields "demo-env" "carol")]))]> twice_doc))
    ∧ calls w' = calls twice_world
    ∧ (get_container "demo-env" w').1 = Ok None
    ∧ remove_container "demo-env" w' = (Ok tt, w').
Proof.
  apply (remove_container_removes "demo-env" twice_world twice_doc);
    vm_compute; reflexivity.
Defined.

Lemma add_container_Raise E name owner cpu memory sync w e w' :
  add_container E name owner cpu memory sync w = (Raise e, w') → w' = initialized w.
Proof.
  rewrite add_container_eq. intros H.
  repeat match type of H with
         | context [match ?x with _ => _ end] => destruct x
         end; by inversion H.
Qed.

Lemma remove_container_Raise name w e w' :
  remove_container name w = (Raise e, w') → w' = initialized w.
Proof.
  rewrite remove_container_eq. intros H.
  repeat match type of H with
         | context [match ?x with _ => _ end] => destruct x
         end; by inversion H.
Qed.

(** X4: a writer of the registry that raises has written nothing: after a
    failed [add_container], [update_container] or [remove_container] the
    registry reads as before, and no command has been run and nothing
    reported. *)
Theorem registry_writers_fail_clean E name owner cpu memory sync updates w e w' :
  add_container E name owner cpu memory sync w = (Raise e, w')
  ∨ update_container name updates w = (Raise e, w')
  ∨ remove_container name w = (Raise e, w') →
  registry_of w' = registry_of w ∧ calls w' = calls w ∧ errors w' = errors w.
Proof.
  intros [H | [H | H]];
    [apply add_container_Raise in H | apply update_container_Raise in H
     | apply remove_container_Raise in H]; by subst.
Qed.

Lemma registry_writers_fail_clean_witness :
  registry_of (remove_container "web" broken_world).2 = registry_of broken_world
  ∧ calls (remove_container "web" broken_world).2 = calls broken_world
  ∧ errors (remove_container "web" broken_world).2 = errors broken_world.
Proof.
  apply (registry_writers_fail_clean sample_env "web" "bob" 2 "4G" false ∅
           broken_world (KeyError "containers")).
  right. right. vm_compute. reflexivity.
Defined.

(** X5: on a stored registry [add_container] always succeeds and appends
    the new record, in state ["creating"], after the records that are
    there: it does not look at their names. When a record of that name is
    there already, a lookup of the name goes on returning the old one;
    when none is, it returns the new one. *)
Theorem add_container_appends E name owner cpu memory sync w d items :
  registry_of w = Document (JDict d) → d !! "containers" = Some (JList items) →
  ∃ w' timestamp,
    let record := new_record name owner cpu memory sync timestamp in
    add_container E name owner cpu memory sync w = (Ok tt, w')
    ∧ registry_of w'
      = Document (JDict (<["containers" := JList (items ++ [record])]> d))
    ∧ getitem record "state" = Ok (JStr "creating")
    ∧ (count_all_containers w').1 = Ok (Z.of_nat (length items) + 1)
    ∧ (∀ c, (get_container name w).1 = Ok (Some c) →
         (get_container name w').1 = Ok (Some c))
    ∧ ((get_container name w).1 = Ok None →
         (get_container name w').1 = Ok (Some record)).
Proof.
  intros Hw Hd. rewrite add_container_eq, Hw. simpl. rewrite Hd. simpl.
  eexists _, (utcnow E (calls w)). split; [done|]. split; [done|].
  split; [done|].
  set (record := new_record _ _ _ _ _ _).
  set (w' := with_file _ w).
  assert (registry_of w' = Document (JDict (<["containers" := JList (items ++ [record])]> d)))
    as Hw' by done.
  pose proof (lookup_insert_eq d "containers" (JList (items ++ [record]))) as Hd'.
  split; [|split].
  - rewrite (count_all_containers_stored _ _ _ Hw' Hd'), length_app. simpl.
    f_equal. lia.
  - intros c. rewrite (get_container_stored _ _ _ _ Hw Hd),
      (get_container_stored _ _ _ _ Hw' Hd').
    apply find_container_app_Some.
  - rewrite (get_container_stored _ _ _ _ Hw Hd),
      (get_container_stored _ _ _ _ Hw' Hd').
    intros H. rewrite (find_container_app_None _ _ _ H). subst record.
    unfold new_record, record_fields. simpl. rewrite lookup_insert_eq. simpl.
    by rewrite bool_decide_eq_true_2.
Qed.

Lemma add_container_appends_witness :
  ∃ w' timestamp,
    let record := new_record "demo-env" "bob" 1 "512M" true timestamp in
    add_container sample_env "demo-env" "bob" 1 "512M" true sample_world = (Ok tt, w')
    ∧ registry_of w'
      = Document (JDict (<["containers" :=
          JList ([JDict (sample_fields "web" "bob");
                  JDict (sample_fields "demo-env" "alice")] ++ [record])]>
          (registry_doc 1 [JDict (sample_fields "web" "bob");
                           JDict (sample_fields "demo-env" "alice")])))
    ∧ getitem record "state" = Ok (JStr "creating")
    ∧ (count_all_containers w').1 = Ok (Z.of_nat 2 + 1)
    ∧ (∀ c, (get_container "demo-env" sample_world).1 = Ok (Some c) →
         (get_container "demo-env" w').1 = Ok (Some c))
    ∧ ((get_container "demo-env" sample_world).1 = Ok None →
         (get_container "demo-env" w').1 = Ok (Some record)).
Proof.
  apply (add_container_appends sample_env "demo-env" "bob" 1 "512M" true sample_world
           (registry_doc 1 [JDict (sample_fields "web" "bob");
                            JDict (sample_fields "demo-env" "alice")])
           [JDict (sample_fields "web" "bob"); JDict (sample_fields "demo-env" "alice")]);
    vm_compute; reflexivity.
Defined.

(** ** Counting and listing *)

Lemma owned_by_filter user items l :
  owned_by user items = Ok l → l = filter (λ c, has_owner user c) items.
Proof.
  revert l. induction items as [|c rest IH]; intros l; simpl.
  - by intros [= <-].
  - destruct (getitem c "owner") as [v|e] eqn:Hg; [|discriminate].
    destruct (owned_by user rest) as [rest'|e]; [|discriminate].
    intros [= <-]. rewrite (IH rest' eq_refl).
    assert (has_owner user c = eq_str v user) as Hn by (unfold has_owner; by rewrite Hg).
    destruct (eq_str v user) eqn:Hv.
    + rewrite filter_cons_True; [done|]. by rewrite Hn.
    + rewrite filter_cons_False; [done|]. rewrite Hn. by intros [].
Qed.

Lemma in_state_filter state items l :
  in_state state items = Ok l → l = filter (λ c, has_state state c) items.
Proof.
  revert l. induction items as [|c rest IH]; intros l; simpl.
  - by intros [= <-].
  - destruct (getitem c "state") as [v|e] eqn:Hg; [|discriminate].
    destruct (in_state state rest) as [rest'|e]; [|discriminate].
    intros [= <-]. rewrite (IH rest' eq_refl).
    assert (has_state state c = eq_str v state) as Hn by (unfold has_state; by rewrite Hg).
    destruct (eq_str v state) eqn:Hv.
    + rewrite filter_cons_True; [done|]. by rewrite Hn.
    + rewrite filter_cons_False; [done|]. rewrite Hn. by intros [].
Qed.

Lemma count_owned_owned_by user items :
  count_owned user items
  = match owned_by user items with
    | Ok l => Ok (Z.of_nat (length l))
    | Raise e => Raise e
    end.
Proof.
  induction items as [|c rest IH]; [done|]. simpl.
  destruct (getitem c "owner") as [v|e]; [|done]. rewrite IH.
  destruct (owned_by user rest) as [rest'|e]; [|done].
  destruct (eq_str v user); [|done]. simpl length. f_equal. lia.
Qed.

Lemma length_list_ascii_of_string s :
  length (String.list_ascii_of_string s) = String.length s.
Proof. induction s as [|c r IH]; simpl; [done | by rewrite IH]. Qed.

Lemma iterate_len containers items :
  iterate containers = Ok items → len containers = Ok (Z.of_nat (length items)).
Proof.
  destruct containers; simpl; try discriminate; intros [= <-]; f_equal; f_equal.
  - by rewrite length_fmap, length_list_ascii_of_string.
  - by rewrite !length_fmap, length_map_to_list.
Qed.

Lemma get_user_containers_eq user w :
  get_user_containers user w
  = (match registry_of w with
     | Document doc =>
         match getitem doc "containers" with
         | Ok containers =>
             match iterate containers with
             | Ok items => owned_by user items
             | Raise e => Raise e
             end
         | Raise e => Raise e
         end
     | Undecodable => Raise JSONDecodeError
     end, initialized w).
Proof.
  unfold get_user_containers, bind. rewrite load_registry_eq.
  destruct (registry_of w) as [doc|]; [|done]. unfold lift.
  destruct (getitem doc "containers") as [cs|]; [|done].
  by destruct (iterate cs).
Qed.

Lemma get_all_containers_eq w :
  get_all_containers w
  = (match registry_of w with
     | Document doc => getitem doc "containers"
     | Undecodable => Raise JSONDecodeError
     end, initialized w).
Proof.
  unfold get_all_containers, bind. rewrite load_registry_eq.
  by destruct (registry_of w) as [doc|].
Qed.

(** X6: the count of a user's containers is the length of the list of
    the user's containers, and fails where the listing fails. The listing
    holds the records of the stored list whose owner is the user, in
    their order, and is never longer than the count of all containers. *)
Theorem count_user_containers_length user w :
  (count_user_containers user w).1
  = match (get_user_containers user w).1 with
    | Ok l => Ok (Z.of_nat (length l))
    | Raise e => Raise e
    end
  ∧ ∀ l, (get_user_containers user w).1 = Ok l →
      ∃ containers items g,
        (get_all_containers w).1 = Ok containers
        ∧ iterate containers = Ok items
        ∧ l = filter (λ c, has_owner user c) items
        ∧ (count_all_containers w).1 = Ok g
        ∧ Z.of_nat (length l) ≤ g.
Proof.
  rewrite count_user_containers_eq, get_user_containers_eq, get_all_containers_eq,
    count_all_containers_eq. simpl.
  destruct (registry_of w) as [doc|]; [|by split].
  destruct (getitem doc "containers") as [cs|]; [|by split].
  destruct (iterate cs) as [items|] eqn:Hi; [|by split].
  split; [apply count_owned_owned_by|].
  intros l ->%owned_by_filter. exists cs, items, (Z.of_nat (length items)).
  split; [done|]. split; [done|]. split; [done|].
  split; [by apply iterate_len|].
  apply inj_le, length_filter.
Qed.

Lemma count_user_containers_length_witness :
  ∃ containers items g,
    (get_all_containers sample_world).1 = Ok containers
    ∧ iterate containers = Ok items
    ∧ [JDict (sample_fields "demo-env" "alice")]
      = filter (λ c, has_owner "alice" c) items
    ∧ (count_all_containers sample_world).1 = Ok g
    ∧ Z.of_nat (length [JDict (sample_fields "demo-env" "alice")]) ≤ g.
Proof.
  apply (proj2 (count_user_containers_length "alice" sample_world)).
  vm_compute. reflexivity.
Defined.

(** ** Two updates in a row *)

Lemma update_first_twice name u1 u2 items :
  u1 !! "name" = None →
  match update_first name u1 items with
  | Ok items1 => update_first name u2 items1 = update_first name (u2 ∪ u1) items
  | Raise e => update_first name (u2 ∪ u1) items = Raise e
  end.
Proof.
  intros Hu. induction items as [|c rest IH]; [done|]. simpl.
  destruct (getitem c "name") as [v|e] eqn:Hg; [|done].
  destruct (eq_str v name) eqn:Hv.
  - apply getitem_Ok in Hg as (dc & -> & Hdc). simpl.
    rewrite lookup_union_r by done. rewrite Hdc, Hv.
    by rewrite (assoc_L (∪)).
  - destruct (update_first name u1 rest) as [rest1|e].
    + simpl. rewrite Hg, Hv. by rewrite IH.
    + by rewrite IH.
Qed.

(** Whether [update_first] raises does not depend on the updates. *)
Lemma update_first_Ok_any name u u' items items1 :
  update_first name u items = Ok items1 →
  ∃ items2, update_first name u' items = Ok items2.
Proof.
  revert items1. induction items as [|c rest IH]; intros items1; simpl; [eauto|].
  destruct (getitem c "name") as [v|e] eqn:Hg; [|discriminate].
  destruct (eq_str v name).
  - apply getitem_Ok in Hg as (dc & -> & _). simpl. eauto.
  - destruct (update_first name u rest) as [rest1|e]; [|discriminate].
    destruct (IH rest1 eq_refl) as [rest2 ->]. eauto.
Qed.

Lemma iterate_not_list containers items name updates items' :
  iterate containers = Ok items →
  (∀ l, containers ≠ JList l) →
  update_first name updates items = Ok items' → items = [] ∧ items' = [].
Proof.
  destruct containers; simpl; try discriminate; intros [= <-] Hl.
  - destruct (String.list_ascii_of_string s); simpl; [by intros [= <-] | discriminate].
  - by destruct (Hl items0).
  - destruct (map_to_list d).*1; simpl; [by intros [= <-] | discriminate].
Qed.

(** X7: two updates of the same name in a row are one update with the
    keys of both, those of the second winning, provided the first does not
    rename the record; in particular the same update made twice is the
    update made once. This holds whatever the registry file holds: where
    one side fails the other fails with the same error. *)
Theorem update_container_twice name u1 u2 w :
  u1 !! "name" = None →
  (update_container name u1 ;;; update_container name u2) w
  = update_container name (u2 ∪ u1) w.
Proof.
  intros Hu. unfold bind. rewrite (update_container_eq name u1 w),
    (update_container_eq name (u2 ∪ u1) w).
  destruct (registry_of w) as [doc|]; [|done].
  destruct (getitem doc "containers") as [cs|] eqn:Hg; [|done].
  destruct (iterate cs) as [items|] eqn:Hi; [|done].
  pose proof (update_first_twice name u1 u2 items Hu) as Htwice.
  destruct (update_first name u1 items) as [items1|e] eqn:H1; [|by rewrite Htwice].
  apply getitem_Ok in Hg as (d & -> & Hd).
  assert ((∃ l, cs = JList l) ∨ ∀ l, cs ≠ JList l) as [[l ->] | Hnl]
    by (destruct cs; eauto; right; congruence).
  - injection Hi as ->. cbn [setitem].
    rewrite update_container_eq, registry_of_with_file. cbn [getitem].
    rewrite lookup_insert_eq. cbn [iterate]. rewrite Htwice.
    destruct (update_first_Ok_any name u1 (u2 ∪ u1) _ _ H1) as [items2 ->].
    cbn [setitem]. by rewrite insert_insert_eq.
  - destruct (iterate_not_list _ _ _ _ _ Hi Hnl H1) as [-> ->].
    assert ((match cs with
             | JList _ => setitem (JDict d) "containers" (JList [])
             | _ => Ok (JDict d)
             end) = Ok (JDict d)) as Hsame by (destruct cs; try done; by destruct (Hnl items)).
    cbn [update_first]. rewrite Hsame.
    rewrite update_container_eq, registry_of_with_file. cbn [getitem].
    rewrite Hd, Hi. cbn [update_first]. by rewrite Hsame.
Qed.

Lemma update_container_twice_witness :
  (update_container "demo-env" sample_updates ;;;
   update_container "demo-env" {["lastActivityAt" := JStr "2025-02-02T00:00:00Z"]})
    sample_world
  = update_container "demo-env"
      ({["lastActivityAt" := JStr "2025-02-02T00:00:00Z"]} ∪ sample_updates) sample_world.
Proof.
  apply (update_container_twice "demo-env" sample_updates
           {["lastActivityAt" := JStr "2025-02-02T00:00:00Z"]} sample_world).
  vm_compute. reflexivity.
Defined.

(** ** The commands a computation runs *)

Create HintDb silent discriminated.

Lemma silent_ret {A} (a : A) : silent (ret a).
Proof. by intros w r w' [= _ <-]. Qed.

Lemma silent_raise {A} e : silent (@raise A e).
Proof. by intros w r w' [= _ <-]. Qed.

Lemma silent_lift {A} (x : result A) : silent (lift x).
Proof. by intros w r w' [= _ <-]. Qed.

Lemma silent_echo_err line : silent (echo_err line).
Proof. by intros w r w' [= _ <-]. Qed.

Lemma silent_get_timestamp E : silent (get_timestamp E).
Proof. by intros w r w' [= _ <-]. Qed.

Lemma silent_click_confirm E : silent (click_confirm E).
Proof. by intros w r w' [= _ <-]. Qed.

Lemma silent_init_registry : silent init_registry.
Proof. intros w r w'. rewrite init_registry_eq. by intros [= _ <-]. Qed.

Lemma silent_json_load : silent json_load.
Proof.
  intros w r w'. unfold json_load.
  destruct (registry_file w) as [[doc|]|]; by intros [= _ <-].
Qed.

Lemma silent_json_dump registry : silent (json_dump registry).
Proof. by intros w r w' [= _ <-]. Qed.

Lemma silent_bind {A B} (c : M A) (k : A → M B) :
  silent c → (∀ a, silent (k a)) → silent (bind c k).
Proof.
  intros Hc Hk w r w' H. apply bind_inv in H as [(a & w1 & H1 & H2)|(e & H1 & _)].
  - rewrite (Hk _ _ _ _ H2). eauto.
  - eauto.
Qed.

Lemma silent_try_except {A} (c : M A) h :
  silent c → (∀ e, silent (h e)) → silent (try_except c h).
Proof.
  intros Hc Hh w r w'. unfold try_except.
  destruct (c w) as [[a|e] w1] eqn:H1.
  - intros [= <- <-]. eauto.
  - intros H2. rewrite (Hh _ _ _ _ H2). eauto.
Qed.

Lemma silent_if {A} (b : bool) (c1 c2 : M A) :
  silent c1 → silent c2 → silent (if b then c1 else c2).
Proof. by destruct b. Qed.

#[local] Hint Resolve silent_ret silent_raise silent_lift silent_echo_err
  silent_get_timestamp silent_click_confirm silent_init_registry silent_json_load
  silent_json_dump : silent.
#[local] Hint Extern 2 (silent (bind _ _)) => apply silent_bind; [|intros] : silent.
#[local] Hint Extern 2 (silent (try_except _ _)) =>
  apply silent_try_except; [|intros] : silent.
#[local] Hint Extern 2 (silent (if _ then _ else _)) => apply silent_if : silent.
#[local] Hint Extern 3 (silent (match ?x with _ => _ end)) => destruct x : silent.

Ltac silent := eauto 30 with silent.

Lemma silent_load_registry : silent load_registry.
Proof. unfold load_registry. silent. Qed.

#[local] Hint Resolve silent_load_registry : silent.

Lemma silent_get_container name : silent (get_container name).
Proof. unfold get_container. silent. Qed.

Lemma silent_add_container E name owner cpu memory sync :
  silent (add_container E name owner cpu memory sync).
Proof. unfold add_container. silent. Qed.

Lemma silent_update_container name updates : silent (update_container name updates).
Proof. unfold update_container. silent. Qed.

Lemma silent_remove_container name : silent (remove_container name).
Proof. unfold remove_container. silent. Qed.

Lemma silent_count_user_containers user : silent (count_user_containers user).
Proof. unfold count_user_containers. silent. Qed.

Lemma silent_count_all_containers : silent count_all_containers.
Proof. unfold count_all_containers. silent. Qed.

Lemma silent_get_user_containers user : silent (get_user_containers user).
Proof. unfold get_user_containers. silent. Qed.

Lemma silent_get_all_containers : silent get_all_containers.
Proof. unfold get_all_containers. silent. Qed.

#[local] Hint Resolve silent_get_container silent_add_container silent_update_container
  silent_remove_container silent_count_user_containers silent_count_all_containers
  silent_get_user_containers silent_get_all_containers : silent.

Lemma silent_container_exists name : silent (container_exists name).
Proof. unfold container_exists. silent. Qed.

Lemma silent_lookup_or_NotFound name : silent (lookup_or_NotFound name).
Proof. unfold lookup_or_NotFound. silent. Qed.

#[local] Hint Resolve silent_container_exists silent_lookup_or_NotFound : silent.

Create HintDb runs discriminated.

Lemma runs_only_silent {A} P (c : M A) : silent c → runs_only P c.
Proof.
  intros Hc w r w' H. exists []. by rewrite (Hc _ _ _ H), app_nil_r.
Qed.

Lemma runs_only_bind {A B} P (c : M A) (k : A → M B) :
  runs_only P c → (∀ a, runs_only P (k a)) → runs_only P (bind c k).
Proof.
  intros Hc Hk w r w' H. apply bind_inv in H as [(a & w1 & H1 & H2)|(e & H1 & _)].
  - destruct (Hc _ _ _ H1) as (new1 & Hn1 & HP1).
    destruct (Hk _ _ _ _ H2) as (new2 & Hn2 & HP2).
    exists (new1 ++ new2). rewrite Hn2, Hn1, app_assoc. split; [done|].
    by rewrite forallb_app, HP1, HP2.
  - eauto.
Qed.

Lemma runs_only_try_except {A} P (c : M A) h :
  runs_only P c → (∀ e, runs_only P (h e)) → runs_only P (try_except c h).
Proof.
  intros Hc Hh w r w'. unfold try_except.
  destruct (c w) as [[a|e] w1] eqn:H1.
  - intros [= <- <-]. eauto.
  - intros H2.
    destruct (Hc _ _ _ H1) as (new1 & Hn1 & HP1).
    destruct (Hh _ _ _ _ H2) as (new2 & Hn2 & HP2).
    exists (new1 ++ new2). rewrite Hn2, Hn1, app_assoc. split; [done|].
    by rewrite forallb_app, HP1, HP2.
Qed.

Lemma runs_only_if {A} P (b : bool) (c1 c2 : M A) :
  runs_only P c1 → runs_only P c2 → runs_only P (if b then c1 else c2).
Proof. by destruct b. Qed.

Lemma runs_only_run_command E P cmd check :
  P cmd = true → runs_only P (run_command E cmd check).
Proof.
  intros HP w r w' H. exists [cmd]. split; [by apply (run_command_calls _ _ _ _ _ _ H)|].
  simpl. by rewrite HP.
Qed.

#[local] Hint Extern 1 (runs_only _ (run_command _ _ _)) =>
  apply runs_only_run_command; unfold is_not_volume_rm, is_not_launch, is_not_up,
    is_up, any_command, is_reauthentication, is_inspection, is_volume_rm, is_launch;
    simpl; repeat case_bool_decide; simplify_eq; done : runs.
#[local] Hint Extern 2 (runs_only _ (bind _ _)) => apply runs_only_bind; [|intros] : runs.
#[local] Hint Extern 2 (runs_only _ (try_except _ _)) =>
  apply runs_only_try_except; [|intros] : runs.
#[local] Hint Extern 2 (runs_only _ (if _ then _ else _)) => apply runs_only_if : runs.
#[local] Hint Extern 3 (runs_only _ (match ?x with _ => _ end)) => destruct x : runs.
#[local] Hint Extern 5 (runs_only _ _) => apply runs_only_silent; silent : runs.

Ltac runs := eauto 40 with runs.

Lemma runs_only_is_admin E user : runs_only is_inspection (is_admin E user).
Proof. unfold is_admin. runs. Qed.

Lemma runs_only_check_podman E : runs_only is_inspection (check_podman E).
Proof. unfold check_podman. runs. Qed.

Lemma runs_only_podman_container_state E name :
  runs_only is_inspection (podman_container_state E name).
Proof. unfold podman_container_state, podman_container_exists. runs. Qed.

Lemma runs_only_owner_or_admin E c : runs_only is_inspection (owner_or_admin E c).
Proof.
  unfold owner_or_admin.
  apply runs_only_bind; [runs | intros owner].
  apply runs_only_if; [runs|].
  apply runs_only_bind; [apply runs_only_is_admin | intros admin]. runs.
Qed.

Lemma runs_only_exit_on_DevboxError P body :
  runs_only P body → runs_only P (exit_on_DevboxError body).
Proof. intros H. unfold exit_on_DevboxError. runs. Qed.

Lemma runs_only_weaken {A} (P Q : list string → bool) (c : M A) :
  (∀ cmd, P cmd = true → Q cmd = true) → runs_only P c → runs_only Q c.
Proof.
  intros HPQ Hc w r w' H. destruct (Hc _ _ _ H) as (new & Hn & HP).
  exists new. split; [done|].
  apply forallb_forall. intros cmd Hin.
  apply HPQ. by apply (proj1 (forallb_forall P new) HP).
Qed.

Lemma is_inspection_reauthentication name cmd :
  is_inspection cmd = true → is_reauthentication name cmd = true.
Proof. unfold is_reauthentication. by intros ->. Qed.

Lemma is_inspection_not_launch cmd :
  is_inspection cmd = true → is_not_launch cmd = true.
Proof.
  unfold is_inspection, is_not_launch, is_launch.
  destruct cmd as [|a [|b [|c cmd]]]; simpl;
    repeat case_bool_decide; simplify_eq; done.
Qed.

Lemma is_inspection_not_volume_rm cmd :
  is_inspection cmd = true → is_not_volume_rm cmd = true.
Proof.
  unfold is_inspection, is_not_volume_rm, is_volume_rm.
  destruct cmd as [|a [|b [|c cmd]]]; simpl;
    repeat case_bool_decide; simplify_eq; done.
Qed.

Lemma runs_only_get_tailscale_authkey E name user :
  runs_only (is_reauthentication name) (get_tailscale_authkey E user).
Proof. unfold get_tailscale_authkey, check_op_cli, check_op_auth. runs. Qed.

Lemma runs_only_tailscale_reauth E name authkey tags :
  runs_only (is_reauthentication name) (tailscale_reauth E name authkey tags).
Proof. unfold tailscale_reauth. runs. Qed.

(** X8: [rotate-key] works on the container as it is: whatever comes of
    it, the commands it has run are lookups (of the groups of the caller,
    of the version of podman), readings of the vault, and [tailscale]
    inside the container of that name; no container or volume is created,
    started, stopped or removed. *)
Theorem rotate_key_commands E name w r w' :
  rotate_key E name w = (r, w') →
  ∃ new, calls w' = calls w ++ new ∧ forallb (is_reauthentication name) new = true.
Proof.
  revert w r w'. change (runs_only (is_reauthentication name) (rotate_key E name)).
  unfold rotate_key. apply runs_only_exit_on_DevboxError. unfold rotate_key_body.
  apply runs_only_bind; [runs | intros c].
  apply runs_only_bind;
    [apply (runs_only_weaken is_inspection);
       [apply is_inspection_reauthentication | apply runs_only_owner_or_admin]
    | intros _].
  apply runs_only_bind; [runs | intros state].
  apply runs_only_bind; [runs | intros _].
  apply runs_only_bind;
    [apply (runs_only_weaken is_inspection);
       [apply is_inspection_reauthentication | apply runs_only_check_podman]
    | intros _].
  apply runs_only_bind; [apply runs_only_get_tailscale_authkey | intros authkey].
  apply runs_only_bind; [apply runs_only_tailscale_reauth | intros _].
  runs.
Qed.

Lemma rotate_key_commands_witness :
  ∃ new,
    calls (rotate_key sample_env "demo-env" running_world).2
    = calls running_world ++ new
    ∧ forallb (is_reauthentication "demo-env") new = true.
Proof.
  apply (rotate_key_commands sample_env "demo-env" running_world
           (rotate_key sample_env "demo-env" running_world).1).
  vm_compute. reflexivity.
Defined.

Lemma reads_only_try_except {A} (c : M A) h :
  reads_only c → (∀ e, reads_only (h e)) → reads_only (try_except c h).
Proof.
  intros Hc Hh w r w'. unfold try_except.
  destruct (c w) as [[a|e] w1] eqn:H1.
  - intros [= <- <-]. eauto.
  - intros H2. rewrite (Hh _ _ _ _ H2). eauto.
Qed.

Lemma reads_only_exit_on_DevboxError body :
  reads_only body → reads_only (exit_on_DevboxError body).
Proof.
  intros H. unfold exit_on_DevboxError. apply reads_only_try_except; [done|].
  intros e. apply keeps_reads_only. keeps.
Qed.

Lemma keeps_podman_logs E name follow tail : keeps_file (podman_logs E name follow tail).
Proof. unfold podman_logs. keeps. Qed.

Lemma runs_only_podman_logs E name follow tail :
  runs_only is_inspection (podman_logs E name follow tail).
Proof. unfold podman_logs. destruct follow; runs. Qed.

(** X9: [status] and [logs] only look: whatever comes of them, the
    registry reads as before, and the commands they have run are lookups
    of groups, of the version of podman, of the container, and the reading
    of its logs. *)
Theorem status_and_logs_only_look E name follow tail w r w' :
  status E name w = (r, w') ∨ logs E name follow tail w = (r, w') →
  registry_of w' = registry_of w
  ∧ ∃ new, calls w' = calls w ++ new ∧ forallb is_inspection new = true.
Proof.
  assert (reads_only (status E name)) as Hs1.
  { unfold status. apply reads_only_exit_on_DevboxError. unfold status_body.
    apply reads_only_bind; [apply reads_only_lookup_or_NotFound | intros c].
    apply keeps_reads_only. keeps. }
  assert (runs_only is_inspection (status E name)) as Hs2.
  { unfold status. apply runs_only_exit_on_DevboxError. unfold status_body.
    apply runs_only_bind; [runs | intros c].
    apply runs_only_bind; [apply runs_only_owner_or_admin | intros _].
    apply runs_only_bind; [apply runs_only_podman_container_state | intros _].
    runs. }
  assert (reads_only (logs E name follow tail)) as Hl1.
  { unfold logs. apply reads_only_exit_on_DevboxError. unfold logs_body.
    apply reads_only_bind; [apply reads_only_lookup_or_NotFound | intros c].
    apply keeps_reads_only.
    apply keeps_bind; [keeps | intros _].
    apply keeps_bind; [keeps | intros _]. apply keeps_podman_logs. }
  assert (runs_only is_inspection (logs E name follow tail)) as Hl2.
  { unfold logs. apply runs_only_exit_on_DevboxError. unfold logs_body.
    apply runs_only_bind; [runs | intros c].
    apply runs_only_bind; [apply runs_only_owner_or_admin | intros _].
    apply runs_only_bind; [apply runs_only_check_podman | intros _].
    apply runs_only_podman_logs. }
  intros [H | H]; split; eauto.
Qed.

Lemma status_and_logs_only_look_witness :
  registry_of (logs sample_env "demo-env" true 100 sample_world).2
  = registry_of sample_world
  ∧ ∃ new,
      calls (logs sample_env "demo-env" true 100 sample_world).2
      = calls sample_world ++ new
      ∧ forallb is_inspection new = true.
Proof.
  apply (status_and_logs_only_look sample_env "demo-env" true 100 sample_world
           (logs sample_env "demo-env" true 100 sample_world).1).
  right. vm_compute. reflexivity.
Defined.

(** X10: [create --no-start] launches nothing: whatever comes of it, it has
    run no [podman run], no [podman start] and nothing inside a
    container. *)
Theorem create_no_start_commands E name cpu memory sync w r w' :
  create E name cpu memory true sync w = (r, w') →
  ∃ new, calls w' = calls w ++ new ∧ forallb is_not_launch new = true.
Proof.
  revert w r w'. change (runs_only is_not_launch (create E name cpu memory true sync)).
  unfold create. apply runs_only_exit_on_DevboxError. unfold create_body.
  apply runs_only_bind; [|intros key].
  { unfold create_admission.
    repeat (apply runs_only_bind; [solve [runs] | intros ?]).
    apply runs_only_bind;
      [apply (runs_only_weaken is_inspection);
         [apply is_inspection_not_launch | apply runs_only_check_podman]
      | intros _].
    apply runs_only_bind; [|runs].
    unfold get_tailscale_authkey, check_op_cli, check_op_auth. runs. }
  apply runs_only_bind; [runs | intros _].
  apply runs_only_try_except; [|intros e; unfold create_cleanup; runs].
  unfold create_provision, podman_volume_exists, podman_create_volume. runs.
Qed.

Lemma create_no_start_commands_witness :
  ∃ new,
    calls (create sample_env "demo-env" 2 "4G" true false empty_world).2
    = calls empty_world ++ new
    ∧ forallb is_not_launch new = true.
Proof.
  apply (create_no_start_commands sample_env "demo-env" 2 "4G" false empty_world
           (create sample_env "demo-env" 2 "4G" true false empty_world).1).
  vm_compute. reflexivity.
Defined.

(** X11: [destroy --keep-volume] leaves the volumes alone: whatever comes
    of it, with or without [--force], it has run no [podman volume rm]. *)
Theorem destroy_keep_volume_commands E name force w r w' :
  destroy E name force true w = (r, w') →
  ∃ new, calls w' = calls w ++ new ∧ forallb is_not_volume_rm new = true.
Proof.
  revert w r w'. change (runs_only is_not_volume_rm (destroy E name force true)).
  unfold destroy. apply runs_only_exit_on_DevboxError. unfold destroy_body.
  cbn [negb].
  apply runs_only_bind; [runs | intros c].
  apply runs_only_bind;
    [apply (runs_only_weaken is_inspection);
       [apply is_inspection_not_volume_rm | apply runs_only_owner_or_admin]
    | intros _].
  apply runs_only_bind; [destruct force; runs | intros go_on].
  apply runs_only_if; [runs|].
  apply runs_only_bind;
    [apply (runs_only_weaken is_inspection);
       [apply is_inspection_not_volume_rm | apply runs_only_check_podman]
    | intros _].
  apply runs_only_bind;
    [apply (runs_only_weaken is_inspection);
       [apply is_inspection_not_volume_rm | apply runs_only_podman_container_state]
    | intros state].
  unfold podman_stop_container, podman_container_exists, podman_remove_container,
    podman_or.
  runs.
Qed.

Lemma destroy_keep_volume_commands_witness :
  ∃ new,
    calls (destroy sample_env "demo-env" true true sample_world).2
    = calls sample_world ++ new
    ∧ forallb is_not_volume_rm new = true.
Proof.
  apply (destroy_keep_volume_commands sample_env "demo-env" true sample_world
           (destroy sample_env "demo-env" true true sample_world).1).
  vm_compute. reflexivity.
Defined.

(** ** Waiting for the address *)

Lemma wait_for_tailscale_S E name timeout w :
  wait_for_tailscale E name (S timeout) w
  = let w1 := {| registry_file := registry_file w; calls := calls w ++ [poll name];
                 errors := errors w |} in
    match subprocess_run E (calls w) (poll name) with
    | Exited rc out err =>
        if (rc =? 0) && negb (String.length (strip out) =? 0)%nat
        then (Ok (Some (strip out)), w1)
        else wait_for_tailscale E name timeout w1
    | NoSuchProgram => wait_for_tailscale E name timeout w1
    end.
Proof.
  cbn [wait_for_tailscale]. unfold bind at 1, try_except, bind at 1, run_command.
  fold (poll name).
  destruct (subprocess_run E (calls w) (poll name)) as [rc out err|]; [|done].
  simpl. by destruct ((rc =? 0) && negb (String.length (strip out) =? 0)%nat).
Qed.

Lemma wait_for_tailscale_run E name timeout w :
  ∃ k,
    (k ≤ timeout)%nat
    ∧ (wait_for_tailscale E name timeout w).2
      = {| registry_file := registry_file w;
           calls := calls w ++ replicate k (poll name);
           errors := errors w |}
    ∧ match (wait_for_tailscale E name timeout w).1 with
      | Ok (Some ip) => (1 ≤ k)%nat ∧ ip ≠ EmptyString
      | Ok None => k = timeout
      | Raise _ => False
      end.
Proof.
  revert w. induction timeout as [|t IH]; intros w.
  - exists 0%nat. simpl. rewrite app_nil_r. by destruct w.
  - rewrite wait_for_tailscale_S. cbv zeta.
    set (w1 := {| registry_file := registry_file w; calls := calls w ++ [poll name];
                  errors := errors w |}).
    assert (∀ k, calls w1 ++ replicate k (poll name)
                 = calls w ++ replicate (S k) (poll name)) as Hcalls
      by (intros k; simpl; by rewrite <- app_assoc).
    assert (∃ k, (k ≤ S t)%nat
              ∧ (wait_for_tailscale E name t w1).2
                = {| registry_file := registry_file w;
                     calls := calls w ++ replicate k (poll name);
                     errors := errors w |}
              ∧ match (wait_for_tailscale E name t w1).1 with
                | Ok (Some ip) => (1 ≤ k)%nat ∧ ip ≠ EmptyString
                | Ok None => k = S t
                | Raise _ => False
                end) as Hlater.
    { destruct (IH w1) as (k & Hk & Hw & Hr). exists (S k).
      split; [lia|]. rewrite Hw, Hcalls. split; [done|].
      destruct (wait_for_tailscale E name t w1).1 as [[ip|]|]; [| lia | done].
      split; [lia | tauto]. }
    destruct (subprocess_run E (calls w) (poll name)) as [rc out err|]; [|done].
    destruct ((rc =? 0) && negb (String.length (strip out) =? 0)%nat) eqn:Hans; [|done].
    exists 1%nat. split; [lia|]. split; [done|]. simpl. split; [done|].
    apply andb_true_iff in Hans as [_ Hne]. apply negb_true_iff, Nat.eqb_neq in Hne.
    intros Heq. by rewrite Heq in Hne.
Qed.

(** X12: [wait_for_tailscale] never raises and changes nothing but the
    history of commands, to which it adds [k] polls of the address and
    nothing else, with [k] at most the timeout. When it returns an address
    the address is not empty and there was one poll at least; when it
    returns none, exactly [timeout] polls were made. *)
Theorem wait_for_tailscale_polls E name timeout w :
  ∃ k,
    (k ≤ timeout)%nat
    ∧ registry_file (wait_for_tailscale E name timeout w).2 = registry_file w
    ∧ errors (wait_for_tailscale E name timeout w).2 = errors w
    ∧ calls (wait_for_tailscale E name timeout w).2
      = calls w ++ replicate k ["podman"; "exec"; name; "tailscale"; "ip"; "-4"]
    ∧ ((∃ ip, (wait_for_tailscale E name timeout w).1 = Ok (Some ip)
              ∧ (1 ≤ k)%nat ∧ ip ≠ EmptyString)
       ∨ ((wait_for_tailscale E name timeout w).1 = Ok None ∧ k = timeout)).
Proof.
  destruct (wait_for_tailscale_run E name timeout w) as (k & Hk & Hw & Hr).
  exists k. rewrite Hw. split; [done|]. split; [done|]. split; [done|].
  split; [done|].
  destruct (wait_for_tailscale E name timeout w).1 as [[ip|]|]; [| | done].
  - left. exists ip. tauto.
  - by right.
Qed.

Lemma wait_for_tailscale_Some E name timeout w ip w' :
  wait_for_tailscale E name timeout w = (Ok (Some ip), w') → ip ≠ EmptyString.
Proof.
  intros H. destruct (wait_for_tailscale_run E name timeout w) as (k & _ & _ & Hr).
  rewrite H in Hr. simpl in Hr. tauto.
Qed.

(** ** The auth key *)

(** X13: a key [get_tailscale_authkey] returns is not empty and starts
    with ["tskey-"]; it is what [op read] printed for the item
    [<user>-tailscale-authkey] of the vault. A service account token is
    set, and three commands have been run, in this order: the version of
    [op], the listing of the vaults, and the reading; the registry file is
    as it was. *)
Theorem get_tailscale_authkey_returns E user w key w' :
  get_tailscale_authkey E user w = (Ok key, w') →
  let reference := "op://" +:+ OP_VAULT E +:+ "/" +:+ (user +:+ "-tailscale-authkey")
                   +:+ "/password" in
  key ≠ EmptyString
  ∧ startswith "tskey-" key = true
  ∧ (∃ token, OP_SERVICE_ACCOUNT_TOKEN E = Some token ∧ token ≠ EmptyString)
  ∧ (∃ err, subprocess_run E (calls w ++ [["op"; "--version"];
                                          ["op"; "vault"; "list"; "--format=json"]])
              ["op"; "read"; reference; "--no-newline"] = Exited 0 key err)
  ∧ calls w' = calls w ++ [["op"; "--version"];
                           ["op"; "vault"; "list"; "--format=json"];
                           ["op"; "read"; reference; "--no-newline"]]
  ∧ registry_file w' = registry_file w.
Proof.
  intros H reference. unfold get_tailscale_authkey in H.
  apply bind_Ok_inv in H as ([] & w1 & H1 & H).
  apply bind_Ok_inv in H as ([] & w2 & H2 & H).
  apply bind_Ok_inv in H as (authkey & w3 & H3 & H).
  fold reference in H3.
  assert (calls w1 = calls w ++ [["op"; "--version"]]
          ∧ registry_file w1 = registry_file w) as [Hc1 Hf1].
  { unfold check_op_cli, try_except, bind in H1.
    destruct (run_command E ["op"; "--version"] true w) as [[res|e] w0] eqn:Hrun.
    - injection H1 as <-. split.
      + by apply (run_command_calls _ _ _ _ _ _ Hrun).
      + by apply (keeps_run_command _ _ _ _ _ _ Hrun).
    - by destruct e. }
  assert ((∃ token, OP_SERVICE_ACCOUNT_TOKEN E = Some token ∧ token ≠ EmptyString)
          ∧ calls w2 = calls w1 ++ [["op"; "vault"; "list"; "--format=json"]]
          ∧ registry_file w2 = registry_file w1) as (Htoken & Hc2 & Hf2).
  { unfold check_op_auth in H2.
    destruct (OP_SERVICE_ACCOUNT_TOKEN E) as [[|c token]|]; [done | | done].
    split; [by eexists|]. unfold try_except, bind in H2.
    destruct (run_command E _ true w1) as [[res|e] w0] eqn:Hrun.
    - injection H2 as <-. split.
      + by apply (run_command_calls _ _ _ _ _ _ Hrun).
      + by apply (keeps_run_command _ _ _ _ _ _ Hrun).
    - by destruct e. }
  assert ((∃ err, subprocess_run E (calls w2) ["op"; "read"; reference; "--no-newline"]
                  = Exited 0 authkey err)
          ∧ calls w3 = calls w2 ++ [["op"; "read"; reference; "--no-newline"]]
          ∧ registry_file w3 = registry_file w2) as (Hread & Hc3 & Hf3).
  { unfold try_except, bind in H3.
    destruct (run_command E _ true w2) as [[res|e] w0] eqn:Hrun; [|by destruct e].
    injection H3 as <- <-. split; [|split].
    - unfold run_command in Hrun.
      destruct (subprocess_run E (calls w2) _) as [rc out err|]; [|done].
      destruct (rc =? 0) eqn:Hrc; [|done]. simpl in Hrun. injection Hrun as <- _.
      apply Z.eqb_eq in Hrc as ->. by exists err.
    - by apply (run_command_calls _ _ _ _ _ _ Hrun).
    - by apply (keeps_run_command _ _ _ _ _ _ Hrun). }
  destruct (String.length authkey =? 0)%nat eqn:Hlen; [done|].
  destruct (startswith "tskey-" authkey) eqn:Hstart; [|done].
  injection H as <- <-.
  split; [intros ->; done|]. split; [done|]. split; [done|].
  rewrite Hc2, Hc1, <- app_assoc in Hread. split; [done|].
  split; [|congruence].
  rewrite Hc3, Hc2, Hc1, <- !app_assoc. done.
Qed.

Lemma get_tailscale_authkey_returns_witness :
  let reference := "op://" +:+ OP_VAULT sample_env +:+ "/"
                   +:+ ("alice" +:+ "-tailscale-authkey") +:+ "/password" in
  "tskey-auth-sample" ≠ EmptyString
  ∧ startswith "tskey-" "tskey-auth-sample" = true
  ∧ (∃ token, OP_SERVICE_ACCOUNT_TOKEN sample_env = Some token ∧ token ≠ EmptyString)
  ∧ (∃ err, subprocess_run sample_env
              (calls sample_world ++ [["op"; "--version"];
                                      ["op"; "vault"; "list"; "--format=json"]])
              ["op"; "read"; reference; "--no-newline"]
            = Exited 0 "tskey-auth-sample" err)
  ∧ calls (get_tailscale_authkey sample_env "alice" sample_world).2
    = calls sample_world ++ [["op"; "--version"];
                             ["op"; "vault"; "list"; "--format=json"];
                             ["op"; "read"; reference; "--no-newline"]]
  ∧ registry_file (get_tailscale_authkey sample_env "alice" sample_world).2
    = registry_file sample_world.
Proof.
  apply (get_tailscale_authkey_returns sample_env "alice" sample_world "tskey-auth-sample"
           (get_tailscale_authkey sample_env "alice" sample_world).2).
  vm_compute. reflexivity.
Defined.

(** X14: without a service account token (unset, or set to the empty
    string) [get_tailscale_authkey] fails and the vault is never asked:
    the one command run is the version of [op], and when that one
    succeeds the failure is the [SecretError] that says so. *)
Theorem get_tailscale_authkey_without_token E user w r w' :
  OP_SERVICE_ACCOUNT_TOKEN E = None ∨ OP_SERVICE_ACCOUNT_TOKEN E = Some EmptyString →
  get_tailscale_authkey E user w = (r, w') →
  (∃ e, r = Raise e)
  ∧ calls w' = calls w ++ [["op"; "--version"]]
  ∧ registry_file w' = registry_file w
  ∧ (∀ out err, subprocess_run E (calls w) ["op"; "--version"] = Exited 0 out err →
       r = Raise (SecretError "1Password Service Account not configured")).
Proof.
  intros Htoken H. unfold get_tailscale_authkey in H.
  assert (check_op_auth E = raise (SecretError "1Password Service Account not configured"))
    as Hauth by (unfold check_op_auth; by destruct Htoken as [-> | ->]).
  rewrite Hauth in H. clear Hauth.
  unfold bind at 1 in H. unfold check_op_cli, try_except, bind in H.
  destruct (run_command E ["op"; "--version"] true w) as [[res|e] w0] eqn:Hrun.
  - injection H as <- <-. split; [eauto|].
    split; [by apply (run_command_calls _ _ _ _ _ _ Hrun)|].
    split; [by apply (keeps_run_command _ _ _ _ _ _ Hrun)|]. done.
  - pose proof (run_command_calls _ _ _ _ _ _ Hrun) as Hc.
    pose proof (keeps_run_command _ _ _ _ _ _ Hrun) as Hf.
    assert (∀ out err, subprocess_run E (calls w) ["op"; "--version"] ≠ Exited 0 out err)
      as Hfail.
    { intros out err Hout. unfold run_command in Hrun. by rewrite Hout in Hrun. }
    destruct e; injection H as <- <-; (split; [eauto|]); (split; [done|]);
      (split; [done|]); intros out err Hout; by destruct (Hfail out err).
Qed.

Lemma get_tailscale_authkey_without_token_witness :
  (∃ e, (get_tailscale_authkey tokenless_env "alice" sample_world).1 = Raise e)
  ∧ calls (get_tailscale_authkey tokenless_env "alice" sample_world).2
    = calls sample_world ++ [["op"; "--version"]]
  ∧ registry_file (get_tailscale_authkey tokenless_env "alice" sample_world).2
    = registry_file sample_world
  ∧ (∀ out err,
       subprocess_run tokenless_env (calls sample_world) ["op"; "--version"]
       = Exited 0 out err →
       (get_tailscale_authkey tokenless_env "alice" sample_world).1
       = Raise (SecretError "1Password Service Account not configured")).
Proof.
  apply (get_tailscale_authkey_without_token tokenless_env "alice" sample_world
           (get_tailscale_authkey tokenless_env "alice" sample_world).1
           (get_tailscale_authkey tokenless_env "alice" sample_world).2).
  - left. reflexivity.
  - vm_compute. reflexivity.
Defined.

(** ** Who may act on a container *)

Lemma is_admin_run E user w :
  ∃ b, is_admin E user w
       = (Ok b, {| registry_file := registry_file w;
                   calls := calls w ++ [["groups"; user]];
                   errors := errors w |}).
Proof.
  unfold is_admin, try_except, bind, run_command.
  destruct (subprocess_run E (calls w) ["groups"; user]) as [rc out err|]; simpl; eauto.
Qed.

Lemma owner_or_admin_refuses E c owner w :
  getitem c "owner" = Ok owner → eq_str owner (USER E) = false →
  (is_admin E (USER E) w).1 = Ok false →
  owner_or_admin E c w
  = (Raise (DevboxPermissionError "Permission denied"),
     {| registry_file := registry_file w;
        calls := calls w ++ [["groups"; USER E]];
        errors := errors w |}).
Proof.
  intros Hc Ho Ha. unfold owner_or_admin, bind, lift, get_current_user.
  rewrite Hc, Ho. destruct (is_admin_run E (USER E) w) as [b Hb].
  rewrite Hb in Ha |- *. by injection Ha as ->.
Qed.

(** X15: a caller who is neither the owner of the container nor an
    administrator is refused by every command on that container: [start],
    [stop], [destroy], [rotate-key], [status] and [logs] each raise
    [DevboxPermissionError] having run the lookup of the caller's groups
    and nothing else, with the registry file untouched. *)
Theorem strangers_are_refused E name force keep_volume follow tail w c owner :
  (get_container name w).1 = Ok (Some c) →
  getitem c "owner" = Ok owner → eq_str owner (USER E) = false →
  (is_admin E (USER E) w).1 = Ok false →
  let refused : result unit * world :=
    (Raise (DevboxPermissionError "Permission denied"),
     {| registry_file := registry_file w;
        calls := calls w ++ [["groups"; USER E]];
        errors := errors w |}) in
  start_body E name w = refused
  ∧ stop_body E name w = refused
  ∧ destroy_body E name force keep_volume w = refused
  ∧ rotate_key_body E name w = refused
  ∧ status_body E name w = refused
  ∧ logs_body E name follow tail w = refused.
Proof.
  intros Hfound Hc Ho Ha refused.
  pose proof (lookup_or_NotFound_Some _ _ _ Hfound) as Hl.
  pose proof (owner_or_admin_refuses _ _ _ _ Hc Ho Ha) as Hr.
  unfold start_body, stop_body, destroy_body, rotate_key_body, status_body, logs_body.
  rewrite !(bind_Ok _ _ _ _ _ Hl).
  repeat split; by apply bind_Raise.
Qed.

Lemma strangers_are_refused_witness :
  let refused : result unit * world :=
    (Raise (DevboxPermissionError "Permission denied"),
     {| registry_file := registry_file sample_world;
        calls := calls sample_world ++ [["groups"; USER sample_env]];
        errors := errors sample_world |}) in
  start_body sample_env "web" sample_world = refused
  ∧ stop_body sample_env "web" sample_world = refused
  ∧ destroy_body sample_env "web" true false sample_world = refused
  ∧ rotate_key_body sample_env "web" sample_world = refused
  ∧ status_body sample_env "web" sample_world = refused
  ∧ logs_body sample_env "web" false 100 sample_world = refused.
Proof.
  apply (strangers_are_refused sample_env "web" true false false 100 sample_world
           (JDict (sample_fields "web" "bob")) (JStr "bob"));
    vm_compute; reflexivity.
Defined.

(** ** Destroying a container *)

Lemma raises_clean_remove_container name : raises_clean (remove_container name).
Proof. intros w e w' H. by rewrite (remove_container_Raise _ _ _ _ H). Qed.

Lemma raises_clean_ret {A} (a : A) : raises_clean (ret a).
Proof. intros w e w'. discriminate. Qed.

Lemma raises_clean_destroy_body E name force keep_volume :
  raises_clean (destroy_body E name force keep_volume).
Proof.
  unfold destroy_body.
  apply raises_clean_bind; [apply reads_only_lookup_or_NotFound | intros c].
  repeat lazymatch goal with
         | |- raises_clean (bind _ _) =>
             apply raises_clean_bind; [apply keeps_reads_only; keeps | intros]
         | |- raises_clean (if ?b then _ else _) =>
             destruct b; [apply raises_clean_ret|]
         end.
  apply raises_clean_remove_container.
Qed.

(** The record a command has found, and the registry it was found in. *)
Lemma lookup_or_NotFound_Ok name w c w0 :
  lookup_or_NotFound name w = (Ok c, w0) →
  w0 = w
  ∧ ∃ d pre dc post,
      registry_file w = Some (Document (JDict d))
      ∧ d !! "containers" = Some (JList (pre ++ JDict dc :: post))
      ∧ c = JDict dc ∧ dc !! "name" = Some (JStr name)
      ∧ none_named name pre = true.
Proof.
  intros Hl.
  assert ((get_container name w).1 = Ok (Some c)) as Hfound.
  { rewrite lookup_or_NotFound_eq in Hl.
    destruct (get_container name w).1 as [[c'|]|]; try discriminate.
    destruct (truthy c'); [|discriminate]. by injection Hl as ->. }
  rewrite (lookup_or_NotFound_Some _ _ _ Hfound) in Hl. injection Hl as <-.
  split; [done|]. by apply get_container_Some.
Qed.

(** X16: every run of [destroy]. A run that fails, at whatever step,
    leaves the registry as it was: the record is removed last. A run that
    returns normally has either been declined at the prompt (without
    [--force] only), having run no command but, at most, the group lookup
    and left the registry as it was, or it has stored the list without the
    records of that name, the others in their order, so that a lookup of
    the name finds nothing. *)
Theorem destroy_registry E name force keep_volume w r w' :
  destroy_body E name force keep_volume w = (r, w') →
  ((∃ e, r = Raise e) → registry_of w' = registry_of w)
  ∧ (r = Ok tt →
     (force = false ∧ registry_of w' = registry_of w
      ∧ (calls w' = calls w ∨ calls w' = calls w ++ [["groups"; USER E]]))
     ∨ ∃ d items,
         registry_of w = Document (JDict d)
         ∧ d !! "containers" = Some (JList items)
         ∧ registry_of w'
           = Document (JDict (<["containers" :=
               JList (filter (λ c, negb (has_name name c)) items)]> d))
         ∧ (get_container name w').1 = Ok None).
Proof.
  intros H. split.
  { intros [e ->]. by apply (raises_clean_destroy_body E name force keep_volume w e w'). }
  intros ->. unfold destroy_body in H.
  apply bind_Ok_inv in H as (c & w0 & Hl & H).
  apply lookup_or_NotFound_Ok in Hl as (-> & d & pre & dc & post & Hw & Hd & -> & Hdc & Hpre).
  apply bind_Ok_inv in H as ([] & w1 & Ho & H).
  pose proof (keeps_owner_or_admin _ _ _ _ _ Ho) as Hf1.
  apply owner_or_admin_calls in Ho as Hc1.
  apply bind_Ok_inv in H as (go_on & w2 & Hgo & H).
  assert (w2 = w1 ∧ (go_on = false → force = false)) as [-> Hforce].
  { destruct force; simpl in Hgo; injection Hgo as <- <-; by split. }
  destruct go_on; simpl in H.
  - right.
    apply bind_Ok_keeps in H as (a3 & w3 & Hf3 & _ & H); [|keeps].
    apply bind_Ok_keeps in H as (a4 & w4 & Hf4 & _ & H); [|keeps].
    apply bind_Ok_keeps in H as (a5 & w5 & Hf5 & _ & H);
      [|destruct (bool_decide _); keeps].
    apply bind_Ok_keeps in H as (a6 & w6 & Hf6 & _ & H); [|keeps].
    apply bind_Ok_keeps in H as (a7 & w7 & Hf7 & _ & H); [|destruct a6; keeps].
    apply bind_Ok_keeps in H as (a8 & w8 & Hf8 & _ & H); [|destruct keep_volume; keeps].
    assert (registry_file w8 = Some (Document (JDict d))) as Hw8 by congruence.
    rewrite remove_container_eq, (registry_of_stored _ _ Hw8) in H.
    cbn [getitem] in H. rewrite Hd in H. cbn [iterate] in H.
    destruct (remove_named name (pre ++ JDict dc :: post)) as [kept|] eqn:Hkept;
      [|discriminate].
    cbn [setitem] in H. injection H as <-.
    exists d, (pre ++ JDict dc :: post).
    rewrite (registry_of_stored _ _ Hw). split; [done|]. split; [done|].
    destruct (remove_named_Ok _ _ _ Hkept) as [_ Hfilter]. rewrite <- Hfilter.
    split; [done|].
    rewrite (get_container_stored name _ (<["containers" := JList kept]> d) kept);
      [| done | apply lookup_insert_eq].
    apply find_container_None. by apply (remove_named_none_left _ _ _ Hkept).
  - left. injection H as <-. split; [by apply Hforce|].
    split; [unfold registry_of; by rewrite Hf1 | done].
Qed.

Lemma destroy_registry_witness :
  registry_of (destroy_body failing_rm_env "demo-env" true false sample_world).2
  = registry_of sample_world
  ∧ (get_container "demo-env"
       (destroy_body sample_env "demo-env" true false sample_world).2).1 = Ok None.
Proof.
  split.
  - apply (destroy_registry failing_rm_env "demo-env" true false sample_world
             (destroy_body failing_rm_env "demo-env" true false sample_world).1
             (destroy_body failing_rm_env "demo-env" true false sample_world).2);
      [vm_compute; reflexivity | vm_compute; eauto].
  - destruct (destroy_registry sample_env "demo-env" true false sample_world (Ok tt)
                (destroy_body sample_env "demo-env" true false sample_world).2)
      as [_ Hok]; [vm_compute; reflexivity|].
    destruct (Hok eq_refl) as [[Hforce _] | (d & items & _ & _ & _ & Hnone)];
      [discriminate Hforce | exact Hnone].
Defined.

(** ** Starting and stopping a container *)

Lemma raises_clean_start_body E name : raises_clean (start_body E name).
Proof.
  unfold start_body.
  apply raises_clean_bind; [apply reads_only_lookup_or_NotFound | intros c].
  repeat lazymatch goal with
         | |- raises_clean (bind _ _) =>
             apply raises_clean_bind; [apply keeps_reads_only; keeps | intros]
         | |- raises_clean (if ?b then _ else _) =>
             destruct b; [apply raises_clean_ret|]
         end.
  apply raises_clean_update_container.
Qed.

Lemma raises_clean_stop_body E name : raises_clean (stop_body E name).
Proof.
  unfold stop_body.
  apply raises_clean_bind; [apply reads_only_lookup_or_NotFound | intros c].
  repeat lazymatch goal with
         | |- raises_clean (bind _ _) =>
             apply raises_clean_bind; [apply keeps_reads_only; keeps | intros]
         | |- raises_clean (if ?b then _ else _) =>
             destruct b; [apply raises_clean_ret|]
         end.
  apply raises_clean_update_container.
Qed.

(** X18: every run of [stop]. A run that fails leaves the registry as it
    was. A run that returns normally on a record in state ["stopped"] has
    changed nothing and has run no command but, at most, the group lookup.
    On a record in another state it has changed, in the first record of
    that name and nowhere else, the state to ["stopped"] and the time of
    the last activity; the address is kept. *)
Theorem stop_registry E name w r w' :
  stop_body E name w = (r, w') →
  ((∃ e, r = Raise e) → registry_of w' = registry_of w)
  ∧ (r = Ok tt →
     ∃ d pre dc post,
       registry_of w = Document (JDict d)
       ∧ d !! "containers" = Some (JList (pre ++ JDict dc :: post))
       ∧ none_named name pre = true
       ∧ dc !! "name" = Some (JStr name)
       ∧ ((dc !! "state" = Some (JStr "stopped")
           ∧ registry_of w' = registry_of w
           ∧ (calls w' = calls w ∨ calls w' = calls w ++ [["groups"; USER E]]))
          ∨ (dc !! "state" ≠ Some (JStr "stopped")
             ∧ ∃ timestamp,
                 registry_of w'
                 = Document (JDict (<["containers" :=
                     JList (pre ++ JDict (<["state" := JStr "stopped"]>
                                          (<["lastActivityAt" := JStr timestamp]> dc))
                                :: post)]> d))))).
Proof.
  intros H. split.
  { intros [e ->]. by apply (raises_clean_stop_body E name w e w'). }
  intros ->. unfold stop_body in H.
  apply bind_Ok_inv in H as (c & w0 & Hl & H).
  apply lookup_or_NotFound_Ok in Hl as (-> & d & pre & dc & post & Hw & Hd & -> & Hdc & Hpre).
  apply bind_Ok_inv in H as ([] & w1 & Ho & H).
  pose proof (keeps_owner_or_admin _ _ _ _ _ Ho) as Hf1.
  apply owner_or_admin_calls in Ho as Hc1.
  apply lift_Ok_inv in H as (state & Hs & H).
  exists d, pre, dc, post. rewrite (registry_of_stored _ _ Hw).
  split; [done|]. split; [done|]. split; [done|]. split; [done|].
  simpl in Hs. destruct (dc !! "state") as [v|] eqn:Hstate; [|discriminate Hs].
  injection Hs as ->.
  destruct (eq_str state "stopped") eqn:Hrun.
  - left. apply eq_str_true in Hrun as ->. injection H as <-.
    split; [done|]. split; [|done]. unfold registry_of. by rewrite Hf1, Hw.
  - right. split.
    { intros [= ->]. by vm_compute in Hrun. }
    apply bind_Ok_keeps in H as (a2 & w2 & Hf2 & _ & H); [|keeps].
    apply bind_Ok_keeps in H as (a3 & w3 & Hf3 & _ & H); [|keeps].
    apply bind_Ok_keeps in H as (timestamp & w5 & Hf5 & _ & H); [|keeps].
    assert (registry_file w5 = Some (Document (JDict d))) as Hw5 by congruence.
    rewrite (update_container_stored name _ w5 d _ _
               (registry_of_stored _ _ Hw5) Hd
               (update_first_match name _ pre dc post Hpre Hdc)) in H.
    injection H as <-. exists timestamp.
    rewrite registry_of_with_file.
    by rewrite <- !insert_union_l, <- insert_union_singleton_l.
Qed.

Lemma stop_registry_witness :
  registry_of (stop_body failing_stop_env "demo-env" running_world).2
  = registry_of running_world
  ∧ ∃ d pre dc post,
      registry_of running_world = Document (JDict d)
      ∧ d !! "containers" = Some (JList (pre ++ JDict dc :: post))
      ∧ none_named "demo-env" pre = true
      ∧ dc !! "name" = Some (JStr "demo-env")
      ∧ ((dc !! "state" = Some (JStr "stopped")
          ∧ registry_of (stop_body sample_env "demo-env" running_world).2
            = registry_of running_world
          ∧ (calls (stop_body sample_env "demo-env" running_world).2
             = calls running_world
             ∨ calls (stop_body sample_env "demo-env" running_world).2
               = calls running_world ++ [["groups"; USER sample_env]]))
         ∨ (dc !! "state" ≠ Some (JStr "stopped")
            ∧ ∃ timestamp,
                registry_of (stop_body sample_env "demo-env" running_world).2
                = Document (JDict (<["containers" :=
                    JList (pre ++ JDict (<["state" := JStr "stopped"]>
                                         (<["lastActivityAt" := JStr timestamp]> dc))
                               :: post)]> d)))).
Proof.
  split.
  - apply (stop_registry failing_stop_env "demo-env" running_world
             (stop_body failing_stop_env "demo-env" running_world).1
             (stop_body failing_stop_env "demo-env" running_world).2);
      [vm_compute; reflexivity | vm_compute; eauto].
  - apply (stop_registry sample_env "demo-env" running_world (Ok tt)
             (stop_body sample_env "demo-env" running_world).2);
      vm_compute; reflexivity.
Defined.

(** ** Creating a container: all or nothing *)

Lemma reads_only_container_exists name : reads_only (container_exists name).
Proof. intros w r w'. rewrite container_exists_eq. by intros [= _ <-]. Qed.

Lemma reads_only_create_admission E name cpu memory :
  reads_only (create_admission E name cpu memory).
Proof.
  unfold create_admission.
  repeat lazymatch goal with
         | |- reads_only (bind _ _) =>
             apply reads_only_bind;
               [first [ apply reads_only_container_exists
                      | apply reads_only_count_user_containers
                      | apply reads_only_count_all_containers
                      | apply keeps_reads_only; keeps ]
               | intros]
         end.
  apply keeps_reads_only. keeps.
Qed.

(** The handler of the guarded block of [create] takes the new record out
    again and raises what it caught. *)
Lemma create_cleanup_restores E name cpu memory no_start sync w key w1 w2 e w3 r w' :
  create_admission E name cpu memory w = (Ok key, w1) →
  add_container E name (USER E) cpu memory sync w1 = (Ok tt, w2) →
  create_provision E name cpu memory no_start sync key.1 key.2 w2 = (Raise e, w3) →
  create_cleanup name e w3 = (r, w') →
  r = Raise e ∧ registry_of w' = registry_of w.
Proof.
  intros Hadm Hadd Hprov Hclean.
  destruct (create_inserted _ _ _ _ _ _ _ _ _ Hadm Hadd)
    as (d & items & Hw & Hd & Hnone & _ & Hw2).
  pose proof (raises_clean_create_provision _ _ _ _ _ _ _ _ _ _ _ Hprov) as Hw3.
  rewrite Hw2 in Hw3.
  destruct (new_record_name name (USER E) cpu memory sync (utcnow E (calls w1)))
    as (dn & Hnew & Hname).
  rewrite Hnew in Hw3.
  set (w3' := {| registry_file := registry_file w3; calls := calls w3;
                 errors := errors w3 ++ ["Cleaning up after failure..."] |}).
  assert (remove_container name w3'
          = (Ok tt, with_file (Some (Document (JDict (<["containers" := JList items]>
               (<["containers" := JList (items ++ [JDict dn])]> d))))) w3')) as Hrm.
  { apply remove_container_stored with (items := items ++ [JDict dn]).
    - exact Hw3.
    - apply lookup_insert_eq.
    - by apply remove_named_last. }
  rewrite insert_insert_eq, (insert_id _ _ _ Hd) in Hrm.
  unfold create_cleanup in Hclean.
  rewrite (bind_Ok _ _ w3 tt w3') in Hclean by done.
  rewrite (bind_Ok _ _ _ _ _ Hrm) in Hclean.
  injection Hclean as <- <-. by rewrite Hw.
Qed.

Lemma raises_clean_create_body E name cpu memory no_start sync :
  raises_clean (create_body E name cpu memory no_start sync).
Proof.
  intros w e w' H. unfold create_body in H.
  apply bind_inv in H as [(key & w1 & Hadm & H)|(e' & Hadm & _)];
    [|by apply (reads_only_create_admission _ _ _ _ _ _ _ Hadm)].
  pose proof (reads_only_create_admission _ _ _ _ _ _ _ Hadm) as Hw1.
  apply bind_inv in H as [([] & w2 & Hadd & H)|(e' & Hadd & _)];
    [|apply add_container_Raise in Hadd as ->; by rewrite registry_of_initialized].
  unfold try_except in H.
  destruct (create_provision E name cpu memory no_start sync key.1 key.2 w2)
    as [[[]|e0] w3] eqn:Hprov; [discriminate|].
  by destruct (create_cleanup_restores _ _ _ _ _ _ _ _ _ _ _ _ _ _ Hadm Hadd Hprov H).
Qed.

Lemma raises_clean_exit_on_DevboxError body :
  raises_clean body → raises_clean (exit_on_DevboxError body).
Proof.
  intros Hb w e w'. unfold exit_on_DevboxError, try_except.
  destruct (body w) as [[[]|e0] w1] eqn:Hbody; [discriminate|].
  pose proof (Hb _ _ _ Hbody) as Hw1.
  destruct (DevboxError_message e0).
  - unfold bind, echo_err, raise. by intros [= _ <-].
  - by intros [= _ <-].
Qed.

(** ** The global quota *)

(** X20: let the registry hold [g] containers. At the global limit and
    above, [create] fails, the registry reads as before and no command has
    been run; when the arguments are valid, the name is free and the
    caller is below the per-owner limit, the failure is the one of the
    global limit. A [create] that returns normally found the registry
    below the limit and leaves it with one container more. *)
Theorem create_global_quota E name cpu memory no_start sync w g r w' :
  (count_all_containers w).1 = Ok g →
  create_body E name cpu memory no_start sync w = (r, w') →
  (MAX_GLOBAL E ≤ g →
     (∃ e, r = Raise e)
     ∧ registry_of w' = registry_of w
     ∧ calls w' = calls w
     ∧ (validate_container_name name = Ok tt → validate_cpu cpu = Ok tt →
        validate_memory memory = Ok tt → (get_container name w).1 = Ok None →
        (∃ n, (count_user_containers (USER E) w).1 = Ok n ∧ n < MAX_PER_USER E) →
        r = Raise (ValidationError "Global container limit reached")))
  ∧ (r = Ok tt →
     g < MAX_GLOBAL E ∧ (count_all_containers w').1 = Ok (g + 1)).
Proof.
  intros Hg H. split.
  - intros Hmax. apply Z.geb_le in Hmax as Hgeb.
    unfold create_body in H. unfold bind at 1 in H.
    rewrite create_admission_eq, Hg, Hgeb in H.
    destruct (validate_container_name name) as [[]|];
      [|injection H as <- <-; by repeat split; eauto].
    destruct (validate_cpu cpu) as [[]|];
      [|injection H as <- <-; by repeat split; eauto].
    destruct (validate_memory memory) as [[]|];
      [|injection H as <- <-; by repeat split; eauto].
    destruct (get_container name w).1 as [[c|]|];
      [injection H as <- <-; by repeat split; eauto | |
       injection H as <- <-; by repeat split; eauto].
    destruct (count_user_containers (USER E) w).1 as [n|];
      [|injection H as <- <-; split; [eauto|]; split; [done|]; split; [done|];
        by intros _ _ _ _ (n & [=] & _)].
    destruct (n >=? MAX_PER_USER E) eqn:Hn; injection H as <- <-.
    + split; [eauto|]. split; [done|]. split; [done|].
      intros _ _ _ _ (n' & [= <-] & Hlt).
      rewrite Z.geb_leb in Hn. apply Z.leb_le in Hn. lia.
    + split; [eauto|]. by repeat split.
  - intros ->. split.
    + unfold create_body in H.
      apply bind_Ok_inv in H as (key & w1 & Hadm & _).
      apply create_admission_Ok in Hadm as (_ & _ & _ & _ & _ & (g' & Hg' & Hlt) & _).
      rewrite Hg in Hg'. by injection Hg' as <-.
    + apply create_body_Ok in H
        as (d & items & ts & updates & _ & Hw & Hd & _ & _ & _ & Hw').
      pose proof (count_all_containers_stored _ _ _ Hw Hd) as Hcount.
      rewrite Hg in Hcount. injection Hcount as ->.
      rewrite (count_all_containers_stored w' _ (items ++
        [JDict (updates ∪ record_fields name (USER E) cpu memory sync ts)]) Hw'
        (lookup_insert_eq _ _ _)).
      rewrite length_app. simpl. f_equal. lia.
Qed.

Lemma create_global_quota_witness :
  ((create_body sample_env "new-env" 2 "4G" true false full_world).1
   = Raise (ValidationError "Global container limit reached")
   ∧ registry_of (create_body sample_env "new-env" 2 "4G" true false full_world).2
     = registry_of full_world
   ∧ calls (create_body sample_env "new-env" 2 "4G" true false full_world).2
     = calls full_world)
  ∧ (count_all_containers
       (create_body sample_env "new-env" 2 "4G" true false sample_world).2).1
    = Ok (2 + 1).
Proof.
  split.
  - destruct (create_global_quota sample_env "new-env" 2 "4G" true false full_world 7
                (create_body sample_env "new-env" 2 "4G" true false full_world).1
                (create_body sample_env "new-env" 2 "4G" true false full_world).2)
      as [Hlimit _]; [vm_compute; reflexivity | vm_compute; reflexivity |].
    destruct Hlimit as (_ & Hreg & Hcalls & Hquota); [vm_compute; discriminate|].
    split; [|split; [exact Hreg | exact Hcalls]].
    apply Hquota; try (vm_compute; reflexivity).
    exists 3. split; [vm_compute; reflexivity | vm_compute; reflexivity].
  - destruct (create_global_quota sample_env "new-env" 2 "4G" true false sample_world 2
                (Ok tt)
                (create_body sample_env "new-env" 2 "4G" true false sample_world).2)
      as [_ Hbelow]; [vm_compute; reflexivity | vm_compute; reflexivity |].
    by destruct (Hbelow eq_refl) as [_ Hcount].
Defined.

(** ** Listing *)

Lemma get_user_containers_run user w :
  get_user_containers user w = ((get_user_containers user w).1, initialized w).
Proof. by rewrite get_user_containers_eq. Qed.

Lemma get_all_containers_run w :
  get_all_containers w = ((get_all_containers w).1, initialized w).
Proof. by rewrite get_all_containers_eq. Qed.

(** The choice [list] makes among the containers it has fetched. *)
Lemma state_filter_Ok state containers w sel w' :
  (if negb (bool_decide (state = "all")) then
     items <- lift (iterate containers) ;;
     kept <- lift (in_state state items) ;;
     ret (JList kept)
   else ret containers) w = (Ok sel, w') →
  w' = w
  ∧ (state = "all" ∧ sel = containers
     ∨ state ≠ "all"
       ∧ ∃ items, iterate containers = Ok items
                  ∧ sel = JList (filter (λ c, has_state state c) items)).
Proof.
  case_bool_decide as Hall; simpl.
  - intros [= <- <-]. split; [done|]. by left.
  - intros H. apply lift_Ok_inv in H as (items & Hi & H).
    apply lift_Ok_inv in H as (kept & Hk & H). injection H as <- <-.
    split; [done|]. right. split; [done|]. exists items. split; [done|].
    by rewrite (in_state_filter _ _ _ Hk).
Qed.

(** X22: [list] without [--all] shows the caller's own containers and no
    others: the records of the stored list whose owner is the caller, in
    their order, and of these, with a state filter, those in that state. It
    runs no command and leaves the registry as it was. *)
Theorem list_selection_own E state w r w' :
  list_selection E false state w = (r, w') →
  calls w' = calls w
  ∧ registry_of w' = registry_of w
  ∧ ∀ sel, r = Ok sel →
      ∃ containers items,
        (get_all_containers w).1 = Ok containers
        ∧ iterate containers = Ok items
        ∧ sel = JList (if bool_decide (state = "all")
                       then filter (λ c, has_owner (USER E) c) items
                       else filter (λ c, has_state state c)
                              (filter (λ c, has_owner (USER E) c) items)).
Proof.
  unfold list_selection. cbn [negb]. unfold get_current_user. intros H.
  apply bind_inv in H as [(containers & w1 & H1 & H)|(e & H1 & ->)].
  - apply bind_inv in H1 as [(owned & w2 & Hu & H1)|(e & Hu & [=])].
    injection H1 as <- <-.
    rewrite get_user_containers_run in Hu. injection Hu as Hu <-.
    assert (∃ cs items, (get_all_containers w).1 = Ok cs ∧ iterate cs = Ok items
                        ∧ owned = filter (λ c, has_owner (USER E) c) items)
      as (cs & items & Hcs & Hi & ->).
    { revert Hu. rewrite get_user_containers_eq, get_all_containers_eq. simpl.
      destruct (registry_of w) as [doc|]; [|discriminate].
      destruct (getitem doc "containers") as [cs|]; [|discriminate].
      destruct (iterate cs) as [items|] eqn:Hi; [|discriminate].
      intros ->%owned_by_filter. by exists cs, items. }
    destruct r as [sel|e].
    + apply state_filter_Ok in H as [-> Hsel]. split; [done|]. split; [done|].
      intros sel' [= <-]. exists cs, items. split; [done|]. split; [done|].
      destruct Hsel as [[-> ->] | (Hne & items' & [= <-] & ->)].
      * done.
      * by rewrite bool_decide_eq_false_2.
    + assert (w' = initialized w) as ->; [|by repeat split].
      revert H. case_bool_decide; simpl; [discriminate|].
      unfold bind, lift. simpl.
      destruct (in_state state _); by intros [= <-].
  - apply bind_inv in H1 as [(owned & w2 & Hu & [=])|(e' & Hu & _)].
    rewrite get_user_containers_run in Hu. injection Hu as _ <-. by repeat split.
Qed.

Lemma list_selection_own_witness :
  ∃ containers items,
    (get_all_containers sample_world).1 = Ok containers
    ∧ iterate containers = Ok items
    ∧ JList [JDict (sample_fields "demo-env" "alice")]
      = JList (if bool_decide ("creating" = "all")
               then filter (λ c, has_owner (USER sample_env) c) items
               else filter (λ c, has_state "creating" c)
                      (filter (λ c, has_owner (USER sample_env) c) items)).
Proof.
  destruct (list_selection_own sample_env "creating" sample_world
              (list_selection sample_env false "creating" sample_world).1
              (list_selection sample_env false "creating" sample_world).2)
    as (_ & _ & Hsel); [vm_compute; reflexivity|].
  apply Hsel. vm_compute. reflexivity.
Defined.

(** X23: [list --all] is for administrators. For a caller who is not one
    it exits with status 1, having reported why and run the group lookup
    only; the registry file is not even opened. For an administrator it
    selects from all the records of the stored list, whoever owns them:
    the whole list, or with a state filter the records in that state. *)
Theorem list_selection_all E state w :
  ((is_admin E (USER E) w).1 = Ok false →
     list_selection E true state w
     = (Raise (SystemExit 1),
        {| registry_file := registry_file w;
           calls := calls w ++ [["groups"; USER E]];
           errors := errors w ++ ["Error: --all requires admin privileges"] |}))
  ∧ ((is_admin E (USER E) w).1 = Ok true →
     ∀ sel, (list_selection E true state w).1 = Ok sel →
       ∃ containers,
         (get_all_containers w).1 = Ok containers
         ∧ (state = "all" ∧ sel = containers
            ∨ state ≠ "all"
              ∧ ∃ items, iterate containers = Ok items
                         ∧ sel = JList (filter (λ c, has_state state c) items))).
Proof.
  destruct (is_admin_run E (USER E) w) as [b Hb]. rewrite Hb. simpl. split.
  - intros [= ->]. unfold list_selection, get_current_user.
    unfold bind at 1. unfold bind at 1. by rewrite Hb.
  - intros [= ->] sel. unfold list_selection, get_current_user.
    unfold bind at 1. unfold bind at 1. rewrite Hb. simpl.
    unfold bind at 1. unfold ret at 1.
    set (w1 := {| registry_file := registry_file w;
                  calls := calls w ++ [["groups"; USER E]]; errors := errors w |}).
    assert ((get_all_containers w1).1 = (get_all_containers w).1) as Hsame
      by (by rewrite !get_all_containers_eq).
    rewrite get_all_containers_run, Hsame.
    destruct (get_all_containers w).1 as [containers|e]; [|discriminate].
    intros Hsel. exists containers. split; [done|].
    destruct (_ (initialized w1)) as [r w2] eqn:Hrun in Hsel.
    simpl in Hsel. subst r.
    by destruct (state_filter_Ok _ _ _ _ _ Hrun) as [_ ?].
Qed.

Lemma list_selection_all_witness :
  list_selection sample_env true "all" sample_world
  = (Raise (SystemExit 1),
     {| registry_file := registry_file sample_world;
        calls := calls sample_world ++ [["groups"; USER sample_env]];
        errors := errors sample_world ++ ["Error: --all requires admin privileges"] |})
  ∧ ∃ containers,
      (get_all_containers sample_world).1 = Ok containers
      ∧ ("running" = "all"
         ∧ JList ([] : list json) = containers
         ∨ "running" ≠ "all"
           ∧ ∃ items, iterate containers = Ok items
                      ∧ JList [] = JList (filter (λ c, has_state "running" c) items)).
Proof.
  split.
  - apply (proj1 (list_selection_all sample_env "all" sample_world)).
    vm_compute. reflexivity.
  - apply (proj2 (list_selection_all admin_env "running" sample_world));
      vm_compute; reflexivity.
Defined.

(** ** More on the interleavings of [add_container] *)

Lemma concurrent_add_container_outcomes_witness :
  (length sample_schedule ≤ 12 * length sample_requests)%nat
  ∧ (finished sample_final = false →
       ∃ i timestamp s', system_step sample_requests i timestamp sample_final = Some s')
  ∧ (finished sample_final = true →
       Forall (λ p, p = Done ∨ p = Failed JSONDecodeError) (procs sample_final)
       ∧ ∃ (entries : list (request * string)) (items : list json),
           file sample_final
           = Some (Document (JDict (<["containers" := JList items]> (registry_doc 1 []))))
           ∧ items = record_of <$> entries
           ∧ entries.*1 ≡ₚ committed sample_requests (procs sample_final)
           ∧ NoDup ((λ c, getitem c "name") <$> items)).
Proof.
  apply (concurrent_add_container_outcomes sample_requests (registry_doc 1 [])
           sample_schedule sample_final).
  - apply (bool_decide_unpack _). vm_compute. exact I.
  - vm_compute. reflexivity.
  - vm_compute. reflexivity.
Defined.

Lemma solo_run_is_add_container_witness :
  procs solo_final = [Done] ∧ lock solo_final = None
  ∧ add_container sample_env (req_name solo_request) (req_owner solo_request)
      (req_cpu solo_request) (req_memory solo_request) (req_sync solo_request) empty_world
    = (Ok tt, with_file (file solo_final) empty_world).
Proof.
  apply (solo_run_is_add_container sample_env solo_request (JDict (registry_doc 1 []))
           "2025-01-01T00:00:00Z" empty_world solo_final);
    vm_compute; reflexivity.
Defined.

(** X26: in every state that concurrent calls of [add_container] can
    reach from a registry without containers, the lock is held by one
    process at most, and [lock] names the process that is between taking
    and releasing it. The file is empty exactly while one process, and
    then only that one, is between emptying the file and closing it; at
    every other moment it holds a well-formed registry made of the old keys
    and the records of calls that are done. *)
Theorem concurrent_add_container_exclusion reqs d0 schedule s :
  d0 !! "containers" = Some (JList []) →
  run reqs schedule (initial (JDict d0) (length reqs)) = Some s →
  (∀ i p, procs s !! i = Some p → (holding p = true ↔ lock s = Some i))
  ∧ (∀ i j p q, procs s !! i = Some p → procs s !! j = Some q →
       holding p = true → holding q = true → i = j)
  ∧ (∀ i j p q, procs s !! i = Some p → procs s !! j = Some q →
       pending p = true → pending q = true → i = j)
  ∧ ((∃ i p, procs s !! i = Some p ∧ pending p = true) → file s = Some Undecodable)
  ∧ (forallb (λ p, negb (pending p)) (procs s) = true →
       ∃ entries : list (request * string),
         file s = Some (Document (JDict (<["containers" := JList (record_of <$> entries)]> d0)))
         ∧ entries.*1 ≡ₚ committed reqs (procs s)).
Proof.
  intros Hd0 Hrun.
  pose proof (invariant_run _ _ _ _ _ (invariant_initial reqs d0 Hd0) Hrun) as Hinv.
  destruct Hinv as (_ & _ & [Hlock _] & writer & entries & [Hwriter Hlt] & Hperm & _
                    & _ & Hfile).
  split; [exact Hlock|]. split.
  { intros i j p q Hi Hj Hp Hq.
    apply (Hlock i p Hi) in Hp. apply (Hlock j q Hj) in Hq. congruence. }
  split.
  { intros i j p q Hi Hj Hp Hq.
    apply (Hwriter i p Hi) in Hp. apply (Hwriter j q Hj) in Hq. congruence. }
  split.
  { intros (i & p & Hi & Hp). apply (Hwriter i p Hi) in Hp. by rewrite Hp in Hfile. }
  intros Hnone.
  destruct writer as [j|].
  - destruct (lookup_lt_is_Some_2 _ _ (Hlt j eq_refl)) as [p Hp].
    pose proof (forallb_lookup _ _ _ _ Hnone Hp) as Hneg.
    assert (pending p = true) as Hpend by (by apply (Hwriter j p Hp)).
    simpl in Hneg. by rewrite Hpend in Hneg.
  - by exists entries.
Qed.

Lemma concurrent_add_container_exclusion_witness :
  (∀ i p, procs racing_midway !! i = Some p →
     (holding p = true ↔ lock racing_midway = Some i))
  ∧ (∀ i j p q, procs racing_midway !! i = Some p → procs racing_midway !! j = Some q →
       holding p = true → holding q = true → i = j)
  ∧ (∀ i j p q, procs racing_midway !! i = Some p → procs racing_midway !! j = Some q →
       pending p = true → pending q = true → i = j)
  ∧ ((∃ i p, procs racing_midway !! i = Some p ∧ pending p = true) →
       file racing_midway = Some Undecodable)
  ∧ (forallb (λ p, negb (pending p)) (procs racing_midway) = true →
       ∃ entries : list (request * string),
         file racing_midway
         = Some (Document (JDict (<["containers" := JList (record_of <$> entries)]>
                                    (registry_doc 1 []))))
         ∧ entries.*1 ≡ₚ committed racing_requests (procs racing_midway)).
Proof.
  apply (concurrent_add_container_exclusion racing_requests (registry_doc 1 [])
           (take 10 racing_schedule) racing_midway);
    vm_compute; reflexivity.
Defined.

(** ** Names stay unique *)

Lemma keeps_unique_reads_only {A} (c : M A) : reads_only c → keeps_unique c.
Proof. intros Hc w r w' H. unfold unique_names. by rewrite (Hc _ _ _ H). Qed.

Lemma keeps_unique_bind {A B} (c : M A) (k : A → M B) :
  keeps_unique c → (∀ a, keeps_unique (k a)) → keeps_unique (bind c k).
Proof.
  intros Hc Hk w r w' H Hu. apply bind_inv in H as [(a & w1 & H1 & H2)|(e & H1 & _)].
  - eapply Hk; [exact H2|]. eauto.
  - eauto.
Qed.

Lemma keeps_unique_if {A} (b : bool) (c1 c2 : M A) :
  keeps_unique c1 → keeps_unique c2 → keeps_unique (if b then c1 else c2).
Proof. by destruct b. Qed.

Lemma keeps_unique_exit_on_DevboxError body :
  keeps_unique body → keeps_unique (exit_on_DevboxError body).
Proof.
  intros Hb w r w'. unfold exit_on_DevboxError, try_except.
  destruct (body w) as [[[]|e0] w1] eqn:Hbody.
  - intros [= _ <-]. eauto.
  - intros H Hu. pose proof (Hb _ _ _ Hbody Hu) as Hu1.
    destruct (DevboxError_message e0).
    + unfold bind, echo_err, raise in H. by injection H as _ <-.
    + by injection H as _ <-.
Qed.

Lemma update_first_names name updates items items' :
  updates !! "name" = None →
  update_first name updates items = Ok items' →
  (λ c, getitem c "name") <$> items' = (λ c, getitem c "name") <$> items.
Proof.
  intros Hu. revert items'. induction items as [|c rest IH]; intros items'; simpl.
  - by intros [= <-].
  - destruct (getitem c "name") as [v|e] eqn:Hg; [|discriminate].
    destruct (eq_str v name).
    + apply getitem_Ok in Hg as (dc & -> & Hdc). simpl. intros [= <-].
      cbn [fmap list_fmap getitem]. by rewrite lookup_union_r, Hdc.
    + destruct (update_first name updates rest) as [rest'|e]; [|discriminate].
      intros [= <-]. cbn [fmap list_fmap]. rewrite Hg. f_equal. by apply IH.
Qed.

Lemma keeps_unique_update_container name updates :
  updates !! "name" = None → keeps_unique (update_container name updates).
Proof.
  intros Hu w r w'. rewrite update_container_eq. unfold unique_names.
  destruct (registry_of w) as [doc|] eqn:Hw;
    [|intros [= _ <-]; by rewrite registry_of_initialized, Hw].
  destruct (getitem doc "containers") as [cs|] eqn:Hg;
    [|intros [= _ <-]; by rewrite registry_of_initialized, Hw].
  destruct (iterate cs) as [items|] eqn:Hi;
    [|intros [= _ <-]; by rewrite registry_of_initialized, Hw].
  destruct (update_first name updates items) as [items'|] eqn:Hup;
    [|intros [= _ <-]; by rewrite registry_of_initialized, Hw].
  apply getitem_Ok in Hg as (d & -> & Hd).
  destruct cs; simpl; intros [= _ <-]; rewrite registry_of_with_file; try done.
  injection Hi as ->. simpl. rewrite Hd, lookup_insert_eq.
  by rewrite (update_first_names _ _ _ _ Hu Hup).
Qed.

Lemma keeps_unique_remove_container name : keeps_unique (remove_container name).
Proof.
  intros w r w'. rewrite remove_container_eq. unfold unique_names.
  destruct (registry_of w) as [doc|] eqn:Hw;
    [|intros [= _ <-]; by rewrite registry_of_initialized, Hw].
  destruct (getitem doc "containers") as [cs|] eqn:Hg;
    [|intros [= _ <-]; by rewrite registry_of_initialized, Hw].
  destruct (iterate cs) as [items|] eqn:Hi;
    [|intros [= _ <-]; by rewrite registry_of_initialized, Hw].
  destruct (remove_named name items) as [kept|] eqn:Hrm;
    [|intros [= _ <-]; by rewrite registry_of_initialized, Hw].
  apply getitem_Ok in Hg as (d & -> & Hd).
  simpl. intros [= _ <-]. rewrite registry_of_with_file. simpl.
  rewrite Hd, lookup_insert_eq.
  destruct (remove_named_Ok _ _ _ Hrm) as [_ ->].
  destruct cs; simpl in Hi; try discriminate; injection Hi as <-.
  - destruct (String.list_ascii_of_string s); [|discriminate Hrm].
    intros _. apply NoDup_nil_2.
  - intros Hnd.
    assert ((λ c, getitem c "name") <$> filter (λ c, negb (has_name name c)) items0
            `sublist_of` (λ c, getitem c "name") <$> items0) as Hsub
      by apply fmap_sublist, sublist_filter.
    by eapply sublist_NoDup.
  - destruct (map_to_list d0).*1; [|discriminate Hrm].
    intros _. apply NoDup_nil_2.
Qed.

Lemma none_named_fresh name items :
  none_named name items = true →
  Ok (JStr name) ∉ (λ c, getitem c "name") <$> items.
Proof.
  intros Hnone (c & Hc & Hin)%list_elem_of_fmap.
  apply list_elem_of_In in Hin.
  pose proof (proj1 (forallb_forall _ _) Hnone c Hin) as Hn.
  apply named_otherwise_getitem in Hn as (v & Hv & Hne).
  rewrite Hv in Hc. injection Hc as <-. simpl in Hne.
  by rewrite bool_decide_eq_true_2 in Hne.
Qed.

Lemma keeps_unique_create_body E name cpu memory no_start sync :
  keeps_unique (create_body E name cpu memory no_start sync).
Proof.
  intros w r w' H. unfold unique_names. destruct r as [[]|e].
  - apply create_body_Ok in H
      as (d & items & ts & updates & _ & Hw & Hd & Hnone & _ & Hkeys & Hw').
    rewrite Hw, Hw'. simpl. rewrite Hd, lookup_insert_eq, fmap_app. simpl.
    rewrite lookup_union_r by (by apply Hkeys).
    unfold record_fields. rewrite lookup_insert_eq. simpl.
    intros Hnd. apply NoDup_app. split; [done|]. split; [|apply NoDup_singleton].
    intros x Hx ->%list_elem_of_singleton. by apply (none_named_fresh name items).
  - by rewrite (raises_clean_create_body _ _ _ _ _ _ _ _ _ H).
Qed.

Ltac keeps_unique :=
  repeat lazymatch goal with
         | |- keeps_unique (bind _ _) =>
             apply keeps_unique_bind;
               [first [ apply keeps_unique_reads_only, reads_only_lookup_or_NotFound
                      | apply keeps_unique_reads_only, keeps_reads_only; keeps ]
               | intros]
         | |- keeps_unique (if ?b then _ else _) =>
             apply keeps_unique_if;
               [apply keeps_unique_reads_only, keeps_reads_only; keeps|]
         end.

(** X27: no command makes two records of one name. When the names of the
    stored records are unique before [create], [start], [stop], [destroy]
    or [rotate-key], they are unique after it, whether the command
    returns normally or fails. *)
Theorem commands_keep_names_unique E name cpu memory no_start sync force keep_volume
    w r w' :
  create E name cpu memory no_start sync w = (r, w')
  ∨ start E name w = (r, w')
  ∨ stop E name w = (r, w')
  ∨ destroy E name force keep_volume w = (r, w')
  ∨ rotate_key E name w = (r, w') →
  unique_names w → unique_names w'.
Proof.
  assert (keeps_unique (start E name)) as Hstart.
  { apply keeps_unique_exit_on_DevboxError. unfold start_body. keeps_unique.
    by apply keeps_unique_update_container. }
  assert (keeps_unique (stop E name)) as Hstop.
  { apply keeps_unique_exit_on_DevboxError. unfold stop_body. keeps_unique.
    by apply keeps_unique_update_container. }
  assert (keeps_unique (destroy E name force keep_volume)) as Hdestroy.
  { apply keeps_unique_exit_on_DevboxError. unfold destroy_body. keeps_unique.
    apply keeps_unique_remove_container. }
  assert (keeps_unique (rotate_key E name)) as Hrotate.
  { apply keeps_unique_exit_on_DevboxError. unfold rotate_key_body. keeps_unique.
    by apply keeps_unique_update_container. }
  pose proof (keeps_unique_exit_on_DevboxError _
                (keeps_unique_create_body E name cpu memory no_start sync)) as Hcreate.
  intros [H | [H | [H | [H | H]]]]; eauto.
Qed.

Lemma commands_keep_names_unique_witness :
  unique_names (create sample_env "new-env" 2 "4G" true false sample_world).2.
Proof.
  apply (commands_keep_names_unique sample_env "new-env" 2 "4G" true false true false
           sample_world (create sample_env "new-env" 2 "4G" true false sample_world).1).
  - left. vm_compute. reflexivity.
  - unfold unique_names. vm_compute.
    apply NoDup_cons. split; [|apply NoDup_singleton].
    intros H%list_elem_of_singleton. discriminate H.
Defined.

(** X28: [create] refuses a name that is taken: when the arguments are
    valid and a record of that name is stored, it raises the
    [ValidationError] that says so, having run no command and changed
    nothing; the quotas are not even looked at. *)
Theorem create_refuses_taken_name E name cpu memory no_start sync w c :
  validate_container_name name = Ok tt → validate_cpu cpu = Ok tt →
  validate_memory memory = Ok tt →
  (get_container name w).1 = Ok (Some c) →
  create_body E name cpu memory no_start sync w
  = (Raise (ValidationError ("Container already exists: " +:+ name)), w)
  ∧ create E name cpu memory no_start sync w
    = (Raise (SystemExit 1),
       {| registry_file := registry_file w;
          calls := calls w;
          errors := errors w ++ ["Error: Container already exists: " +:+ name] |}).
Proof.
  intros Hname Hcpu Hmem Hfound.
  assert (create_body E name cpu memory no_start sync w
          = (Raise (ValidationError ("Container already exists: " +:+ name)), w))
    as Hbody.
  { unfold create_body. apply bind_Raise.
    rewrite create_admission_eq, Hname, Hcpu, Hmem, Hfound.
    apply get_container_Some in Hfound as (d & _ & _ & _ & Hw & _).
    by rewrite (initialized_stored _ _ Hw). }
  split; [done|].
  unfold create, exit_on_DevboxError. by rewrite (try_except_Raise _ _ _ _ _ Hbody).
Qed.

Lemma create_refuses_taken_name_witness :
  create_body sample_env "demo-env" 2 "4G" false false sample_world
  = (Raise (ValidationError ("Container already exists: " +:+ "demo-env")), sample_world)
  ∧ create sample_env "demo-env" 2 "4G" false false sample_world
    = (Raise (SystemExit 1),
       {| registry_file := registry_file sample_world;
          calls := calls sample_world;
          errors := errors sample_world
                    ++ ["Error: Container already exists: " +:+ "demo-env"] |}).
Proof.
  apply (create_refuses_taken_name sample_env "demo-env" 2 "4G" false false sample_world
           (JDict (sample_fields "demo-env" "alice")));
    vm_compute; reflexivity.
Defined.

(** ** Rotating the key *)

(** A command of the kind [up] in a history whose other commands are not of
    that kind is the last one. *)
Lemma no_up_among (l before after : list (list string)) cmd :
  forallb is_not_up l = true → is_up cmd = true → before ++ cmd :: after = l → False.
Proof.
  intros Hl Hcmd <-. rewrite forallb_app in Hl. simpl in Hl.
  unfold is_not_up in Hl. rewrite Hcmd in Hl. simpl in Hl.
  by rewrite andb_false_r in Hl.
Qed.

Lemma up_is_last (l before after : list (list string)) x cmd :
  forallb is_not_up l = true → is_up cmd = true →
  before ++ cmd :: after = l ++ [x] → before = l ∧ cmd = x ∧ after = [].
Proof.
  intros Hl Hcmd. revert before. induction l as [|a l IH]; intros before Heq.
  - destruct before as [|b before]; simpl in Heq.
    + by injection Heq as -> <-.
    + injection Heq as _ Heq. by destruct before.
  - simpl in Hl. apply andb_true_iff in Hl as [Ha Hl].
    destruct before as [|b before]; simpl in Heq.
    + injection Heq as -> _. unfold is_not_up in Ha. by rewrite Hcmd in Ha.
    + injection Heq as -> Heq. destruct (IH Hl before Heq) as (-> & -> & ->). done.
Qed.

(** The re-authentication, outcome by outcome. *)
Lemma tailscale_reauth_run E name authkey tags w :
  tailscale_reauth E name authkey tags w
  = let w2 := {| registry_file := registry_file w;
                 calls := calls w ++ [logout_command name; up_command name authkey tags];
                 errors := errors w |} in
    match subprocess_run E (calls w) (logout_command name) with
    | NoSuchProgram =>
        (Raise FileNotFoundError,
         {| registry_file := registry_file w;
            calls := calls w ++ [logout_command name];
            errors := errors w |})
    | Exited _ _ _ =>
        match subprocess_run E (calls w ++ [logout_command name])
                (up_command name authkey tags) with
        | NoSuchProgram => (Raise FileNotFoundError, w2)
        | Exited rc _ _ =>
            if rc =? 0 then (Ok tt, w2)
            else (Raise (PodmanError "Failed to rotate auth key"), w2)
        end
    end.
Proof.
  unfold tailscale_reauth, try_except, bind, run_command, logout_command, up_command.
  destruct (subprocess_run E (calls w) _) as [rc0 out0 err0|]; [|done].
  cbn [calls registry_file errors andb negb].
  destruct (subprocess_run E _ _) as [rc out err|];
    [destruct (rc =? 0)|]; cbn [negb]; by rewrite <- app_assoc.
Qed.

(** [rotate-key] up to the retrieval of the key. *)
Lemma rotate_key_body_split E name w :
  rotate_key_body E name w
  = (authkey <-
       (container <- lookup_or_NotFound name ;;
        owner_or_admin E container ;;;
        state <- lift (getitem container "state") ;;
        (if negb (eq_str state "running")
         then raise (ValidationError "Container not running")
         else ret tt) ;;;
        check_podman E ;;;
        get_tailscale_authkey E (USER E)) ;;
     tailscale_reauth E name authkey (get_tailscale_tags (USER E)) ;;;
     timestamp <- get_timestamp E ;;
     update_container name {["lastActivityAt" := JStr timestamp]}) w.
Proof.
  unfold rotate_key_body, get_current_user, bind.
  destruct (lookup_or_NotFound name w) as [[c|?] w1]; [|done].
  destruct (owner_or_admin E c w1) as [[?|?] w2]; [|done].
  destruct (lift (getitem c "state") w2) as [[state|?] w3]; [|done].
  destruct ((if negb (eq_str state "running")
             then raise (ValidationError "Container not running")
             else ret tt) w3) as [[?|?] w4]; [|done].
  destruct (check_podman E w4) as [[?|?] w5]; [|done].
  by destruct (get_tailscale_authkey E (USER E) w5) as [[authkey|?] w6].
Qed.

Lemma runs_only_rotate_key_prefix E name :
  runs_only is_not_up
    (container <- lookup_or_NotFound name ;;
     owner_or_admin E container ;;;
     state <- lift (getitem container "state") ;;
     (if negb (eq_str state "running")
      then raise (ValidationError "Container not running")
      else ret tt) ;;;
     check_podman E ;;;
     get_tailscale_authkey E (USER E)).
Proof.
  apply runs_only_bind; [runs | intros c].
  apply runs_only_bind; [unfold owner_or_admin, is_admin; runs | intros _].
  apply runs_only_bind; [runs | intros state].
  apply runs_only_bind; [runs | intros _].
  apply runs_only_bind; [unfold check_podman; runs | intros _].
  unfold get_tailscale_authkey, check_op_cli, check_op_auth. runs.
Qed.

(** C8: every run of [rotate-key]. Whenever the command fails, at the
    re-authentication or anywhere else, the registry reads as before. When
    it succeeds, the record was in state ["running"], the logout and the
    login with the new key are the last two commands run and the login has
    exited with 0, and the stored registry differs from the old one in the
    ["lastActivityAt"] of that record only, which holds the time of the
    clock. Whenever the login with the new key exits with another status,
    the command fails with the [PodmanError] that says so, nothing is run
    after the login, and the registry reads as before. When the record is
    there and not in state ["running"], the command fails having run no
    command but, at most, the group lookup of the permission check; when
    no record is there it fails having run none. *)
Theorem rotate_key_registry E name w r w' :
  rotate_key_body E name w = (r, w') →
  ((∃ e, r = Raise e) → registry_of w' = registry_of w)
  ∧ (r = Ok tt →
     ∃ d pre dc post authkey before,
       registry_of w = Document (JDict d)
       ∧ d !! "containers" = Some (JList (pre ++ JDict dc :: post))
       ∧ none_named name pre = true
       ∧ dc !! "name" = Some (JStr name)
       ∧ dc !! "state" = Some (JStr "running")
       ∧ calls w'
         = calls w ++ before
           ++ [logout_command name;
               up_command name authkey (get_tailscale_tags (USER E))]
       ∧ (∃ out err,
            subprocess_run E (calls w ++ before ++ [logout_command name])
              (up_command name authkey (get_tailscale_tags (USER E)))
            = Exited 0 out err)
       ∧ registry_of w'
         = Document (JDict (<["containers" :=
             JList (pre ++ JDict (<["lastActivityAt" := JStr (utcnow E (calls w'))]> dc)
                        :: post)]> d)))
  ∧ (∀ before cmd after rc out err,
       calls w' = calls w ++ before ++ cmd :: after →
       is_up cmd = true →
       subprocess_run E (calls w ++ before) cmd = Exited rc out err → rc ≠ 0 →
       r = Raise (PodmanError "Failed to rotate auth key")
       ∧ after = []
       ∧ registry_of w' = registry_of w)
  ∧ (∀ c, (get_container name w).1 = Ok (Some c) →
       getitem c "state" ≠ Ok (JStr "running") →
       (∃ e, r = Raise e)
       ∧ (calls w' = calls w ∨ calls w' = calls w ++ [["groups"; USER E]]))
  ∧ ((get_container name w).1 = Ok None →
       r = Raise (NotFoundError ("Container not found: " +:+ name))
       ∧ calls w' = calls w).
Proof.
  intros H.
  (* the run, cut at the retrieval of the key *)
  pose proof H as Hcut. rewrite rotate_key_body_split in Hcut.
  assert (∀ authkey w5 w6 r6,
            tailscale_reauth E name authkey (get_tailscale_tags (USER E)) w5 = (Ok tt, w6) →
            (timestamp <- get_timestamp E ;;
             update_container name {["lastActivityAt" := JStr timestamp]}) w6 = (r6, w') →
            calls w' = calls w5
                       ++ [logout_command name;
                           up_command name authkey (get_tailscale_tags (USER E))]
            ∧ ∃ out err,
                subprocess_run E (calls w5 ++ [logout_command name])
                  (up_command name authkey (get_tailscale_tags (USER E)))
                = Exited 0 out err) as Hlogin.
  { intros authkey w5 w6 r6 Hre Hrest.
    assert (calls w' = calls w6) as ->.
    { revert Hrest. apply silent_bind; [silent | intros; apply silent_update_container]. }
    rewrite tailscale_reauth_run in Hre. cbv zeta in Hre.
    destruct (subprocess_run E (calls w5) _) as [rc0 out0 err0|]; [|discriminate].
    destruct (subprocess_run E (calls w5 ++ _) _) as [rc out err|]; [|discriminate].
    destruct (rc =? 0) eqn:Hrc; [|discriminate]. injection Hre as <-.
    apply Z.eqb_eq in Hrc as ->. split; [done | by exists out, err]. }
  split; [|split; [|split; [|split]]].
  - intros [e ->]. by apply (raises_clean_rotate_key_body E name w e w').
  - intros ->.
    (* the commands *)
    apply bind_Ok_inv in Hcut as (authkey & w5' & Hpre & Hcut).
    destruct (runs_only_rotate_key_prefix E name _ _ _ Hpre) as (before & Hbefore & _).
    apply bind_Ok_inv in Hcut as ([] & w6' & Hre & Hcut).
    destruct (Hlogin _ _ _ _ Hre Hcut) as (Hcalls & out & err & Hup).
    rewrite Hbefore, <- app_assoc in Hcalls. rewrite Hbefore, <- app_assoc in Hup.
    (* the record *)
    unfold rotate_key_body in H.
    apply bind_Ok_inv in H as (c & w0 & Hl & H).
    apply lookup_or_NotFound_Ok in Hl
      as (-> & d & pre & dc & post & Hw & Hd & -> & Hdc & Hpre').
    apply bind_Ok_keeps in H as (a & w1 & Hf1 & _ & H); [|keeps].
    apply bind_Ok_keeps in H as (state & w2 & Hf2 & Hs & H); [|keeps].
    injection Hs as Hs _.
    apply bind_Ok_keeps in H as (a3 & w3 & Hf3 & Hr & H); [|keeps].
    destruct (eq_str state "running") eqn:Hrun; [|discriminate Hr].
    apply eq_str_true in Hrun as ->.
    simpl in Hs. destruct (dc !! "state") as [v|] eqn:Hstate; [|discriminate Hs].
    injection Hs as ->.
    apply bind_Ok_keeps in H as (a4 & w4 & Hf4 & _ & H); [|keeps].
    apply bind_Ok_keeps in H as (authkey' & w5 & Hf5 & _ & H); [|keeps].
    apply bind_Ok_keeps in H as (a6 & w6 & Hf6 & _ & H); [|keeps].
    apply bind_Ok_inv in H as (timestamp & w7 & Hts & H).
    injection Hts as <- <-.
    assert (registry_file w6 = Some (Document (JDict d))) as Hw6 by congruence.
    rewrite (update_container_stored name _ w6 d _ _
               (registry_of_stored _ _ Hw6) Hd
               (update_first_match name _ pre dc post Hpre' Hdc)) in H.
    injection H as <-.
    exists d, pre, dc, post, authkey, before.
    rewrite (registry_of_stored _ _ Hw).
    split; [done|]. split; [done|]. split; [done|]. split; [done|]. split; [done|].
    split; [exact Hcalls|]. split; [by exists out, err|].
    rewrite registry_of_with_file. cbn [calls with_file].
    by rewrite <- insert_union_singleton_l.
  - intros before cmd after rc out err Hcalls Hcmd Hout Hrc.
    assert (registry_of w' = registry_of w ∨ r = Ok tt) as Hreg.
    { destruct r as [[]|e]; [by right|]. left.
      by apply (raises_clean_rotate_key_body E name w e w'). }
    apply bind_inv in Hcut as [(authkey & w5 & Hpre & Hcut)|(e & Hpre & ->)].
    + destruct (runs_only_rotate_key_prefix E name _ _ _ Hpre) as (new & Hnew & Hnot).
      apply bind_inv in Hcut as [([] & w6 & Hre & Hcut)|(e & Hre & ->)].
      * (* the login has exited with 0 *)
        destruct (Hlogin _ _ _ _ Hre Hcut) as (Hcalls' & out' & err' & Hup).
        rewrite Hcalls', Hnew, <- app_assoc in Hcalls.
        apply app_inv_head in Hcalls.
        change (new ++ [logout_command name; up_command name authkey _])
          with (new ++ [logout_command name] ++ [up_command name authkey
                  (get_tailscale_tags (USER E))]) in Hcalls.
        rewrite app_assoc in Hcalls. symmetry in Hcalls.
        apply up_is_last in Hcalls as (-> & -> & ->); [| |done].
        -- rewrite Hnew, <- app_assoc in Hup. rewrite Hup in Hout.
           injection Hout as <- _ _. done.
        -- rewrite forallb_app, Hnot. reflexivity.
      * (* the re-authentication has raised *)
        rewrite tailscale_reauth_run in Hre. cbv zeta in Hre.
        destruct (subprocess_run E (calls w5) (logout_command name))
          as [rc0 out0 err0|].
        -- destruct (subprocess_run E (calls w5 ++ _) _) as [rc1 out1 err1|] eqn:Hup.
           ++ destruct (rc1 =? 0); [discriminate Hre|]. injection Hre as <- <-.
              destruct Hreg as [Hreg|]; [|discriminate].
              cbn [calls] in Hcalls. rewrite Hnew, <- app_assoc in Hcalls.
              apply app_inv_head in Hcalls.
              change (new ++ [logout_command name; up_command name authkey _])
                with (new ++ [logout_command name] ++ [up_command name authkey
                        (get_tailscale_tags (USER E))]) in Hcalls.
              rewrite app_assoc in Hcalls. symmetry in Hcalls.
              apply up_is_last in Hcalls as (-> & -> & ->); [done | | done].
              rewrite forallb_app, Hnot. reflexivity.
           ++ injection Hre as <- <-.
              cbn [calls] in Hcalls. rewrite Hnew, <- app_assoc in Hcalls.
              apply app_inv_head in Hcalls.
              change (new ++ [logout_command name; up_command name authkey _])
                with (new ++ [logout_command name] ++ [up_command name authkey
                        (get_tailscale_tags (USER E))]) in Hcalls.
              rewrite app_assoc in Hcalls. symmetry in Hcalls.
              apply up_is_last in Hcalls as (-> & -> & ->); [| |done].
              ** rewrite Hnew, <- app_assoc in Hup. rewrite Hup in Hout. discriminate.
              ** rewrite forallb_app, Hnot. reflexivity.
        -- injection Hre as <- <-.
           cbn [calls] in Hcalls. rewrite Hnew, <- app_assoc in Hcalls.
           apply app_inv_head in Hcalls. symmetry in Hcalls.
           assert (forallb is_not_up (new ++ [logout_command name]) = true) as Hnot'
             by (rewrite forallb_app, Hnot; reflexivity).
           by destruct (no_up_among _ _ _ _ Hnot' Hcmd Hcalls).
    + destruct (runs_only_rotate_key_prefix E name _ _ _ Hpre) as (new & Hnew & Hnot).
      rewrite Hnew in Hcalls. apply app_inv_head in Hcalls. symmetry in Hcalls.
      by destruct (no_up_among _ _ _ _ Hnot Hcmd Hcalls).
  - intros c Hfound Hstate.
    pose proof (lookup_or_NotFound_Some _ _ _ Hfound) as Hl.
    unfold rotate_key_body in H. rewrite (bind_Ok _ _ _ _ _ Hl) in H.
    apply bind_inv in H as [(a & w1 & Ho & H)|(e & Ho & ->)];
      [|split; [eauto | by apply (owner_or_admin_calls _ _ _ _ _ Ho)]].
    apply owner_or_admin_calls in Ho.
    unfold bind, lift in H. destruct (getitem c "state") as [state|e] eqn:Hs.
    + destruct (eq_str state "running") eqn:Hr.
      { apply eq_str_true in Hr as ->. done. }
      simpl in H. injection H as <- <-. eauto.
    + injection H as <- <-. eauto.
  - intros Hnone. unfold rotate_key_body in H.
    rewrite (bind_Raise _ _ w (NotFoundError ("Container not found: " +:+ name))
               (initialized w)) in H
      by (by rewrite lookup_or_NotFound_eq, Hnone).
    by injection H as <- <-.
Qed.

Lemma rotate_key_registry_witness :
  (∃ d pre dc post authkey before,
     registry_of running_world = Document (JDict d)
     ∧ d !! "containers" = Some (JList (pre ++ JDict dc :: post))
     ∧ none_named "demo-env" pre = true
     ∧ dc !! "name" = Some (JStr "demo-env")
     ∧ dc !! "state" = Some (JStr "running")
     ∧ calls (rotate_key_body later_env "demo-env" running_world).2
       = calls running_world ++ before
         ++ [logout_command "demo-env";
             up_command "demo-env" authkey (get_tailscale_tags (USER later_env))]
     ∧ (∃ out err,
          subprocess_run later_env
            (calls running_world ++ before ++ [logout_command "demo-env"])
            (up_command "demo-env" authkey (get_tailscale_tags (USER later_env)))
          = Exited 0 out err)
     ∧ registry_of (rotate_key_body later_env "demo-env" running_world).2
       = Document (JDict (<["containers" :=
           JList (pre ++ JDict (<["lastActivityAt" :=
                                  JStr (utcnow later_env
                                          (calls (rotate_key_body later_env "demo-env"
                                                    running_world).2))]> dc)
                      :: post)]> d)))
  ∧ registry_of (rotate_key_body later_env "demo-env" running_world).2
    ≠ registry_of running_world
  ∧ ((rotate_key_body later_failing_up_env "demo-env" running_world).1
     = Raise (PodmanError "Failed to rotate auth key")
     ∧ ([] : list (list string)) = []
     ∧ registry_of (rotate_key_body later_failing_up_env "demo-env" running_world).2
       = registry_of running_world).
Proof.
  split; [|split].
  - apply (rotate_key_registry later_env "demo-env" running_world (Ok tt)
             (rotate_key_body later_env "demo-env" running_world).2);
      vm_compute; reflexivity.
  - intros Heq.
    apply (f_equal (λ c, match c with
                         | Document doc =>
                             match getitem doc "containers" with
                             | Ok (JList [_; record]) => getitem record "lastActivityAt"
                             | _ => Raise TypeError
                             end
                         | Undecodable => Raise TypeError
                         end)) in Heq.
    vm_compute in Heq. discriminate Heq.
  - destruct (rotate_key_registry later_failing_up_env "demo-env" running_world
                (rotate_key_body later_failing_up_env "demo-env" running_world).1
                (rotate_key_body later_failing_up_env "demo-env" running_world).2)
      as (_ & _ & Hfail & _); [vm_compute; reflexivity|].
    apply (Hfail before_up
             (up_command "demo-env" "tskey-auth-sample"
                (get_tailscale_tags (USER later_failing_up_env)))
             [] 125 "" ""); [vm_compute; reflexivity .. | discriminate].
Defined.

(** ** The address a command stores *)

Lemma poll_outcome_0 E name history :
  poll_outcome E name history 0 = subprocess_run E history (poll name).
Proof. unfold poll_outcome. simpl. by rewrite app_nil_r. Qed.

Lemma poll_outcome_S E name history j :
  poll_outcome E name (history ++ [poll name]) j = poll_outcome E name history (S j).
Proof. unfold poll_outcome. simpl. by rewrite <- app_assoc. Qed.

(** One poll more in front of polls without an answer that one. *)
Lemma polled_S E name history timeout k ts_ip :
  answer (subprocess_run E history (poll name)) = None →
  polled E name (history ++ [poll name]) timeout k ts_ip →
  polled E name history (S timeout) (S k) ts_ip.
Proof.
  intros Hnone (Hk & Hbefore & Hlast).
  assert (∀ j, (∀ j', j = S j' → answer (poll_outcome E name history j) = None) →
               answer (poll_outcome E name history j) = None) as Hcases.
  { intros [|j'] Hj; [by rewrite poll_outcome_0 | by apply (Hj j')]. }
  split; [lia|]. split.
  - intros j Hj. apply Hcases. intros j' ->. rewrite <- poll_outcome_S.
    apply Hbefore. lia.
  - destruct ts_ip as [ip|].
    + destruct Hlast as (k' & -> & Hans). exists (S k'). split; [done|].
      by rewrite <- poll_outcome_S.
    + destruct Hlast as [-> Hall]. split; [done|].
      intros j Hj. apply Hcases. intros j' ->. rewrite <- poll_outcome_S.
      apply Hall. lia.
Qed.

(** What [wait_for_tailscale] returns, in terms of what the polls tell. *)
Lemma wait_for_tailscale_polled E name timeout w :
  ∃ k ts_ip,
    wait_for_tailscale E name timeout w
    = (Ok ts_ip, {| registry_file := registry_file w;
                    calls := calls w ++ replicate k (poll name);
                    errors := errors w |})
    ∧ polled E name (calls w) timeout k ts_ip.
Proof.
  revert w. induction timeout as [|t IH]; intros w.
  - exists 0%nat, None. split.
    + simpl. rewrite app_nil_r. by destruct w.
    + split; [done|]. split; [intros j; lia|]. split; [done | intros j; lia].
  - rewrite wait_for_tailscale_S. cbv zeta.
    set (w1 := {| registry_file := registry_file w; calls := calls w ++ [poll name];
                  errors := errors w |}).
    assert (answer (subprocess_run E (calls w) (poll name)) = None →
            ∃ k ts_ip,
              wait_for_tailscale E name t w1
              = (Ok ts_ip, {| registry_file := registry_file w;
                              calls := calls w ++ replicate k (poll name);
                              errors := errors w |})
              ∧ polled E name (calls w) (S t) k ts_ip) as Hlater.
    { intros Hnone. destruct (IH w1) as (k & ts_ip & Hrun & Hpolled).
      exists (S k), ts_ip. split; [|by apply polled_S].
      rewrite Hrun. simpl. by rewrite <- app_assoc. }
    destruct (subprocess_run E (calls w) (poll name)) as [rc out err|] eqn:Hout;
      [|by apply Hlater].
    destruct ((rc =? 0) && negb (String.length (strip out) =? 0)%nat) eqn:Hans;
      [|apply Hlater; simpl; by rewrite Hans].
    exists 1%nat, (Some (strip out)). split; [done|].
    split; [lia|]. split; [intros j; lia|].
    exists 0%nat. split; [done|]. rewrite poll_outcome_0, Hout. simpl. by rewrite Hans.
Qed.

Lemma check_podman_Ok E w w' :
  check_podman E w = (Ok tt, w') →
  w' = {| registry_file := registry_file w;
          calls := calls w ++ [["podman"; "--version"]];
          errors := errors w |}.
Proof.
  unfold check_podman, try_except, bind, run_command.
  destruct (subprocess_run E (calls w) _) as [rc out err|]; [|discriminate].
  destruct (true && negb (rc =? 0)); [discriminate|]. by intros [= <-].
Qed.

Lemma podman_or_Ok E message cmd w w' :
  podman_or E message cmd w = (Ok tt, w') →
  w' = {| registry_file := registry_file w; calls := calls w ++ [cmd];
          errors := errors w |}.
Proof.
  unfold podman_or, try_except, bind, run_command.
  destruct (subprocess_run E (calls w) cmd) as [rc out err|]; [|discriminate].
  destruct (true && negb (rc =? 0)); [discriminate|]. by intros [= <-].
Qed.

(** One step of a run that succeeds: it leaves the file alone and adds
    commands to the history. *)
Lemma bind_Ok_grows {A B} (c : M A) (k : A → M B) w b w' :
  keeps_file c → runs_only any_command c → bind c k w = (Ok b, w') →
  ∃ a w1 new,
    registry_file w1 = registry_file w ∧ calls w1 = calls w ++ new
    ∧ k a w1 = (Ok b, w').
Proof.
  intros Hkeeps Hruns (a & w1 & H1 & H2)%bind_Ok_inv.
  destruct (Hruns _ _ _ H1) as (new & Hnew & _).
  exists a, w1, new. split; [by apply (Hkeeps _ _ _ H1) | by split].
Qed.

(** X17: every run of [start]. A run that fails leaves the registry as it
    was. A run that returns normally on a record in state ["running"] has
    changed nothing and has run no command but, at most, the group lookup.
    On a record in another state it has run the version check and
    [podman start], then [k] polls of the address, and it has changed, in
    the first record of that name and nowhere else, the state to
    ["running"], the time of the last activity to the time of the clock,
    and the address: to the answer of the first poll that has one, which
    is not empty, or to null when none of the 30 polls has an answer,
    whatever the record held before. *)
Theorem start_registry E name w r w' :
  start_body E name w = (r, w') →
  ((∃ e, r = Raise e) → registry_of w' = registry_of w)
  ∧ (r = Ok tt →
     ∃ d pre dc post,
       registry_of w = Document (JDict d)
       ∧ d !! "containers" = Some (JList (pre ++ JDict dc :: post))
       ∧ none_named name pre = true
       ∧ dc !! "name" = Some (JStr name)
       ∧ ((dc !! "state" = Some (JStr "running")
           ∧ registry_of w' = registry_of w
           ∧ (calls w' = calls w ∨ calls w' = calls w ++ [["groups"; USER E]]))
          ∨ (dc !! "state" ≠ Some (JStr "running")
             ∧ ∃ (ts_ip : option string) history k,
                 (history = calls w ++ [["podman"; "--version"];
                                        ["podman"; "start"; name]]
                  ∨ history = calls w ++ [["groups"; USER E];
                                          ["podman"; "--version"];
                                          ["podman"; "start"; name]])
                 ∧ calls w' = history ++ replicate k (poll name)
                 ∧ polled E name history 30 k ts_ip
                 ∧ (∀ ip, ts_ip = Some ip → ip ≠ EmptyString)
                 ∧ registry_of w'
                   = Document (JDict (<["containers" :=
                       JList (pre ++ JDict (<["state" := JStr "running"]>
                                            (<["tailscaleIP" := opt_str ts_ip]>
                                             (<["lastActivityAt" :=
                                                JStr (utcnow E (calls w'))]> dc)))
                                  :: post)]> d))))).
Proof.
  intros H. split.
  { intros [e ->]. by apply (raises_clean_start_body E name w e w'). }
  intros ->. unfold start_body in H.
  apply bind_Ok_inv in H as (c & w0 & Hl & H).
  apply lookup_or_NotFound_Ok in Hl as (-> & d & pre & dc & post & Hw & Hd & -> & Hdc & Hpre).
  apply bind_Ok_inv in H as ([] & w1 & Ho & H).
  pose proof (keeps_owner_or_admin _ _ _ _ _ Ho) as Hf1.
  apply owner_or_admin_calls in Ho as Hc1.
  apply lift_Ok_inv in H as (state & Hs & H).
  exists d, pre, dc, post. rewrite (registry_of_stored _ _ Hw).
  split; [done|]. split; [done|]. split; [done|]. split; [done|].
  simpl in Hs. destruct (dc !! "state") as [v|] eqn:Hstate; [|discriminate Hs].
  injection Hs as ->.
  destruct (eq_str state "running") eqn:Hrun.
  - left. apply eq_str_true in Hrun as ->. injection H as <-.
    split; [done|]. split; [|done]. unfold registry_of. by rewrite Hf1, Hw.
  - right. split.
    { intros [= ->]. by vm_compute in Hrun. }
    apply bind_Ok_inv in H as ([] & w2 & H2 & H). apply check_podman_Ok in H2 as ->.
    apply bind_Ok_inv in H as ([] & w3 & H3 & H).
    unfold podman_start_container in H3. apply podman_or_Ok in H3 as ->.
    cbn [calls registry_file errors] in H.
    apply bind_Ok_inv in H as (ts_ip & w4 & Hwait & H).
    destruct (wait_for_tailscale_polled E name 30
                {| registry_file := registry_file w1;
                   calls := (calls w1 ++ [["podman"; "--version"]])
                            ++ [["podman"; "start"; name]];
                   errors := errors w1 |}) as (k & ts_ip' & Hrun' & Hpolled).
    rewrite Hrun' in Hwait. injection Hwait as <- <-.
    cbn [calls registry_file errors] in *.
    apply bind_Ok_inv in H as (timestamp & w5 & Hts & H).
    injection Hts as <- <-. cbn [calls] in H.
    set (history := (calls w1 ++ [["podman"; "--version"]])
                    ++ [["podman"; "start"; name]]) in *.
    match type of H with
    | update_container _ _ ?wx = _ =>
        assert (registry_of wx = Document (JDict d)) as Hwx
          by (unfold registry_of; cbn [registry_file]; by rewrite Hf1, Hw);
        rewrite (update_container_stored name _ wx d _ _ Hwx Hd
                   (update_first_match name _ pre dc post Hpre Hdc)) in H
    end.
    injection H as <-. exists ts_ip', history, k.
    split.
    { subst history. rewrite <- app_assoc.
      destruct Hc1 as [-> | ->]; [by left | right; by rewrite <- app_assoc]. }
    split; [done|]. split; [done|]. split.
    { intros ip ->. eapply wait_for_tailscale_Some. exact Hrun'. }
    rewrite registry_of_with_file. cbn [calls with_file].
    by rewrite <- !insert_union_l, <- insert_union_singleton_l.
Qed.

Lemma start_registry_witness :
  registry_of (start_body failing_start_env "demo-env" sample_world).2
  = registry_of sample_world
  ∧ ∃ d pre dc post,
      registry_of sample_world = Document (JDict d)
      ∧ d !! "containers" = Some (JList (pre ++ JDict dc :: post))
      ∧ none_named "demo-env" pre = true
      ∧ dc !! "name" = Some (JStr "demo-env")
      ∧ ((dc !! "state" = Some (JStr "running")
          ∧ registry_of (start_body polling_env "demo-env" sample_world).2
            = registry_of sample_world
          ∧ (calls (start_body polling_env "demo-env" sample_world).2
             = calls sample_world
             ∨ calls (start_body polling_env "demo-env" sample_world).2
               = calls sample_world ++ [["groups"; USER polling_env]]))
         ∨ (dc !! "state" ≠ Some (JStr "running")
            ∧ ∃ (ts_ip : option string) history k,
                (history = calls sample_world ++ [["podman"; "--version"];
                                                  ["podman"; "start"; "demo-env"]]
                 ∨ history = calls sample_world ++ [["groups"; USER polling_env];
                                                    ["podman"; "--version"];
                                                    ["podman"; "start"; "demo-env"]])
                ∧ calls (start_body polling_env "demo-env" sample_world).2
                  = history ++ replicate k (poll "demo-env")
                ∧ polled polling_env "demo-env" history 30 k ts_ip
                ∧ (∀ ip, ts_ip = Some ip → ip ≠ EmptyString)
                ∧ registry_of (start_body polling_env "demo-env" sample_world).2
                  = Document (JDict (<["containers" :=
                      JList (pre ++ JDict (<["state" := JStr "running"]>
                                           (<["tailscaleIP" := opt_str ts_ip]>
                                            (<["lastActivityAt" :=
                                               JStr (utcnow polling_env
                                                       (calls (start_body polling_env
                                                                 "demo-env"
                                                                 sample_world).2))]> dc)))
                                 :: post)]> d)))).
Proof.
  split.
  - apply (start_registry failing_start_env "demo-env" sample_world
             (start_body failing_start_env "demo-env" sample_world).1
             (start_body failing_start_env "demo-env" sample_world).2);
      [vm_compute; reflexivity | vm_compute; eauto].
  - apply (start_registry polling_env "demo-env" sample_world (Ok tt)
             (start_body polling_env "demo-env" sample_world).2);
      vm_compute; reflexivity.
Defined.

(** ** Creating a container: what a failure raises *)

(** X19: [create] is all or nothing on the registry. Whenever the command
    does not return normally, whatever has failed (a check of the
    admission, the vault, the volume, the launch, the update of the
    record), the registry reads exactly as before the command. The body of
    the command has then raised an exception; when it is one of the errors
    of the program, the command reports its message and raises the exit
    with status 1, and when it is not, the command raises that same
    exception and reports nothing. *)
Theorem create_all_or_nothing E name cpu memory no_start sync w r w' :
  create E name cpu memory no_start sync w = (r, w') →
  r ≠ Ok tt →
  registry_of w' = registry_of w
  ∧ ∃ e0 w0,
      create_body E name cpu memory no_start sync w = (Raise e0, w0)
      ∧ calls w' = calls w0
      ∧ match DevboxError_message e0 with
        | Some message =>
            r = Raise (SystemExit 1)
            ∧ errors w' = errors w0 ++ ["Error: " +:+ message]
        | None => r = Raise e0 ∧ errors w' = errors w0
        end.
Proof.
  intros H Hr. destruct r as [[]|e]; [done|]. split.
  - apply (raises_clean_exit_on_DevboxError _
             (raises_clean_create_body E name cpu memory no_start sync) _ _ _ H).
  - unfold create, exit_on_DevboxError, try_except in H.
    destruct (create_body E name cpu memory no_start sync w) as [[[]|e0] w0];
      [discriminate|].
    exists e0, w0. split; [done|].
    destruct (DevboxError_message e0) as [message|].
    + unfold bind, echo_err, raise in H. by injection H as <- <-.
    + by injection H as <- <-.
Qed.

Lemma create_all_or_nothing_witness :
  registry_of (create failing_run_env "new-env" 2 "4G" false false sample_world).2
  = registry_of sample_world
  ∧ ∃ e0 w0,
      create_body failing_run_env "new-env" 2 "4G" false false sample_world
      = (Raise e0, w0)
      ∧ calls (create failing_run_env "new-env" 2 "4G" false false sample_world).2
        = calls w0
      ∧ match DevboxError_message e0 with
        | Some message =>
            (create failing_run_env "new-env" 2 "4G" false false sample_world).1
            = Raise (SystemExit 1)
            ∧ errors (create failing_run_env "new-env" 2 "4G" false false sample_world).2
              = errors w0 ++ ["Error: " +:+ message]
        | None =>
            (create failing_run_env "new-env" 2 "4G" false false sample_world).1
            = Raise e0
            ∧ errors (create failing_run_env "new-env" 2 "4G" false false sample_world).2
              = errors w0
        end.
Proof.
  apply (create_all_or_nothing failing_run_env "new-env" 2 "4G" false false sample_world
           (create failing_run_env "new-env" 2 "4G" false false sample_world).1
           (create failing_run_env "new-env" 2 "4G" false false sample_world).2);
    [vm_compute; reflexivity | vm_compute; discriminate].
Defined.

(** ** The record of a new container *)

Lemma runs_only_any_podman_volume E name :
  runs_only any_command (podman_volume_exists E name)
  ∧ runs_only any_command (podman_create_volume E name).
Proof. unfold podman_volume_exists, podman_create_volume. split; runs. Qed.

Lemma runs_only_any_create_admission E name cpu memory :
  runs_only any_command (create_admission E name cpu memory).
Proof.
  unfold create_admission, check_podman, get_tailscale_authkey, check_op_cli,
    check_op_auth. runs.
Qed.

(** The guarded block of [create], when it succeeds, has given the new
    record its state, and the address the polls have found. *)
Lemma create_provision_polled E name cpu memory no_start sync authkey tags
    w d items dn w' :
  registry_of w = Document (JDict d) →
  d !! "containers" = Some (JList (items ++ [JDict dn])) →
  none_named name items = true → dn !! "name" = Some (JStr name) →
  create_provision E name cpu memory no_start sync authkey tags w = (Ok tt, w') →
  ∃ state (ip : option string),
    ((no_start = true ∧ state = "stopped" ∧ ip = None)
     ∨ (no_start = false ∧ state = "running"
        ∧ (∀ s, ip = Some s → s ≠ EmptyString)
        ∧ ∃ before run_cmd k,
            take 2 run_cmd = ["podman"; "run"]
            ∧ calls w' = (calls w ++ before ++ [run_cmd]) ++ replicate k (poll name)
            ∧ polled E name (calls w ++ before ++ [run_cmd]) 60 k ip))
    ∧ registry_of w'
      = Document (JDict (<["containers" :=
          JList (items ++ [JDict (<["state" := JStr state]>
                                    (match ip with
                                     | Some s => <["tailscaleIP" := JStr s]> dn
                                     | None => dn
                                     end))])]> d)).
Proof.
  intros Hw Hd Hnone Hname H. unfold create_provision in H.
  destruct (runs_only_any_podman_volume E (name +:+ "-data")) as [Hex Hcr].
  apply bind_Ok_grows in H as (present & w1 & n1 & Hf1 & Hc1 & H); [|keeps|done].
  apply bind_Ok_grows in H as (a2 & w2 & n2 & Hf2 & Hc2 & H);
    [|keeps|destruct (negb present); [done | runs]].
  assert (registry_of w2 = Document (JDict d)) as Hw2'
    by (unfold registry_of in *; by rewrite Hf2, Hf1).
  destruct no_start.
  - exists "stopped", None. split; [by left|].
    rewrite (update_container_last name _ w2 d items dn w' Hw2' Hd Hnone Hname H).
    by rewrite <- insert_union_singleton_l.
  - apply bind_Ok_inv in H as ([] & w3 & H3 & H).
    unfold podman_run_container in H3. apply podman_or_Ok in H3.
    match type of H3 with
    | _ = {| registry_file := _; calls := _ ++ [?cmd]; errors := _ |} =>
        set (run_cmd := cmd) in *
    end.
    apply bind_Ok_inv in H as (ts_ip & w4 & Hwait & H).
    destruct (wait_for_tailscale_polled E name 60 w3) as (k & ts_ip' & Hrun & Hpolled).
    pose proof Hwait as Hwait'.
    rewrite Hrun in Hwait. injection Hwait as <- <-.
    assert (calls w3 = calls w ++ (n1 ++ n2) ++ [run_cmd]) as Hc3
      by (subst w3; cbn [calls]; rewrite Hc2, Hc1, <- !app_assoc; done).
    assert (registry_of {| registry_file := registry_file w3;
                           calls := calls w3 ++ replicate k (poll name);
                           errors := errors w3 |} = Document (JDict d)) as Hw4'
      by (subst w3; done).
    assert (∃ before run_cmd' k',
              take 2 run_cmd' = ["podman"; "run"]
              ∧ calls w' = (calls w ++ before ++ [run_cmd']) ++ replicate k' (poll name)
              ∧ polled E name (calls w ++ before ++ [run_cmd']) 60 k' ts_ip') as Hpolls.
    { exists (n1 ++ n2), run_cmd, k. split; [done|].
      rewrite <- Hc3. split; [|done].
      assert (silent (if truthy (opt_str ts_ip')
                      then update_container name
                             (<["state" := JStr "running"]>
                                {["tailscaleIP" := opt_str ts_ip']})
                      else update_container name {["state" := JStr "running"]})) as Hs
        by (destruct (truthy _); apply silent_update_container).
      by rewrite (Hs _ _ _ H). }
    destruct ts_ip' as [ip|]; simpl in H.
    + pose proof (wait_for_tailscale_Some _ _ _ _ _ _ Hwait') as Hip.
      assert (negb (String.length ip =? 0)%nat = true) as Hlen
        by (destruct ip; [done | reflexivity]).
      rewrite Hlen in H.
      exists "running", (Some ip).
      split; [right; split; [done|]; split; [done|]; split; [by intros s [= <-] | done]|].
      rewrite (update_container_last name _ _ d items dn w' Hw4' Hd Hnone Hname H).
      by rewrite <- insert_union_l, <- insert_union_singleton_l.
    + exists "running", None.
      split; [right; split; [done|]; split; [done|]; split; [done | done]|].
      rewrite (update_container_last name _ _ d items dn w' Hw4' Hd Hnone Hname H).
      by rewrite <- insert_union_singleton_l.
Qed.

(** X21: a [create] that returns normally has added exactly one record,
    after the records that were there, none of which has the name. The
    record has the fields of the request. With [--no-start] its state is
    ["stopped"] and it has no address. Without, its state is ["running"],
    never ["creating"]; the last command before the polls is [podman run],
    and the address is the answer of the first poll that has one, which is
    not empty, or null when none of the 60 polls has an answer. *)
Theorem create_stored_record E name cpu memory no_start sync w w' :
  create E name cpu memory no_start sync w = (Ok tt, w') →
  ∃ d items timestamp state (ip : option string),
    registry_of w = Document (JDict d)
    ∧ d !! "containers" = Some (JList items)
    ∧ none_named name items = true
    ∧ ((no_start = true ∧ state = "stopped" ∧ ip = None)
       ∨ (no_start = false ∧ state = "running"
          ∧ (∀ s, ip = Some s → s ≠ EmptyString)
          ∧ ∃ before run_cmd k,
              take 2 run_cmd = ["podman"; "run"]
              ∧ calls w' = (calls w ++ before ++ [run_cmd]) ++ replicate k (poll name)
              ∧ polled E name (calls w ++ before ++ [run_cmd]) 60 k ip))
    ∧ registry_of w'
      = Document (JDict (<["containers" :=
          JList (items ++ [JDict (<["state" := JStr state]>
                                    (<["tailscaleIP" := opt_str ip]>
                                       (record_fields name (USER E) cpu memory sync
                                          timestamp)))])]> d)).
Proof.
  intros H%exit_on_DevboxError_Ok. unfold create_body in H.
  apply bind_Ok_inv in H as (key & w1 & Hadm & H).
  apply bind_Ok_inv in H as ([] & w2 & Hadd & H).
  destruct (create_inserted _ _ _ _ _ _ _ _ _ Hadm Hadd)
    as (d & items & Hw & Hd & Hnone & Hc2 & Hw2).
  destruct (runs_only_any_create_admission E name cpu memory _ _ _ Hadm)
    as (n0 & Hc1 & _).
  unfold try_except in H.
  destruct (create_provision E name cpu memory no_start sync key.1 key.2 w2)
    as [[[]|e] w3] eqn:Hprov.
  - injection H as <-.
    eapply create_provision_polled in Hprov as (state & ip & Hcases & Hw');
      [| exact Hw2 | apply lookup_insert_eq | exact Hnone
       | unfold record_fields; apply lookup_insert_eq ].
    rewrite insert_insert_eq in Hw'.
    exists d, items, (utcnow E (calls w1)), state, ip.
    split; [done|]. split; [done|]. split; [done|]. split.
    + destruct Hcases as [Hstop | (Hstart & Hstate & Hip & before & run_cmd & k
                                    & Hrun & Hcalls & Hpolled)]; [by left|].
      right. split; [done|]. split; [done|]. split; [done|].
      exists (n0 ++ before), run_cmd, k. split; [done|].
      rewrite Hc2, Hc1 in Hcalls. rewrite Hc2, Hc1 in Hpolled.
      repeat rewrite <- app_assoc in Hcalls. repeat rewrite <- app_assoc in Hpolled.
      repeat rewrite <- app_assoc. by split.
    + rewrite Hw'. destruct ip as [s|]; [done|]. simpl.
      by rewrite (insert_id (record_fields _ _ _ _ _ _) "tailscaleIP" JNull).
  - unfold create_cleanup, bind, echo_err in H.
    destruct (remove_container name _) as [[?|?] ?]; discriminate.
Qed.

Lemma create_stored_record_witness :
  ∃ d items timestamp state (ip : option string),
    registry_of empty_world = Document (JDict d)
    ∧ d !! "containers" = Some (JList items)
    ∧ none_named "demo-env" items = true
    ∧ ((false = true ∧ state = "stopped" ∧ ip = None)
       ∨ (false = false ∧ state = "running"
          ∧ (∀ s, ip = Some s → s ≠ EmptyString)
          ∧ ∃ before run_cmd k,
              take 2 run_cmd = ["podman"; "run"]
              ∧ calls (create polling_env "demo-env" 2 "4G" false false empty_world).2
                = (calls empty_world ++ before ++ [run_cmd])
                  ++ replicate k (poll "demo-env")
              ∧ polled polling_env "demo-env" (calls empty_world ++ before ++ [run_cmd])
                  60 k ip))
    ∧ registry_of (create polling_env "demo-env" 2 "4G" false false empty_world).2
      = Document (JDict (<["containers" :=
          JList (items ++ [JDict (<["state" := JStr state]>
                                    (<["tailscaleIP" := opt_str ip]>
                                       (record_fields "demo-env" (USER polling_env) 2 "4G"
                                          false timestamp)))])]> d)).
Proof.
  apply (create_stored_record polling_env "demo-env" 2 "4G" false false empty_world
           (create polling_env "demo-env" 2 "4G" false false empty_world).2).
  vm_compute. reflexivity.
Defined.
